(** * Lethain article tracker: merge resolver, store adapter, read cache

    A shallow embedding of the state-synchronisation core of the extension
    (url-utils.js, article-utils.js, storage.js, article-cache.js,
    validators.js and export-import.js) and the properties of it that the
    specification states.

    JavaScript objects are finite maps from property names to values, the
    key-value store and the cache snapshot are finite maps from keys to
    objects, and the asynchronous store operations are sequenced in a state
    and exception monad over the browser state.

    Conventions. A function that starts by checking the type of an argument
    ([typeof url !== 'string'], [Array.isArray]) is given an argument of that
    type, and the branch that rejects the others has no counterpart. The
    functions of the browser (the URL constructor, date parsing and printing)
    are parameters of the development. The clock is read from the browser
    state and stands still during one operation. *)

From Stdlib Require Import ZArith Ascii String Lia.
From stdpp Require Import gmap strings list fin_maps pretty.

Open Scope string_scope.
Open Scope Z_scope.

(** ** JavaScript values *)

(** The values an article field can hold after [JSON.parse] or after the page
    scraper built a draft. A number is kept when it is an integer (a fraction
    is seen by this code only through its truthiness and its type, where it
    agrees with a non-zero integer). A nested array or object is kept through
    [repr], the string that [ToString] gives for it: the code never looks
    inside one. *)
Inductive jsval : Type :=
  | JUndefined
  | JNull
  | JBool (b : bool)
  | JNum (n : Z)
  | JStr (s : string)
  | JOther (repr : string).

#[global] Instance jsval_eq_dec : EqDecision jsval.
Proof. solve_decision. Defined.

(** A plain object: own properties by name. [None] at a name is a missing
    property, [Some JUndefined] a property that is present and undefined. *)
Abbreviation jsobj := (gmap string jsval).

(** An array element as [JSON.parse] or the scraper delivers it: a plain
    object, or anything else (null, a primitive, an array). *)
Inductive jselem : Type :=
  | Obj (o : jsobj)
  | Prim (v : jsval).

(** [o.name] *)
Definition prop (o : jsobj) (name : string) : jsval :=
  default JUndefined (o !! name).

(** [o.hasOwnProperty(name)] *)
Definition hasOwnProperty (o : jsobj) (name : string) : bool :=
  bool_decide (is_Some (o !! name)).

(** [ToBoolean] *)
Definition truthy (v : jsval) : bool :=
  match v with
  | JUndefined | JNull => false
  | JBool b => b
  | JNum n => negb (n =? 0)%Z
  | JStr s => negb (String.eqb s "")
  | JOther _ => true
  end.

(** [a || b] *)
Definition js_or (a b : jsval) : jsval := if truthy a then a else b.

(** [existing && existing.name] for an [existing] that is an object or null. *)
Definition and_prop (existing : option jsobj) (name : string) : jsval :=
  match existing with
  | Some e => prop e name
  | None => JNull
  end.

Definition is_string (v : jsval) : bool :=
  match v with JStr _ => true | _ => false end.

Definition is_boolean (v : jsval) : bool :=
  match v with JBool _ => true | _ => false end.

Definition is_undefined (v : jsval) : bool :=
  match v with JUndefined => true | _ => false end.

(** [ToString] on a property key. *)
Definition toPropertyKey (v : jsval) : string :=
  match v with
  | JUndefined => "undefined"
  | JNull => "null"
  | JBool true => "true"
  | JBool false => "false"
  | JNum n => pretty n
  | JStr s => s
  | JOther r => r
  end.

(** The object literal [{url, title, publishedDate, dateText, isRead, readDate}]. *)
Definition article (u t p d r rd : jsval) : jsobj :=
  <["url" := u]> (<["title" := t]> (<["publishedDate" := p]>
  (<["dateText" := d]> (<["isRead" := r]> (<["readDate" := rd]> ∅))))).

(** ** Strings *)

(** White space that [String.prototype.trim] removes, on ASCII text: tab,
    line feed, vertical tab, form feed, carriage return and space. *)
Definition is_ws (a : ascii) : bool :=
  let n := nat_of_ascii a in
  ((9 <=? n)%nat && (n <=? 13)%nat) || (n =? 32)%nat.

Fixpoint trimStart (s : string) : string :=
  match s with
  | EmptyString => EmptyString
  | String a s' => if is_ws a then trimStart s' else s
  end.

Fixpoint trimEnd (s : string) : string :=
  match s with
  | EmptyString => EmptyString
  | String a s' =>
      match trimEnd s' with
      | EmptyString => if is_ws a then EmptyString else String a EmptyString
      | t => String a t
      end
  end.

(** [s.trim()] *)
Definition trim (s : string) : string := trimEnd (trimStart s).

(** [s.startsWith(pre)] *)
Definition startsWith (s pre : string) : bool := String.prefix pre s.

(** [s.endsWith(suf)] *)
Fixpoint endsWith (s suf : string) : bool :=
  String.eqb s suf ||
  match s with
  | EmptyString => false
  | String _ s' => endsWith s' suf
  end.

(** [s.slice(0, -1)] *)
Fixpoint slice_0_m1 (s : string) : string :=
  match s with
  | EmptyString => EmptyString
  | String a EmptyString => EmptyString
  | String a s' => String a (slice_0_m1 s')
  end.

(** ** Configuration (config.js) *)

Module CONFIG.
Definition cache_ttl : Z := 30000.
Definition storage_prefix : string := "article_".
End CONFIG.

(** ** Reference instances of the platform functions

    The URL constructor, [Date.parse] and [Date.prototype.toISOString] belong
    to the browser. The development is parametric in them; the instances
    below are used to evaluate it on concrete inputs. *)

Definition is_digit (a : ascii) : bool :=
  let n := nat_of_ascii a in (48 <=? n)%nat && (n <=? 57)%nat.

Definition is_alpha (a : ascii) : bool :=
  let n := nat_of_ascii a in
  ((65 <=? n)%nat && (n <=? 90)%nat) || ((97 <=? n)%nat && (n <=? 122)%nat).

(** Characters that the URL parser copies into a path unchanged and that
    cannot form a dot segment. *)
Definition plainPathChar (a : ascii) : bool :=
  is_alpha a || is_digit a ||
  (nat_of_ascii a =? 45)%nat || (nat_of_ascii a =? 95)%nat ||
  (nat_of_ascii a =? 126)%nat || (nat_of_ascii a =? 47)%nat.

Fixpoint all_chars (f : ascii -> bool) (s : string) : bool :=
  match s with
  | EmptyString => true
  | String a s' => f a && all_chars f s'
  end.

(** A path that starts with a slash and is made of plain characters. *)
Definition plainPath (p : string) : bool :=
  startsWith p "/" && all_chars plainPathChar p.

Fixpoint strip_prefix (pre s : string) : option string :=
  match pre, s with
  | EmptyString, _ => Some s
  | String a pre', String b s' =>
      if Ascii.eqb a b then strip_prefix pre' s' else None
  | String _ _, EmptyString => None
  end.

(** [new URL(input, base).href] for the base [https://lethain.com] on the
    site's own addresses: the empty input, a path-absolute reference
    [/seg/seg...] (not a scheme-relative [//...]), and an absolute
    [https://lethain.com] followed by nothing or by a plain path. On these
    the parser keeps every path segment, the empty ones included, and
    serialises an empty path as [/]. Every other input is outside this
    instance, which answers [None] there, as the constructor does when it
    throws. *)
Definition URL_href_site (input base : string) : option string :=
  if negb (String.eqb base "https://lethain.com") then None
  else if String.eqb input "" then Some "https://lethain.com/"
  else if plainPath input && negb (startsWith input "//")
  then Some ("https://lethain.com" ++ input)
  else match strip_prefix "https://lethain.com" input with
       | Some EmptyString => Some "https://lethain.com/"
       | Some p => if plainPath p then Some input else None
       | None => None
       end.

(** The inputs on which [URL_href_site] is the constructor itself. *)
Definition on_site (input : string) : bool :=
  String.eqb input "" ||
  (plainPath input && negb (startsWith input "//")) ||
  match strip_prefix "https://lethain.com" input with
  | Some EmptyString => true
  | Some p => plainPath p
  | None => false
  end.

(** Days since 1970-01-01 of a proleptic Gregorian date, and back. *)
Definition days_from_civil (y m d : Z) : Z :=
  let y' := if m <=? 2 then y - 1 else y in
  let era := y' / 400 in
  let yoe := y' - era * 400 in
  let doy := (153 * (if 2 <? m then m - 3 else m + 9) + 2) / 5 + d - 1 in
  let doe := yoe * 365 + yoe / 4 - yoe / 100 + doy in
  era * 146097 + doe - 719468.

Definition civil_from_days (days : Z) : Z * Z * Z :=
  let z := days + 719468 in
  let era := z / 146097 in
  let doe := z - era * 146097 in
  let yoe := (doe - doe / 1460 + doe / 36524 - doe / 146096) / 365 in
  let doy := doe - (365 * yoe + yoe / 4 - yoe / 100) in
  let mp := (5 * doy + 2) / 153 in
  let d := doy - (153 * mp + 2) / 5 + 1 in
  let m := if mp <? 10 then mp + 3 else mp - 9 in
  (yoe + era * 400 + (if m <=? 2 then 1 else 0), m, d).

Definition digit_char (n : Z) : ascii := ascii_of_nat (48 + Z.to_nat (n mod 10)).

(** [n] in decimal on exactly [width] digits. *)
Fixpoint pad_digits (width : nat) (n : Z) : string :=
  match width with
  | O => EmptyString
  | S w => pad_digits w (n / 10) ++ String (digit_char n) EmptyString
  end.

(** [new Date(ms).toISOString()] for a time in the years 0000 to 9999. *)
Definition toISOString_ref (ms : Z) : string :=
  let days := ms / 86400000 in
  let rest := ms mod 86400000 in
  let '(y, m, d) := civil_from_days days in
  pad_digits 4 y ++ "-" ++ pad_digits 2 m ++ "-" ++ pad_digits 2 d ++ "T" ++
  pad_digits 2 (rest / 3600000) ++ ":" ++ pad_digits 2 (rest / 60000 mod 60) ++ ":" ++
  pad_digits 2 (rest / 1000 mod 60) ++ "." ++ pad_digits 3 (rest mod 1000) ++ "Z".

Fixpoint read_digits (acc : Z) (s : string) : option Z :=
  match s with
  | EmptyString => Some acc
  | String a s' =>
      if is_digit a then read_digits (acc * 10 + (Z.of_nat (nat_of_ascii a) - 48)) s'
      else None
  end.

(** The number written by the [len] digits of [s] from position [pos]. *)
Definition digits_at (pos len : nat) (s : string) : option Z :=
  let t := String.substring pos len s in
  if (String.length t =? len)%nat then read_digits 0 t else None.

Definition days_in_month (y m : Z) : Z :=
  if m =? 2 then
    (if ((y mod 4 =? 0) && negb (y mod 100 =? 0)) || (y mod 400 =? 0) then 29 else 28)
  else if (m =? 4) || (m =? 6) || (m =? 9) || (m =? 11) then 30 else 31.

(** [Date.parse] on the two ISO forms the extension meets: the date-time
    [YYYY-MM-DDTHH:mm:ss.sssZ] that [toISOString] writes into an export, and
    the date [YYYY-MM-DD], which is UTC midnight. Every other string is
    outside this instance, which answers [None] (an invalid date, whose time
    value is NaN). *)
Definition Date_parse_iso (s : string) : option Z :=
  let date :=
    y ← digits_at 0 4 s; m ← digits_at 5 2 s; d ← digits_at 8 2 s;
    if String.eqb (String.substring 4 1 s) "-" && String.eqb (String.substring 7 1 s) "-"
       && (1 <=? m)%Z && (m <=? 12)%Z && (1 <=? d)%Z && (d <=? days_in_month y m)%Z
    then Some (days_from_civil y m d * 86400000) else None in
  if (String.length s =? 10)%nat then date
  else if (String.length s =? 24)%nat then
    day ← date; h ← digits_at 11 2 s; mi ← digits_at 14 2 s;
    sec ← digits_at 17 2 s; ms ← digits_at 20 3 s;
    if String.eqb (String.substring 10 1 s) "T" && String.eqb (String.substring 13 1 s) ":"
       && String.eqb (String.substring 16 1 s) ":" && String.eqb (String.substring 19 1 s) "."
       && String.eqb (String.substring 23 1 s) "Z"
       && (h <=? 23)%Z && (mi <=? 59)%Z && (sec <=? 59)%Z
    then Some (day + h * 3600000 + mi * 60000 + sec * 1000 + ms) else None
  else None.


(** ** The browser state *)

(** A call made to [chrome.storage.local]. *)
Inductive storage_call : Type :=
  | StorageGet (keys : option (list string))
  | StorageSet (data : gmap string jsobj).

(** [chrome.storage.local]: the stored items, the error that the next [get]
    or [set] reports through [chrome.runtime.lastError] (a quota that is
    exceeded, a store that is unavailable), and the calls made so far, the
    latest first. *)
Record chrome_storage : Type := mkStorage {
  items : gmap string jsobj;
  getError : option string;
  setError : option string;
  calls : list storage_call
}.

(** The module variables of article-cache.js. *)
Record cache_state : Type := mkCache {
  articlesCache : option (gmap string jsobj);
  cacheTimestamp : Z
}.

(** One script context: the store, the cache module when the context loads
    it (the page does, the popup does not), and the clock in milliseconds. *)
Record world : Type := mkWorld {
  storage : chrome_storage;
  cache : option cache_state;
  clock : Z
}.

(** How a call ends: it returns, or it throws (an async function rejects). *)
Inductive outcome (A : Type) : Type :=
  | Ok (a : A)
  | Thrown (error : string).
Arguments Ok {A} a.
Arguments Thrown {A} error.

(** Computations over the browser state. Each await is run to its end before
    the next statement: one call at a time, no interleaving. *)
Definition M (A : Type) : Type := world -> outcome A * world.

#[global] Instance M_ret : MRet M := fun A a w => (Ok a, w).

#[global] Instance M_bind : MBind M := fun A B f m w =>
  match m w with
  | (Ok a, w') => f a w'
  | (Thrown e, w') => (Thrown e, w')
  end.

Definition throw {A : Type} (error : string) : M A := fun w => (Thrown error, w).

(** [try { body } catch (error) { handler }] *)
Definition try_catch {A : Type} (body : M A) (handler : string -> M A) : M A :=
  fun w =>
    match body w with
    | (Ok a, w') => (Ok a, w')
    | (Thrown e, w') => handler e w'
    end.

(** [Date.now()] *)
Definition Date_now : M Z := fun w => (Ok (clock w), w).

Definition log_call (c : storage_call) (st : chrome_storage) : chrome_storage :=
  mkStorage (items st) (getError st) (setError st) (c :: calls st).

(** The items under the asked keys; [null] asks for every item. *)
Definition select_items (keys : option (list string)) (m : gmap string jsobj)
  : gmap string jsobj :=
  match keys with
  | None => m
  | Some ks => filter (fun kv => kv.1 ∈ ks) m
  end.

(** [chrome.storage.local.get(keys, callback)] as a promise. *)
Definition chrome_storage_get (keys : option (list string)) : M (gmap string jsobj) :=
  fun w =>
    let st := log_call (StorageGet keys) (storage w) in
    let w' := mkWorld st (cache w) (clock w) in
    match getError st with
    | Some message => (Thrown message, w')
    | None => (Ok (select_items keys (items st)), w')
    end.

(** [chrome.storage.local.set(data, callback)] as a promise. *)
Definition chrome_storage_set (data : gmap string jsobj) : M unit :=
  fun w =>
    let st := log_call (StorageSet data) (storage w) in
    match setError st with
    | Some message => (Thrown message, mkWorld st (cache w) (clock w))
    | None =>
        (Ok tt, mkWorld (mkStorage (data ∪ items st) (getError st) (setError st) (calls st))
                        (cache w) (clock w))
    end.

(** [Promise.all(l.map(f))]: every call is started, in order; the result is
    the first rejection when there is one. *)
Fixpoint Promise_all_map {A B : Type} (f : A -> M B) (l : list A) : M (list B) :=
  match l with
  | [] => mret []
  | a :: l' => fun w =>
      match f a w with
      | (Ok b, w1) =>
          match Promise_all_map f l' w1 with
          | (Ok bs, w2) => (Ok (b :: bs), w2)
          | (Thrown e, w2) => (Thrown e, w2)
          end
      | (Thrown e, w1) => (Thrown e, snd (Promise_all_map f l' w1))
      end
  end.

(** ** Further configuration (config.js) *)

Module CONFIG_storage.
Definition filterKey : string := "lethain_page_filter".
End CONFIG_storage.

Module CONFIG_filters.
Definition all : string := "all".
Definition read : string := "read".
Definition unread : string := "unread".
End CONFIG_filters.

Module CONFIG_timeouts.
Definition cacheInvalidation : Z := 100.
End CONFIG_timeouts.

Module CONFIG_export.
Definition version : string := "1.0.0".
End CONFIG_export.

(** ** Import documents (validators.js) *)

(** The value of a property of an import document, as far as the import
    looks at it: an array, or anything else. *)
Inductive json_field : Type :=
  | FArray (elems : list jselem)
  | FValue (v : jsval).

(** What [JSON.parse] returns for an import file: an object, an array, or
    null or a primitive. *)
Inductive import_doc : Type :=
  | DocObject (fields : gmap string json_field)
  | DocArray (elems : list jselem)
  | DocPrim (v : jsval).

(** The object [{ valid, error }]. *)
Record validation : Type := mkValidation {
  valid : bool;
  error : option string
}.

(** [validateImportData(importData)]. An array is an object for [typeof]
    and has no property [articles]. *)
Definition validateImportData (importData : import_doc) : validation :=
  match importData with
  | DocPrim _ => mkValidation false (Some "Invalid file format. Expected an object.")
  | DocArray _ =>
      mkValidation false
        (Some "Invalid file format. The file must contain an array of articles.")
  | DocObject fields =>
      match fields !! "articles" with
      | Some (FArray _) => mkValidation true None
      | _ =>
          mkValidation false
            (Some "Invalid file format. The file must contain an array of articles.")
      end
  end.

(** The object that [createExportData] returns. *)
Record export_data : Type := mkExportData {
  version : string;
  exportDate : string;
  totalArticles : Z;
  exported_articles : list jsobj
}.

(** The document that [JSON.parse] reads back from the file that
    [downloadJSON] writes for an export: the same four properties, every
    article with the fields it has (fields that are strings, booleans or
    null, as the store holds them, are written and read back as they
    are). *)
Definition export_document (e : export_data) : import_doc :=
  DocObject
    (<["version" := FValue (JStr (version e))]>
     (<["exportDate" := FValue (JStr (exportDate e))]>
      (<["totalArticles" := FValue (JNum (totalArticles e))]>
       (<["articles" := FArray (Obj <$> exported_articles e)]> ∅)))).

(** ** The page filter (storage.js, page-state.js) *)

(** [chrome.storage.local] as the two filter functions meet it: the item
    under [CONFIG.storage.filterKey], absent or any value, and the error
    that a [get] and a [set] report through [chrome.runtime.lastError]. The
    key does not carry the article prefix, so no article function reads or
    writes it. *)
Record filter_storage : Type := mkFilterStorage {
  filterItem : option jsval;
  filterGetError : option string;
  filterSetError : option string
}.

(** [Storage.getPageFilter()] *)
Definition getPageFilter (st : filter_storage) : outcome jsval * filter_storage :=
  match filterGetError st with
  | Some message => (Thrown message, st)
  | None => (Ok (js_or (default JUndefined (filterItem st)) (JStr CONFIG_filters.all)), st)
  end.

(** [Storage.setPageFilter(filter)] *)
Definition setPageFilter (filter : jsval) (st : filter_storage)
  : outcome unit * filter_storage :=
  if negb (is_string filter) then (Ok tt, st)
  else
    match filterSetError st with
    | Some message => (Thrown message, st)
    | None => (Ok tt, mkFilterStorage (Some filter) (filterGetError st) (filterSetError st))
    end.

(** The fields of a [PageState]. *)
Record PageState : Type := mkPageState {
  currentFilter : jsval;
  isInitialized : bool
}.

(** [new PageState()] *)
Definition PageState_new : PageState := mkPageState (JStr CONFIG_filters.all) false.

(** [pageState.initialize()] *)
Definition PageState_initialize (this : PageState) (st : filter_storage)
  : PageState * filter_storage :=
  if isInitialized this then (this, st)
  else
    match getPageFilter st with
    | (Ok filter, st') => (mkPageState filter true, st')
    | (Thrown _, st') => (mkPageState (JStr CONFIG_filters.all) true, st')
    end.

(** [pageState.getFilter()] *)
Definition PageState_getFilter (this : PageState) : jsval := currentFilter this.

(** [pageState.setFilter(filter)] *)
Definition PageState_setFilter (filter : jsval) (this : PageState) (st : filter_storage)
  : PageState * filter_storage :=
  let this' := mkPageState filter (isInitialized this) in
  match setPageFilter filter st with
  | (_, st') => (this', st')
  end.

Section Platform.

(** A proof depends on the browser functions that its statement names. *)
Set Default Proof Using "Type".

(** [new URL(input, base).href], [None] when the constructor throws. *)
Variable URL_href : string -> string -> option string.

(** [Date.parse]: the time value of a date string, [None] for NaN. *)
Variable Date_parse : string -> option Z.

(** [new Date(ms).toISOString()] *)
Variable toISOString : Z -> string.

(** *** url-utils.js *)

(** [normalizeUrl(url, baseUrl)] on a string. *)
Definition normalizeUrl (url baseUrl : string) : string :=
  if String.eqb url "" then ""
  else
    match URL_href (trim url) baseUrl with
    | Some href =>
        if endsWith href "/" && negb (String.eqb href (baseUrl ++ "/"))
        then slice_0_m1 href
        else href
    | None =>
        let normalized := trim url in
        let normalized :=
          if endsWith normalized "/" && negb (String.eqb normalized (baseUrl ++ "/"))
          then slice_0_m1 normalized
          else normalized in
        if startsWith normalized "http://" || startsWith normalized "https://"
        then normalized
        else baseUrl ++ (if startsWith normalized "/" then normalized else "/" ++ normalized)
    end.

(** [normalizeUrl(url)] with the default base. *)
Definition normalizeUrl1 (url : string) : string :=
  normalizeUrl url "https://lethain.com".

(** [normalizeUrl(v)] on any value: a falsy one gives the empty string, a
    truthy one that is not a string has no [trim], and the TypeError leaves
    the function ([None]) because the catch block calls [trim] again. *)
Definition normalizeUrl_val (v : jsval) : option string :=
  if negb (truthy v) then Some ""
  else match v with
       | JStr s => Some (normalizeUrl1 s)
       | _ => None
       end.

(** [validateUrl(url)] as a boolean. *)
Definition validateUrl (url : jsval) : bool :=
  match url with
  | JStr s => negb (String.eqb s "") && (0 <? String.length (trim s))%nat
  | _ => false
  end.

(** *** validators.js *)

(** [validateArticle(article)] as a boolean. *)
Definition validateArticle (a : jselem) : bool :=
  match a with
  | Obj o => truthy (prop o "url")
  | Prim _ => false
  end.

(** *** article-utils.js *)

(** [determineReadStatus(existing, newArticle)] on objects; [now] is the
    clock read by [new Date()]. *)
Definition determineReadStatus (now : Z) (existing : option jsobj) (newArticle : jsobj)
  : jsval * jsval :=
  if hasOwnProperty newArticle "isRead" then
    let isRead := js_or (prop newArticle "isRead") (JBool false) in
    let readDate :=
      if is_undefined (prop newArticle "readDate")
      then (if truthy isRead then JStr (toISOString now) else JNull)
      else prop newArticle "readDate" in
    (isRead, readDate)
  else
    match existing with
    | Some e => (js_or (prop e "isRead") (JBool false), js_or (prop e "readDate") JNull)
    | None =>
        (js_or (prop newArticle "isRead") (JBool false),
         js_or (prop newArticle "readDate") JNull)
    end.

(** [mergeArticleState(existing, newArticle)]; [None] when [normalizeUrl]
    throws. *)
Definition mergeArticleState (existing : option jsobj) (newArticle : jsobj)
  : option jsobj :=
  match existing with
  | None =>
      u ← normalizeUrl_val (prop newArticle "url");
      Some (article (JStr u)
              (js_or (prop newArticle "title") (JStr ""))
              (js_or (prop newArticle "publishedDate") (JStr ""))
              (js_or (js_or (prop newArticle "dateText") (prop newArticle "publishedDate"))
                     (JStr ""))
              (js_or (prop newArticle "isRead") (JBool false))
              (js_or (prop newArticle "readDate") JNull))
  | Some e =>
      u ← (if truthy (prop e "url") then Some (prop e "url")
           else JStr <$> normalizeUrl_val (prop newArticle "url"));
      Some (article u
              (js_or (js_or (prop newArticle "title") (prop e "title")) (JStr ""))
              (js_or (js_or (prop newArticle "publishedDate") (prop e "publishedDate"))
                     (JStr ""))
              (js_or (js_or (js_or (prop newArticle "dateText") (prop newArticle "publishedDate"))
                            (prop e "dateText"))
                     (JStr ""))
              (js_or (prop e "isRead") (JBool false))
              (js_or (prop e "readDate") JNull))
  end.

(** The time value of [new Date(v)], [None] for NaN. *)
Definition Date_value (v : jsval) : option Z :=
  match v with
  | JUndefined => None
  | JNull => Some 0
  | JBool b => Some (if b then 1 else 0)
  | JNum n => if (Z.abs n <=? 8640000000000000) then Some n else None
  | JStr s => Date_parse s
  | JOther r => Date_parse r
  end.

(** [a > b] on two dates: false when either time value is NaN. *)
Definition Date_gt (a b : option Z) : bool :=
  match a, b with
  | Some x, Some y => (y <? x)
  | _, _ => false
  end.

(** [mergeArticleDataForImport(existing, imported)] on objects; [None] is
    the [null] that skips the entry. *)
Definition mergeArticleDataForImport (existing imported : jsobj) : option jsobj :=
  let accepted :=
    article (prop imported "url")
      (js_or (prop imported "title") (prop existing "title"))
      (js_or (prop imported "publishedDate") (prop existing "publishedDate"))
      (js_or (prop imported "dateText") (prop existing "dateText"))
      (JBool true)
      (prop imported "readDate") in
  if negb (truthy (prop imported "isRead")) then None
  else if negb (truthy (prop existing "isRead")) then Some accepted
  else
    let importedDate :=
      if truthy (prop imported "readDate")
      then Some (Date_value (prop imported "readDate")) else None in
    let existingDate :=
      if truthy (prop existing "readDate")
      then Some (Date_value (prop existing "readDate")) else None in
    match importedDate with
    | None => None
    | Some i =>
        match existingDate with
        | None => Some accepted
        | Some e => if Date_gt i e then Some accepted else None
        end
    end.

(** [validateArticleStructure(article)] on an object. *)
Definition validateArticleStructure (a : jsobj) : bool :=
  truthy (prop a "url") && is_string (prop a "url")
  && (is_undefined (prop a "title") || is_string (prop a "title"))
  && (is_undefined (prop a "publishedDate") || is_string (prop a "publishedDate"))
  && (is_undefined (prop a "dateText") || is_string (prop a "dateText"))
  && (is_undefined (prop a "isRead") || is_boolean (prop a "isRead"))
  && (is_undefined (prop a "readDate")
      || bool_decide (prop a "readDate" = JNull)
      || is_string (prop a "readDate")).

(** *** storage.js: reading *)

(** [getStorageKey(url)] *)
Definition getStorageKey (url : string) : string :=
  if String.eqb url "" then ""
  else CONFIG.storage_prefix ++ normalizeUrl1 url.

(** [Storage.getArticle(url)] on a string. *)
Definition getArticle (url : string) : M (option jsobj) :=
  if negb (validateUrl (JStr url)) then mret None
  else
    let normalizedUrl := normalizeUrl1 url in
    let key := getStorageKey normalizedUrl in
    result ← chrome_storage_get (Some [key]);
    mret (result !! key).

(** [Storage.getAllArticles(false)]: the items whose key carries the article
    prefix, in the order in which the store lists its keys. The sorted
    listing is used by the popup statistics only. *)
Definition getAllArticles : M (list jsobj) :=
  all ← chrome_storage_get None;
  mret (snd <$> filter (fun kv => startsWith kv.1 CONFIG.storage_prefix) (map_to_list all)).

(** *** article-cache.js *)

(** The loop that fills the snapshot: [cache[article.url] = article] for
    every article with a truthy url. The snapshot is an object used as a map
    from urls; the names that every object inherits are no urls and are not
    among its keys. *)
Definition buildCache (articles : list jsobj) : gmap string jsobj :=
  fold_left
    (fun c a => if truthy (prop a "url") then <[toPropertyKey (prop a "url") := a]> c else c)
    articles ∅.

(** The module variables; a context that does not load the module has no
    such names. *)
Definition cacheVars : M cache_state :=
  fun w =>
    match cache w with
    | Some cs => (Ok cs, w)
    | None => (Thrown "ReferenceError", w)
    end.

Definition setCacheVars (cs : cache_state) : M unit :=
  fun w => (Ok tt, mkWorld (storage w) (Some cs) (clock w)).

(** [getArticlesCache()] *)
Definition getArticlesCache : M (gmap string jsobj) :=
  now ← Date_now;
  cs ← cacheVars;
  let reload : M (gmap string jsobj) :=
    try_catch
      (articles ← getAllArticles;
       let snapshot := buildCache articles in
       _ ← setCacheVars (mkCache (Some snapshot) now);
       mret snapshot)
      (fun error =>
         _ ← setCacheVars (mkCache (Some ∅) now);
         throw error) in
  match articlesCache cs with
  | None => reload
  | Some held =>
      if (CONFIG.cache_ttl <? now - cacheTimestamp cs) then reload else mret held
  end.

(** [getArticleFromCache(url)]: a read of the module variables. *)
Definition getArticleFromCache (url : string) (w : world) : option jsobj :=
  match cache w with
  | Some cs =>
      match articlesCache cs with
      | Some held => if String.eqb url "" then None else held !! normalizeUrl1 url
      | None => None
      end
  | None => None
  end.

(** [updateCacheArticle(url, article)]; [article] is an object or null. *)
Definition updateCacheArticle (url : string) (a : option jsobj) : M unit :=
  cs ← cacheVars;
  match articlesCache cs with
  | None => mret tt
  | Some held =>
      let normalizedUrl := normalizeUrl1 url in
      match a with
      | Some o => setCacheVars (mkCache (Some (<[normalizedUrl := o]> held)) (cacheTimestamp cs))
      | None => setCacheVars (mkCache (Some (delete normalizedUrl held)) (cacheTimestamp cs))
      end
  end.

(** The function that [invalidateCache()] schedules, run when its timer
    fires. *)
Definition invalidate_fired : M unit :=
  _ ← cacheVars;
  setCacheVars (mkCache None 0).

(** *** storage.js: the existing-articles map *)

(** The [Map] built from a listing. It is only ever asked with string keys,
    so an entry under a url that is not a string is never found and is left
    out. *)
Definition mapOfArticles (articles : list jsobj) : gmap string jsobj :=
  fold_left
    (fun m a =>
       match prop a "url" with
       | JStr s => if String.eqb s "" then m else <[s := a]> m
       | _ => m
       end)
    articles ∅.

(** [getExistingArticlesMap()] *)
Definition getExistingArticlesMap : M (gmap string jsobj) :=
  let fallback : M (gmap string jsobj) :=
    existingArticles ← getAllArticles;
    mret (mapOfArticles existingArticles) in
  fun w =>
    match cache w with
    | Some _ => try_catch getArticlesCache (fun _ => fallback) w
    | None => fallback w
    end.

(** *** storage.js: writing *)

(** [Storage.saveArticle(article)] on an object. *)
Definition saveArticle (a : jsobj) : M (option jsobj) :=
  if negb (truthy (prop a "url")) then mret None
  else if negb (validateArticleStructure a) then mret None
  else if negb (validateUrl (prop a "url")) then mret None
  else
    match prop a "url" with
    | JStr url =>
        let normalizedUrl := normalizeUrl1 url in
        let key := getStorageKey normalizedUrl in
        existing ← getArticle normalizedUrl;
        now ← Date_now;
        let '(isRead, readDate) := determineReadStatus now existing a in
        let articleData :=
          article (JStr normalizedUrl)
            (js_or (js_or (prop a "title") (and_prop existing "title")) (JStr ""))
            (js_or (js_or (prop a "publishedDate") (and_prop existing "publishedDate"))
                   (JStr ""))
            (js_or (js_or (js_or (prop a "dateText") (prop a "publishedDate"))
                          (and_prop existing "dateText"))
                   (JStr ""))
            isRead readDate in
        _ ← chrome_storage_set {[key := articleData]};
        mret (Some articleData)
    | _ => mret None
    end.

(** The loop of [saveArticles] that fills [data]; [None] when
    [mergeArticleState] throws. *)
Definition saveArticles_data (existingMap : gmap string jsobj) (articles : list jsobj)
  : option (gmap string jsobj) :=
  foldl
    (fun acc a =>
       data ← acc;
       if negb (truthy (prop a "url")) || negb (validateUrl (prop a "url")) then Some data
       else
         match prop a "url" with
         | JStr url =>
             let normalizedUrl := normalizeUrl1 url in
             let key := getStorageKey normalizedUrl in
             merged ← mergeArticleState (existingMap !! normalizedUrl) a;
             Some (<[key := merged]> data)
         | _ => Some data
         end)
    (Some ∅) articles.

(** [Storage.saveArticles(articles, existingArticlesMap)] on an array of
    objects. *)
Definition saveArticles (articles : list jsobj)
    (existingArticlesMap : option (gmap string jsobj)) : M unit :=
  match articles with
  | [] => mret tt
  | _ =>
      existingMap ←
        match existingArticlesMap with
        | Some m => mret m
        | None => getExistingArticlesMap
        end;
      match saveArticles_data existingMap articles with
      | None => throw "TypeError"
      | Some data =>
          if bool_decide (data = ∅) then mret tt else chrome_storage_set data
      end
  end.

(** The loop of [syncArticles] that collects [articlesToSave]. *)
Definition sync_pending (existingMap : gmap string jsobj) (newArticles : list jselem)
  : list jsobj :=
  omap
    (fun e =>
       match e with
       | Obj newArticle =>
           match prop newArticle "url" with
           | JStr url =>
               if negb (validateUrl (JStr url)) then None
               else
                 let normalizedUrl := normalizeUrl1 url in
                 if bool_decide (is_Some (existingMap !! normalizedUrl)) then None
                 else Some (<["url" := JStr normalizedUrl]> newArticle)
           | _ => None
           end
       | Prim _ => None
       end)
    newArticles.

(** [Storage.syncArticles(newArticles)] on an array. *)
Definition syncArticles (newArticles : list jselem) : M Z :=
  match newArticles with
  | [] => mret 0
  | _ =>
      existingMap ← getExistingArticlesMap;
      let articlesToSave := sync_pending existingMap newArticles in
      _ ← match articlesToSave with
          | [] => mret tt
          | _ => saveArticles articlesToSave (Some existingMap)
          end;
      mret (Z.of_nat (length articlesToSave))
  end.

(** [getOrCreateArticle(url, linkElement, articleElement)]. The two DOM
    elements are read for three strings only, which stand for them here:
    the trimmed link text, the time element's datetime (or text), and its
    text; each is empty when the element is missing. *)
Definition getOrCreateArticle (url title publishedDate dateText : string)
  : M (option jsobj) :=
  if negb (validateUrl (JStr url)) then mret None
  else
    let normalizedUrl := normalizeUrl1 url in
    found ← getArticle normalizedUrl;
    match found with
    | Some a => mret (Some a)
    | None =>
        saveArticle (article (JStr normalizedUrl) (JStr title) (JStr publishedDate)
                       (JStr dateText) (JBool false) JNull)
    end.

(** [Storage.markAsRead(url, linkElement, articleElement)] *)
Definition markAsRead (url title publishedDate dateText : string) : M (option jsobj) :=
  if negb (validateUrl (JStr url)) then mret None
  else
    found ← getOrCreateArticle url title publishedDate dateText;
    match found with
    | None => mret None
    | Some a =>
        now ← Date_now;
        saveArticle (<["readDate" := JStr (toISOString now)]> (<["isRead" := JBool true]> a))
    end.

(** [Storage.markAsUnread(url, linkElement, articleElement)] *)
Definition markAsUnread (url title publishedDate dateText : string) : M (option jsobj) :=
  if negb (validateUrl (JStr url)) then mret None
  else
    found ← getOrCreateArticle url title publishedDate dateText;
    match found with
    | None => mret None
    | Some a => saveArticle (<["readDate" := JNull]> (<["isRead" := JBool false]> a))
    end.

(** *** export-import.js *)

Inductive import_type : Type := imported_t | updated_t | skipped_t.

#[global] Instance import_type_eq_dec : EqDecision import_type.
Proof. solve_decision. Defined.

(** What [processImportBatch] returns. *)
Record import_result : Type := mkImportResult {
  articlesToSave : list jsobj;
  imported : Z;
  updated : Z;
  skipped : Z
}.

(** The entries that pass [validateArticle(article) && validateUrl(article.url)],
    each with its url. *)
Definition validArticles (articles : list jselem) : list (string * jsobj) :=
  omap
    (fun e =>
       match e with
       | Obj o =>
           match prop o "url" with
           | JStr url =>
               if validateArticle e && validateUrl (JStr url) then Some (url, o) else None
           | _ => None
           end
       | Prim _ => None
       end)
    articles.

(** The async callback that classifies one valid entry. *)
Definition import_one (entry : string * jsobj) : M (import_type * option jsobj) :=
  let '(url, a) := entry in
  existing ← getArticle url;
  match existing with
  | Some e =>
      match mergeArticleDataForImport e a with
      | Some merged => mret (updated_t, Some merged)
      | None => mret (skipped_t, None)
      end
  | None =>
      if negb (truthy (prop a "isRead")) then mret (skipped_t, None)
      else
        mret (imported_t,
              Some (article (prop a "url")
                      (js_or (prop a "title") (JStr ""))
                      (js_or (prop a "publishedDate") (JStr ""))
                      (js_or (js_or (prop a "dateText") (prop a "publishedDate")) (JStr ""))
                      (JBool true)
                      (js_or (prop a "readDate") JNull)))
  end.

Definition count_type (t : import_type) (results : list (import_type * option jsobj)) : Z :=
  Z.of_nat (length (filter (fun r => r.1 = t) results)).

(** [processImportBatch(importData)] on the [articles] array of an import
    object. *)
Definition processImportBatch (articles : list jselem) : M import_result :=
  let valid := validArticles articles in
  results ← Promise_all_map import_one valid;
  mret (mkImportResult
          (omap snd (filter (fun r => r.1 ≠ skipped_t) results))
          (count_type imported_t results)
          (count_type updated_t results)
          (Z.of_nat (length articles) - Z.of_nat (length valid)
           + count_type skipped_t results)).

(** [importDataFromFile(file)] from the parsed and validated import object
    on: process the batch, save what it accepted, report the counts. *)
Definition importDataFromFile (articles : list jselem) : M (Z * Z * Z) :=
  r ← processImportBatch articles;
  _ ← match articlesToSave r with
      | [] => mret tt
      | _ => saveArticles (articlesToSave r) None
      end;
  mret (imported r, updated r, skipped r).


(** ** Predicates of the statements *)


(** The articles that a listing of the store returns. *)
Definition storedArticles (st : chrome_storage) : list jsobj :=
  snd <$> filter (fun kv => startsWith kv.1 CONFIG.storage_prefix) (map_to_list (items st)).

(** The snapshot that [getArticlesCache] serves without a fetch: the held
    one, while its age is at most the TTL. *)
Definition servedSnapshot (w : world) : option (gmap string jsobj) :=
  match cache w with
  | Some cs =>
      match articlesCache cs with
      | Some held =>
          if (CONFIG.cache_ttl <? clock w - cacheTimestamp cs) then None else Some held
      | None => None
      end
  | None => None
  end.

(** Whether the url [k] is already tracked in the eyes of a sync started in
    [w]: the served snapshot holds it, or, without a served snapshot, the
    store holds an article with that url. *)
Definition tracked (w : world) (k : string) : bool :=
  match servedSnapshot w with
  | Some held => bool_decide (is_Some (held !! k))
  | None =>
      negb (String.eqb k "")
      && existsb (fun a => bool_decide (prop a "url" = JStr k)) (storedArticles (storage w))
  end.

Definition is_set (c : storage_call) : bool :=
  match c with StorageSet _ => true | StorageGet _ => false end.

(** The class of an import entry in the words of the specification:
    imported when it is valid, has no prior record and is accepted (it is
    marked read); updated when it is valid, has a prior record and the import
    merge accepts it; skipped otherwise (not an article, no usable url, or
    rejected). The prior record is the one stored under the key of the
    entry's url. *)
Definition spec_class (stored : gmap string jsobj) (e : jselem) : import_type :=
  match e with
  | Obj o =>
      match prop o "url" with
      | JStr url =>
          if validateUrl (JStr url) then
            match stored !! getStorageKey (normalizeUrl1 url) with
            | None => if truthy (prop o "isRead") then imported_t else skipped_t
            | Some prior =>
                match mergeArticleDataForImport prior o with
                | Some _ => updated_t
                | None => skipped_t
                end
            end
          else skipped_t
      | _ => skipped_t
      end
  | Prim _ => skipped_t
  end.

(** How many entries of a batch fall in a class. *)
Definition spec_count (stored : gmap string jsobj) (t : import_type)
    (articles : list jselem) : Z :=
  Z.of_nat (length (filter (fun e => spec_class stored e = t) articles)).

(** ** Sample data *)

Definition url_a : string := "https://lethain.com/a".
Definition key_a : string := "article_https://lethain.com/a".

(** A stored record of the article, unread. *)
Definition unread_a : jsobj :=
  article (JStr url_a) (JStr "A") (JStr "2024-01-01") (JStr "January 1, 2024")
    (JBool false) JNull.

(** A stored record of the article, read in May 2023. *)
Definition read_a : jsobj :=
  article (JStr url_a) (JStr "A") (JStr "2024-01-01") (JStr "January 1, 2024")
    (JBool true) (JStr "2023-05-05T00:00:00.000Z").

(** Two entries of an export for the article, read in January and in June
    2024. *)
Definition entry_jan : jsobj :=
  article (JStr url_a) (JStr "A") (JStr "2024-01-01") (JStr "January 1, 2024")
    (JBool true) (JStr "2024-01-01T00:00:00.000Z").

Definition entry_jun : jsobj :=
  article (JStr url_a) (JStr "A") (JStr "2024-01-01") (JStr "January 1, 2024")
    (JBool true) (JStr "2024-06-01T00:00:00.000Z").


(** An article that says it is read and carries no read date. *)
Definition read_undated : jsobj :=
  <["url" := JStr url_a]> (<["isRead" := JBool true]> ∅).

(** A draft of the article as the scraper builds it. *)
Definition draft_a : jsobj :=
  <["url" := JStr url_a]> (<["title" := JStr "New Title"]>
  (<["publishedDate" := JStr "2024-01-01"]> (<["dateText" := JStr "January 1, 2024"]> ∅))).

(** A store that answers. *)
Definition store_of (m : gmap string jsobj) : chrome_storage := mkStorage m None None [].

(** The popup: no cache module. *)
Definition popup (m : gmap string jsobj) (now : Z) : world :=
  mkWorld (store_of m) None now.

(** The page, with the cache module in the given state. *)
Definition page (m : gmap string jsobj) (cs : cache_state) (now : Z) : world :=
  mkWorld (store_of m) (Some cs) now.

(** The page while the store reports an error on reads. *)
Definition page_failing (m : gmap string jsobj) (cs : cache_state) (now : Z) : world :=
  mkWorld (mkStorage m (Some "storage unavailable") None []) (Some cs) now.

(** The state the store is in after a run. *)
Definition items_after {A : Type} (run : outcome A * world) : gmap string jsobj :=
  items (storage run.2).

(** One import after another, each into the store the previous one left. *)
Definition import_twice (first second : list jselem) (m : gmap string jsobj)
  : gmap string jsobj :=
  items_after
    (importDataFromFile second
       (popup (items_after (importDataFromFile first (popup m 0))) 0)).

(** The read state of a record. *)
Definition readState (a : jsobj) : jsval * jsval := (prop a "isRead", prop a "readDate").

(** The read state of a record as every merge reads it: [isRead || false]
    and [readDate || null]. *)
Definition readStateRead (a : jsobj) : jsval * jsval :=
  (js_or (prop a "isRead") (JBool false), js_or (prop a "readDate") JNull).

(** ** More of the program *)

(** *** export-import.js: the checked batch, the import of a document, the export *)

(** [processImportBatch(importData)] with the checks it makes on its
    argument. *)
Definition processImportBatch_checked (importData : import_doc) : M import_result :=
  match importData with
  | DocPrim _ => throw "processImportBatch: importData must be an object"
  | DocArray _ => throw "processImportBatch: importData.articles must be an array"
  | DocObject fields =>
      match fields !! "articles" with
      | Some (FArray articles) => processImportBatch articles
      | _ => throw "processImportBatch: importData.articles must be an array"
      end
  end.

(** [importDataFromFile(file)] from the document that [JSON.parse] returned
    on: validate, process the batch, save what it accepted, report the
    counts. *)
Definition importDataFromFile_parsed (importData : import_doc) : M (Z * Z * Z) :=
  let validation := validateImportData importData in
  if negb (valid validation) then
    throw (match error validation with
           | Some message => if String.eqb message "" then "Invalid import data" else message
           | None => "Invalid import data"
           end)
  else
    r ← processImportBatch_checked importData;
    _ ← match articlesToSave r with
        | [] => mret tt
        | _ => saveArticles (articlesToSave r) None
        end;
    mret (imported r, updated r, skipped r).

(** [getCurrentDateISO()] *)
Definition getCurrentDateISO : M string :=
  now ← Date_now;
  mret (toISOString now).

(** [createExportData(articles)] *)
Definition createExportData (articles : list jsobj) : M export_data :=
  exportDate ← getCurrentDateISO;
  mret (mkExportData CONFIG_export.version exportDate (Z.of_nat (length articles)) articles).

(** *** Timers, the resource manager and the cache invalidation
    (article-cache.js, resource-manager.js, page-injector.js) *)

(** The function of a pending timeout: the one that [invalidateCache]
    schedules, or a function of another module. *)
Inductive timer_callback : Type :=
  | TimeoutFn
  | Foreign (name : string).

#[global] Instance timer_callback_eq_dec : EqDecision timer_callback.
Proof. solve_decision. Defined.

(** A pending timeout of the window: its function, whether
    [ResourceManager.trackTimeout] wrapped it (the wrapper takes the id out
    of the manager's set, then calls the function), and the time from which
    it can fire. *)
Record timer : Type := mkTimer {
  timer_callback_of : timer_callback;
  via_manager : bool;
  due : Z
}.

(** The page context: the store, the cache variables and the clock; the
    other module variables of article-cache.js ([resourceManager] holds the
    page's manager or null); the events on which the fallback [cleanup]
    still listens; the manager's set [timeouts]; the pending timeouts of
    the window by id, and the id that the next [setTimeout] returns. *)
Record page_state : Type := mkPageSt {
  page_world : world;
  invalidateTimeout : option nat;
  resourceManager : bool;
  fallbackCleanupAttached : bool;
  cleanupListeners : list string;
  rm_timeouts : gset nat;
  timers : gmap nat timer;
  nextTimer : nat
}.

Definition set_world (w : world) (s : page_state) : page_state :=
  mkPageSt w (invalidateTimeout s) (resourceManager s) (fallbackCleanupAttached s)
    (cleanupListeners s) (rm_timeouts s) (timers s) (nextTimer s).

Definition set_invalidateTimeout (id : option nat) (s : page_state) : page_state :=
  mkPageSt (page_world s) id (resourceManager s) (fallbackCleanupAttached s)
    (cleanupListeners s) (rm_timeouts s) (timers s) (nextTimer s).

Definition set_rm_timeouts (ids : gset nat) (s : page_state) : page_state :=
  mkPageSt (page_world s) (invalidateTimeout s) (resourceManager s) (fallbackCleanupAttached s)
    (cleanupListeners s) ids (timers s) (nextTimer s).

Definition set_timers (m : gmap nat timer) (s : page_state) : page_state :=
  mkPageSt (page_world s) (invalidateTimeout s) (resourceManager s) (fallbackCleanupAttached s)
    (cleanupListeners s) (rm_timeouts s) m (nextTimer s).

(** [setTimeout(fn, delay)]; [wrapped] says that [fn] is the wrapper of
    [trackTimeout]. *)
Definition window_setTimeout (fn : timer_callback) (wrapped : bool) (delay : Z)
    (s : page_state) : nat * page_state :=
  let id := nextTimer s in
  (id, mkPageSt (page_world s) (invalidateTimeout s) (resourceManager s)
         (fallbackCleanupAttached s) (cleanupListeners s) (rm_timeouts s)
         (<[id := mkTimer fn wrapped (clock (page_world s) + delay)]> (timers s)) (S id)).

(** [clearTimeout(id)] *)
Definition window_clearTimeout (id : nat) (s : page_state) : page_state :=
  set_timers (delete id (timers s)) s.

(** [resourceManager.trackTimeout(callback, delay)] *)
Definition trackTimeout (callback : timer_callback) (delay : Z) (s : page_state)
  : nat * page_state :=
  let '(id, s1) := window_setTimeout callback true delay s in
  (id, set_rm_timeouts ({[id]} ∪ rm_timeouts s1) s1).

(** [resourceManager.clearTimeout(id)] for a number [id] *)
Definition rm_clearTimeout (id : nat) (s : page_state) : page_state :=
  if bool_decide (id ∈ rm_timeouts s) then
    let s1 := window_clearTimeout id s in
    set_rm_timeouts (rm_timeouts s1 ∖ {[id]}) s1
  else s.

(** [resourceManager.clearAllTimeouts()] *)
Definition clearAllTimeouts (s : page_state) : page_state :=
  set_rm_timeouts ∅
    (set_timers (filter (fun kv => kv.1 ∉ rm_timeouts s) (timers s)) s).

(** [timeoutFn] of [invalidateCache]. *)
Definition timeoutFn (s : page_state) : page_state :=
  set_invalidateTimeout None (set_world (invalidate_fired (page_world s)).2 s).

(** [invalidateCache()] *)
Definition invalidateCache (s : page_state) : page_state :=
  let s1 :=
    match invalidateTimeout s with
    | Some id =>
        set_invalidateTimeout None
          (if resourceManager s then rm_clearTimeout id s else window_clearTimeout id s)
    | None => s
    end in
  if resourceManager s1 then
    let '(id, s2) := trackTimeout TimeoutFn CONFIG_timeouts.cacheInvalidation s1 in
    set_invalidateTimeout (Some id) s2
  else
    let '(id, s2) := window_setTimeout TimeoutFn false CONFIG_timeouts.cacheInvalidation s1 in
    let s3 := set_invalidateTimeout (Some id) s2 in
    if fallbackCleanupAttached s3 then s3
    else
      mkPageSt (page_world s3) (invalidateTimeout s3) (resourceManager s3) true
        ("beforeunload" :: "pagehide" :: cleanupListeners s3)
        (rm_timeouts s3) (timers s3) (nextTimer s3).

(** The timeout [id] fires: the window drops it and calls its function. *)
Definition fire (id : nat) (s : page_state) : page_state :=
  match timers s !! id with
  | None => s
  | Some t =>
      let s1 := set_timers (delete id (timers s)) s in
      let s2 := if via_manager t then set_rm_timeouts (rm_timeouts s1 ∖ {[id]}) s1 else s1 in
      match timer_callback_of t with
      | TimeoutFn => timeoutFn s2
      | Foreign _ => s2
      end
  end.

(** The fallback [cleanup] of [invalidateCache], and the window event that
    runs it: a listener added with [once] is gone after its call. *)
Definition fallback_cleanup (s : page_state) : page_state :=
  match invalidateTimeout s with
  | Some id => set_invalidateTimeout None (window_clearTimeout id s)
  | None => s
  end.

Definition window_event (event : string) (s : page_state) : page_state :=
  if bool_decide (event ∈ cleanupListeners s) then
    let s1 := fallback_cleanup s in
    mkPageSt (page_world s1) (invalidateTimeout s1) (resourceManager s1)
      (fallbackCleanupAttached s1)
      (filter (fun e => e <> event) (cleanupListeners s1))
      (rm_timeouts s1) (timers s1) (nextTimer s1)
  else s.

(** [cleanup()] of page-injector.js, as far as timers and the cache go:
    [resourceManager.cleanup()] clears every tracked timeout (its observers,
    listeners and abort controller are not part of this state), then the
    cache is invalidated. *)
Definition page_cleanup (s : page_state) : page_state :=
  invalidateCache (clearAllTimeouts s).

(** What can happen on the page, one event at a time. The cache module's
    manager is set once, before the first event. *)
Inductive page_step : page_state -> page_state -> Prop :=
  | step_invalidateCache s : page_step s (invalidateCache s)
  | step_fire s id t :
      timers s !! id = Some t -> due t <= clock (page_world s) -> page_step s (fire id s)
  | step_trackTimeout s name delay : page_step s (trackTimeout (Foreign name) delay s).2
  | step_setTimeout s name delay :
      page_step s (window_setTimeout (Foreign name) false delay s).2
  | step_rm_clearTimeout s id : page_step s (rm_clearTimeout id s)
  | step_clearAllTimeouts s : page_step s (clearAllTimeouts s)
  | step_page_cleanup s : page_step s (page_cleanup s)
  | step_window_event s event : page_step s (window_event event s)
  | step_world s w : page_step s (set_world w s).

(** The page after the scripts are loaded: no timeout of the cache module,
    the manager given or not. *)
Definition page_start (manager : bool) (w : world) : page_state :=
  mkPageSt w None manager false [] ∅ ∅ 1.

(** The first half of [invalidateCache]: the pending invalidation is
    cleared. *)
Definition invalidateCache_cleared (s : page_state) : page_state :=
  match invalidateTimeout s with
  | Some id =>
      set_invalidateTimeout None
        (if resourceManager s then rm_clearTimeout id s else window_clearTimeout id s)
  | None => s
  end.

(** What every reachable page satisfies: a pending timeout that clears the
    cache is the one that [invalidateTimeout] names and is scheduled the way
    the module schedules it, and the manager's set holds every pending
    timeout that the manager wrapped. *)
Definition timers_inv (s : page_state) : Prop :=
  (forall id t, timers s !! id = Some t -> timer_callback_of t = TimeoutFn ->
     invalidateTimeout s = Some id /\ via_manager t = resourceManager s)
  /\ (forall id t, timers s !! id = Some t -> via_manager t = true -> id ∈ rm_timeouts s).

(** No timeout that clears the cache is pending. *)
Definition no_invalidation (s : page_state) : Prop :=
  forall id t, timers s !! id = Some t -> timer_callback_of t <> TimeoutFn.

(** The state after a timeout fired, before its function runs. *)
Definition fired_state (id : nat) (t : timer) (s : page_state) : page_state :=
  mkPageSt (page_world s) (invalidateTimeout s) (resourceManager s)
    (fallbackCleanupAttached s) (cleanupListeners s)
    (if via_manager t then rm_timeouts s ∖ {[id]} else rm_timeouts s)
    (delete id (timers s)) (nextTimer s).

(** A computation that leaves the cache variables and the clock alone. *)
Definition keeps_context {A : Type} (m : M A) : Prop :=
  forall w, cache (m w).2 = cache w /\ clock (m w).2 = clock w.

(** The pending timeouts that clear the cache. *)
Definition pending_invalidations (s : page_state) : list (nat * timer) :=
  filter (fun kv => timer_callback_of kv.2 = TimeoutFn) (map_to_list (timers s)).

(** [handleArticleStatusChange(url, isChecked, pageStorage, invalidateCache)];
    the three strings stand for the two elements that [pageStorage] holds,
    as in [getOrCreateArticle]. The cache function is defined in a context
    that loads the cache module. *)
Definition handleArticleStatusChange (url : string) (isChecked : bool)
    (title publishedDate dateText : string) (s : page_state) : option jsobj * page_state :=
  let run :=
    if isChecked then markAsRead url title publishedDate dateText
    else markAsUnread url title publishedDate dateText in
  match run (page_world s) with
  | (Ok (Some updatedArticle), w1) =>
      match cache w1 with
      | Some _ =>
          (Some updatedArticle,
           set_world (updateCacheArticle url (Some updatedArticle) w1).2 (set_world w1 s))
      | None => (Some updatedArticle, invalidateCache (set_world w1 s))
      end
  | (Ok None, w1) => (None, invalidateCache (set_world w1 s))
  | (Thrown _, w1) => (None, invalidateCache (set_world w1 s))
  end.

(** *** The article elements of the page (article-extractor.js,
    filter-manager.js) *)

(** An anchor as the code reads it: the property [href], the attribute
    [href] (null when there is none) and the text. *)
Record anchor : Type := mkAnchor {
  href : string;
  href_attribute : option string;
  link_text : string
}.

(** A time element: the attribute [datetime] and the text. *)
Record time_element : Type := mkTimeElement {
  datetime : option string;
  time_text : string
}.

(** An article element: what [querySelector] returns in it for the four
    selectors of the configuration, its text, and whether its class list
    holds [lethain-article-hidden]. *)
Record article_element : Type := mkArticleElement {
  select_link : option anchor;
  select_linkFallback : option anchor;
  select_time : option time_element;
  select_timeFallback : option time_element;
  textContent : string;
  hidden : bool
}.

(** [querySelectorWithFallback(element, primary, fallback)], on the results
    of the two queries. *)
Definition querySelectorWithFallback {A : Type} (primary fallback : option A) : option A :=
  match primary with
  | Some found => Some found
  | None => fallback
  end.

(** [extractLink(articleElement)] *)
Definition extractLink (articleElement : article_element) : option anchor :=
  querySelectorWithFallback (select_link articleElement) (select_linkFallback articleElement).

(** [extractTime(articleElement)] *)
Definition extractTime (articleElement : article_element) : option time_element :=
  querySelectorWithFallback (select_time articleElement) (select_timeFallback articleElement).

(** [link.href || link.getAttribute('href')] *)
Definition link_url (link : anchor) : option string :=
  if String.eqb (href link) "" then href_attribute link else Some (href link).

(** The classes [\w] and [\d] on ASCII text; [\s] is [is_ws]. *)
Definition is_word (a : ascii) : bool :=
  is_alpha a || is_digit a || (nat_of_ascii a =? 95)%nat.

(** The longest prefix of [s] within a class, and what follows it. *)
Fixpoint span (f : ascii -> bool) (s : string) : string * string :=
  match s with
  | EmptyString => ("", "")
  | String a s' =>
      if f a then let '(p, r) := span f s' in (String a p, r) else ("", s)
  end.

(** A match of [\w+\s+\d{1,2},\s+\d{4}] at the start of [s]. Neighbouring
    parts of the expression have disjoint classes, so a part can only end
    where its class ends: each takes its longest run, and no backtracking
    finds another match. *)
Definition match_date_here (s : string) : option string :=
  let '(word, r1) := span is_word s in
  let '(gap1, r2) := span is_ws r1 in
  let '(day, r3) := span is_digit r2 in
  match r3 with
  | String "," r4 =>
      let '(gap2, r5) := span is_ws r4 in
      match r5 with
      | String y1 (String y2 (String y3 (String y4 _))) =>
          if negb (String.eqb word "") && negb (String.eqb gap1 "")
             && (1 <=? String.length day)%nat && (String.length day <=? 2)%nat
             && negb (String.eqb gap2 "")
             && is_digit y1 && is_digit y2 && is_digit y3 && is_digit y4
          then Some (word ++ gap1 ++ day ++ "," ++ gap2
                     ++ String y1 (String y2 (String y3 (String y4 ""))))
          else None
      | _ => None
      end
  | _ => None
  end.

(** [extractDateFromText(text)]: the first group, which is the whole match,
    of the first position at which the expression matches. *)
Fixpoint extractDateFromText (text : string) : option string :=
  match match_date_here text with
  | Some dateMatch => Some dateMatch
  | None =>
      match text with
      | EmptyString => None
      | String _ rest => extractDateFromText rest
      end
  end.

(** A string, or null. *)
Definition js_string_or_null (o : option string) : jsval :=
  match o with
  | Some s => JStr s
  | None => JNull
  end.

(** The object literal [{url, title, publishedDate, dateText}]. *)
Definition scraped (u t p d : jsval) : jsobj :=
  <["url" := u]> (<["title" := t]> (<["publishedDate" := p]> (<["dateText" := d]> ∅))).

(** [extractArticleFromElement(articleElement)] *)
Definition extractArticleFromElement (articleElement : article_element) : option jsobj :=
  match extractLink articleElement with
  | None => None
  | Some link =>
      let url := link_url link in
      let title := trim (link_text link) in
      match url with
      | None => None
      | Some url =>
          if String.eqb url "" || String.eqb title "" then None
          else if negb (validateUrl (JStr url)) then None
          else
            let '(datetime, dateText) :=
              match extractTime articleElement with
              | Some time => (datetime time, Some (trim (time_text time)))
              | None => (None, extractDateFromText (textContent articleElement))
              end in
            Some (scraped (JStr url) (JStr title)
                    (js_or (js_or (js_string_or_null datetime) (js_string_or_null dateText))
                           (JStr ""))
                    (js_or (js_string_or_null dateText) (JStr "")))
      end
  end.

(** [extractArticles()] on the elements that [findArticleElements] found. *)
Definition extractArticles (articleElements : list article_element) : list jsobj :=
  omap extractArticleFromElement articleElements.

(** The strings that [getOrCreateArticle] reads from the link and the
    article element that [createPageStorage] holds. *)
Definition created_title (link : anchor) : string := trim (link_text link).

Definition created_publishedDate (articleElement : article_element) : string :=
  match select_time articleElement with
  | Some time =>
      match datetime time with
      | Some d => if String.eqb d "" then trim (time_text time) else d
      | None => trim (time_text time)
      end
  | None => ""
  end.

Definition created_dateText (articleElement : article_element) : string :=
  match select_time articleElement with
  | Some time => trim (time_text time)
  | None => ""
  end.

(** [classList.toggle('lethain-article-hidden', force)], which also stands
    for [add] and [remove]. *)
Definition set_hidden (force : bool) (el : article_element) : article_element :=
  mkArticleElement (select_link el) (select_linkFallback el) (select_time el)
    (select_timeFallback el) (textContent el) force.

(** The body of the loop of [filterByReadStatus]. *)
Definition filter_element (currentFilter : jsval) (w : world) (articleEl : article_element)
  : article_element :=
  let filterRead := bool_decide (currentFilter = JStr CONFIG_filters.read) in
  let filterUnread := bool_decide (currentFilter = JStr CONFIG_filters.unread) in
  match extractLink articleEl with
  | None => set_hidden true articleEl
  | Some link =>
      match link_url link with
      | None => set_hidden true articleEl
      | Some url =>
          if String.eqb url "" || negb (validateUrl (JStr url)) then set_hidden true articleEl
          else
            let isRead :=
              js_or (match getArticleFromCache url w with
                     | Some a => prop a "isRead"
                     | None => JUndefined
                     end) (JBool false) in
            let shouldShow :=
              if filterRead then truthy isRead
              else if filterUnread then negb (truthy isRead)
              else true in
            set_hidden (negb shouldShow) articleEl
      end
  end.

(** [filterByReadStatus(articleElements, articles, currentFilter)];
    [articles] is the object that [getArticlesCache] returned, and the
    lookups go to the cache variables of [w]. The result is the list of
    elements with their classes as the call leaves them. *)
Definition filterByReadStatus (articleElements : list article_element)
    (articles : gmap string jsobj) (currentFilter : jsval) (w : world)
  : list article_element :=
  if bool_decide (articles = ∅) then articleElements
  else filter_element currentFilter w <$> articleElements.

(** A read of the module variables. *)
Definition read_world {A : Type} (f : world -> A) : M A := fun w => (Ok (f w), w).

(** [showAllArticles(articleElements, articleContainer)], the classes of
    the elements. *)
Definition showAllArticles (articleElements : list article_element)
  : list article_element :=
  set_hidden false <$> articleElements.

(** [applyFilter(currentFilter, getArticlesCache)] on the elements that
    [findArticleElements] found; the width of the container is left out.
    When the cache getter throws, no class has been changed. *)
Definition applyFilter (currentFilter : jsval) (articleElements : list article_element)
  : M (list article_element) :=
  match articleElements with
  | [] => mret []
  | _ =>
      if bool_decide (currentFilter = JStr CONFIG_filters.all)
      then mret (showAllArticles articleElements)
      else
        articles ← getArticlesCache;
        read_world (filterByReadStatus articleElements articles currentFilter)
  end.

(** What does not start within a class: the end of a run. *)
Definition run_ends (f : ascii -> bool) (r : string) : Prop :=
  match r with
  | EmptyString => True
  | String a _ => f a = false
  end.

(** The strings that the date expression matches. *)
Definition date_shaped (m : string) : Prop :=
  exists word gap1 day gap2 year,
    m = word ++ gap1 ++ day ++ "," ++ gap2 ++ year
    /\ word <> "" /\ all_chars is_word word = true
    /\ gap1 <> "" /\ all_chars is_ws gap1 = true
    /\ (1 <= String.length day <= 2)%nat /\ all_chars is_digit day = true
    /\ gap2 <> "" /\ all_chars is_ws gap2 = true
    /\ String.length year = 4%nat /\ all_chars is_digit year = true.

(** ** Predicates of the further statements *)

(** The record that stands for an article after an import entry met the
    stored one: the merged record, or the stored one when the entry is
    skipped. *)
Definition import_kept (existing imported : jsobj) : jsobj :=
  default existing (mergeArticleDataForImport existing imported).

(** A store in which every article sits under the key of its url: an item
    whose key carries the article prefix has a non-empty string for a url,
    and its key is the prefix followed by that url. *)
Definition wellKeyed (m : gmap string jsobj) : Prop :=
  forall k a, m !! k = Some a -> startsWith k CONFIG.storage_prefix = true ->
    exists x, x <> "" /\ prop a "url" = JStr x /\ k = CONFIG.storage_prefix ++ x.

(** The string that [normalizeUrl] works on after the first step: the href
    that the URL constructor gives for the trimmed input, or the trimmed
    input itself when the constructor throws. *)
Definition resolved (url baseUrl : string) : string :=
  default (trim url) (URL_href (trim url) baseUrl).

(** The body of the loop of [saveArticles], by name. *)
Definition saveArticles_step (existingMap : gmap string jsobj)
    (acc : option (gmap string jsobj)) (a : jsobj) : option (gmap string jsobj) :=
  data ← acc;
  if negb (truthy (prop a "url")) || negb (validateUrl (prop a "url")) then Some data
  else
    match prop a "url" with
    | JStr url =>
        let normalizedUrl := normalizeUrl1 url in
        let key := getStorageKey normalizedUrl in
        merged ← mergeArticleState (existingMap !! normalizedUrl) a;
        Some (<[key := merged]> data)
    | _ => Some data
    end.

(** The drafts of a sync that count: objects whose url is a valid
    string. *)
Definition validDraft (drafts : list jselem) (d : jsobj) (u : string) : Prop :=
  Obj d ∈ drafts /\ prop d "url" = JStr u /\ validateUrl (JStr u) = true.

(** A value that is a string whenever it is truthy, and one that is a
    boolean whenever it is truthy: what an optional field of a validated
    article is. *)
Definition stringy (v : jsval) : Prop := truthy v = true -> is_string v = true.

Definition booly (v : jsval) : Prop := truthy v = true -> is_boolean v = true.

(** Every item of the store passes [validateArticleStructure]. *)
Definition wellStructured (m : gmap string jsobj) : Prop :=
  forall k e, m !! k = Some e -> validateArticleStructure e = true.

(** The articles array of an import document that passes the validation. *)
Definition articles_of (importData : import_doc) : option (list jselem) :=
  match importData with
  | DocObject fields =>
      match fields !! "articles" with
      | Some (FArray articles) => Some articles
      | _ => None
      end
  | _ => None
  end.

(** A record as the save paths of the extension leave it in the store,
    under its key [k]: the six fields, with strings for url, title,
    publication date and date text, a boolean for [isRead] and null or a
    non-empty string for [readDate]; the url is valid and in normal form,
    the key is the prefix followed by the url, and the date text is empty
    only if the publication date is. *)
Definition storedForm (k : string) (a : jsobj) : Prop :=
  exists n t p d b rd,
    a = article (JStr n) (JStr t) (JStr p) (JStr d) (JBool b) rd
    /\ k = CONFIG.storage_prefix ++ n
    /\ validateUrl (JStr n) = true
    /\ normalizeUrl1 n = n
    /\ (d = "" -> p = "")
    /\ (rd = JNull \/ exists s, s <> "" /\ rd = JStr s).

(** The result that the import gives an entry when the store is empty. *)
Definition import_fresh (a : jsobj) : import_type * option jsobj :=
  if decide (prop a "isRead" = JBool true) then (imported_t, Some a) else (skipped_t, None).

(** ** Further sample data *)

Definition url_b : string := "https://lethain.com/b".
Definition key_b : string := "article_https://lethain.com/b".

(** A stored record of a second article, unread. *)
Definition unread_b : jsobj :=
  article (JStr url_b) (JStr "B") (JStr "2024-02-02") (JStr "February 2, 2024")
    (JBool false) JNull.

(** A draft of the second article as the scraper builds it. *)
Definition draft_b : jsobj :=
  <["url" := JStr url_b]> (<["title" := JStr "B"]>
  (<["publishedDate" := JStr "2024-02-02"]> (<["dateText" := JStr "February 2, 2024"]> ∅))).

(** An import entry for the first article whose title is a number. *)
Definition entry_numbered : jsobj :=
  <["url" := JStr url_a]> (<["title" := JNum 5]> (<["isRead" := JBool true]>
  (<["readDate" := JStr "2024-01-01T00:00:00.000Z"]> ∅))).

(** A store with the first article read and the second unread. *)
Definition store_ab : gmap string jsobj := <[key_a := read_a]> {[key_b := unread_b]}.

(** The element of the first article on the page, with its link and its
    time element. *)
Definition element_a : article_element :=
  mkArticleElement (Some (mkAnchor url_a (Some "/a") " A ")) None
    (Some (mkTimeElement (Some "2024-01-01") "January 1, 2024")) None
    " A January 1, 2024" false.

(** The page with the first article stored unread and a snapshot of the
    store taken at the present time, the manager given. *)
Definition page_a : page_state :=
  page_start true
    (page {[key_a := unread_a]} (mkCache (Some {[url_a := unread_a]}) 1717200000000)
       1717200000000).

(** ** The read-state invariant of the store *)





(** ** Strings: suffixes and slicing *)

Lemma endsWith_refl s : endsWith s s = true.
Proof. destruct s; cbn [endsWith]; rewrite String.eqb_refl; reflexivity. Qed.

Lemma endsWith_cons a s suf : endsWith s suf = true -> endsWith (String a s) suf = true.
Proof. intros H. cbn [endsWith]. rewrite H. apply orb_true_r. Qed.

Lemma append_cons a s t : String a s ++ t = String a (s ++ t).
Proof. reflexivity. Qed.

Lemma endsWith_app s suf : endsWith (s ++ suf) suf = true.
Proof.
  induction s as [|a s IH].
  - apply endsWith_refl.
  - rewrite append_cons. apply endsWith_cons, IH.
Qed.

Lemma slice_app_char s a : slice_0_m1 (s ++ String a "") = s.
Proof.
  induction s as [|b s IH]; [reflexivity|].
  rewrite append_cons. cbn [slice_0_m1].
  destruct (s ++ String a "") eqn:E.
  - destruct s; discriminate.
  - f_equal. exact IH.
Qed.

Lemma endsWith_char_inv s a :
  endsWith s (String a "") = true -> s = slice_0_m1 s ++ String a "".
Proof.
  induction s as [|b s IH]; cbn [endsWith]; [discriminate|].
  intros H. apply orb_true_iff in H as [H|H].
  - apply String.eqb_eq in H. injection H as -> ->. reflexivity.
  - destruct s as [|c s']; [cbn in H; discriminate|].
    change (slice_0_m1 (String b (String c s'))) with (String b (slice_0_m1 (String c s'))).
    rewrite append_cons. f_equal. apply IH, H.
Qed.

Lemma endsWith_slash_app r :
  endsWith r "/" = true -> endsWith (r ++ "/") "//" = true.
Proof.
  induction r as [|b r IH]; cbn [endsWith]; [discriminate|].
  intros H. apply orb_true_iff in H as [H|H].
  - apply String.eqb_eq in H. injection H as -> ->. reflexivity.
  - rewrite append_cons. apply endsWith_cons, IH, H.
Qed.

Lemma slice_not_slash h :
  endsWith h "/" = true -> endsWith h "//" = false ->
  endsWith (slice_0_m1 h) "/" = false.
Proof.
  intros H1 H2. apply endsWith_char_inv in H1.
  destruct (endsWith (slice_0_m1 h) "/") eqn:E; [|reflexivity].
  apply endsWith_slash_app in E. rewrite <- H1 in E. congruence.
Qed.

(** ** normalizeUrl *)

(** The result when the constructor accepts the trimmed input. *)
Lemma normalizeUrl_href u base h :
  u <> "" -> URL_href (trim u) base = Some h ->
  normalizeUrl u base =
    if endsWith h "/" && negb (String.eqb h (base ++ "/")) then slice_0_m1 h else h.
Proof.
  intros Hu Hh. unfold normalizeUrl.
  destruct (String.eqb_spec u "") as [->|_]; [contradiction|].
  rewrite Hh. reflexivity.
Qed.

(** A second normalisation changes nothing when the href of the input does
    not end in two slashes and the constructor reads the href, and the href
    without its final slash, back as themselves. *)
Lemma normalizeUrl_idempotent_core u base h :
  URL_href (trim u) base = Some h ->
  trim h = h ->
  trim (slice_0_m1 h) = slice_0_m1 h ->
  URL_href h base = Some h ->
  (URL_href (slice_0_m1 h) base = Some (slice_0_m1 h)
   \/ URL_href (slice_0_m1 h) base = Some h) ->
  endsWith h "//" = false ->
  normalizeUrl (normalizeUrl u base) base = normalizeUrl u base.
Proof.
  intros Hh Ht Hts Hrt Hsl Hdd.
  destruct (String.eqb_spec u "") as [->|Hu]; [reflexivity|].
  rewrite (normalizeUrl_href u base h Hu Hh).
  destruct (endsWith h "/" && negb (String.eqb h (base ++ "/"))) eqn:Hc.
  - apply andb_true_iff in Hc as [Hs Hb].
    destruct (String.eqb_spec (slice_0_m1 h) "") as [E|Hne].
    + rewrite E. reflexivity.
    + destruct Hsl as [Hsl|Hsl].
      * rewrite (normalizeUrl_href _ base (slice_0_m1 h) Hne); [|now rewrite Hts].
        now rewrite (slice_not_slash h Hs Hdd).
      * rewrite (normalizeUrl_href _ base h Hne); [|now rewrite Hts].
        now rewrite Hs, Hb.
  - destruct (String.eqb_spec h "") as [E|Hne].
    + rewrite E. reflexivity.
    + rewrite (normalizeUrl_href _ base h Hne); [|now rewrite Ht].
      now rewrite Hc.
Qed.

(** ** Objects *)

Lemma prop_article u t p d r rd :
  prop (article u t p d r rd) "url" = u
  /\ prop (article u t p d r rd) "title" = t
  /\ prop (article u t p d r rd) "publishedDate" = p
  /\ prop (article u t p d r rd) "dateText" = d
  /\ prop (article u t p d r rd) "isRead" = r
  /\ prop (article u t p d r rd) "readDate" = rd.
Proof. repeat split; reflexivity. Qed.

Lemma js_or_truthy a b : truthy a = true -> js_or a b = a.
Proof. unfold js_or. now intros ->. Qed.

Lemma validateUrl_truthy u : validateUrl (JStr u) = true -> truthy (JStr u) = true.
Proof. cbn. intros H. now apply andb_true_iff in H as [H _]. Qed.

Lemma validateUrl_nonempty u : validateUrl (JStr u) = true -> u <> "".
Proof.
  intros H ->. discriminate H.
Qed.

(** ** The merge resolver *)

(** A merge against an existing record takes the read state from it. *)
Lemma mergeArticleState_existing e newArticle r :
  mergeArticleState (Some e) newArticle = Some r ->
  prop r "isRead" = js_or (prop e "isRead") (JBool false)
  /\ prop r "readDate" = js_or (prop e "readDate") JNull.
Proof.
  unfold mergeArticleState.
  destruct (if truthy (prop e "url") then _ else _) as [u|]; [|discriminate].
  cbn. intros [= <-]. split; reflexivity.
Qed.

(** C4. Read-state monotonicity under sync: merging any draft into an
    existing record that is read (a record of the store: it has a url, and
    its read date is a time stamp or null) produces a record that is read,
    with the read date of the existing record. *)
Theorem mergeArticleState_keeps_read (existing draft : jsobj) :
  prop existing "isRead" = JBool true ->
  truthy (prop existing "url") = true ->
  (prop existing "readDate" = JNull \/ truthy (prop existing "readDate") = true) ->
  exists r,
    mergeArticleState (Some existing) draft = Some r
    /\ prop r "isRead" = JBool true
    /\ prop r "readDate" = prop existing "readDate".
Proof.
  intros Hread Hurl Hdate.
  destruct (mergeArticleState (Some existing) draft) as [r|] eqn:E.
  - exists r. split; [reflexivity|].
    destruct (mergeArticleState_existing _ _ _ E) as [-> ->].
    rewrite Hread. split; [reflexivity|].
    destruct Hdate as [->| Ht]; [reflexivity|now apply js_or_truthy].
  - unfold mergeArticleState in E. rewrite Hurl in E. discriminate.
Qed.



(** ** The store adapter *)

Ltac run := unfold mbind, M_bind, mret, M_ret, throw, try_catch; cbn.

Lemma getAllArticles_ok w :
  getError (storage w) = None ->
  getAllArticles w =
    (Ok (storedArticles (storage w)),
     mkWorld (log_call (StorageGet None) (storage w)) (cache w) (clock w)).
Proof.
  intros H. unfold getAllArticles, chrome_storage_get. run. rewrite H. reflexivity.
Qed.

Lemma getAllArticles_fail w message :
  getError (storage w) = Some message ->
  getAllArticles w =
    (Thrown message,
     mkWorld (log_call (StorageGet None) (storage w)) (cache w) (clock w)).
Proof.
  intros H. unfold getAllArticles, chrome_storage_get. run. rewrite H. reflexivity.
Qed.

(** ** The read cache *)

Lemma servedSnapshot_Some w held :
  servedSnapshot w = Some held ->
  exists cs, cache w = Some cs /\ articlesCache cs = Some held
             /\ (CONFIG.cache_ttl <? clock w - cacheTimestamp cs) = false.
Proof.
  unfold servedSnapshot. destruct (cache w) as [cs|]; [|discriminate].
  destruct (articlesCache cs) as [h|] eqn:Eh; [|discriminate].
  destruct (CONFIG.cache_ttl <? clock w - cacheTimestamp cs) eqn:E; [discriminate|].
  intros [= <-]. exists cs. repeat split; assumption.
Qed.

(** A snapshot that is held and not older than the TTL is returned as it
    is; the browser state does not change. *)
Lemma getArticlesCache_served w held :
  servedSnapshot w = Some held -> getArticlesCache w = (Ok held, w).
Proof.
  intros H. apply servedSnapshot_Some in H as (cs & Hc & Hh & Hage).
  unfold getArticlesCache, Date_now, cacheVars. run.
  rewrite Hc. cbn. rewrite Hh, Hage. reflexivity.
Qed.

(** Without such a snapshot the store is listed and the snapshot rebuilt. *)
Lemma getArticlesCache_reload w cs :
  cache w = Some cs -> servedSnapshot w = None ->
  getError (storage w) = None ->
  getArticlesCache w =
    (Ok (buildCache (storedArticles (storage w))),
     mkWorld (log_call (StorageGet None) (storage w))
             (Some (mkCache (Some (buildCache (storedArticles (storage w)))) (clock w)))
             (clock w)).
Proof.
  intros Hc Hs He. unfold servedSnapshot in Hs. rewrite Hc in Hs.
  unfold getArticlesCache, Date_now, cacheVars. run. rewrite Hc. cbn.
  destruct (articlesCache cs) as [held|].
  - destruct (CONFIG.cache_ttl <? clock w - cacheTimestamp cs); [|discriminate].
    rewrite (getAllArticles_ok w He). reflexivity.
  - rewrite (getAllArticles_ok w He). reflexivity.
Qed.

(** When the listing fails the cache is left as an empty mapping stamped
    with the time of the call, and the error is thrown on. *)
Lemma getArticlesCache_reload_fail w cs message :
  cache w = Some cs -> servedSnapshot w = None ->
  getError (storage w) = Some message ->
  getArticlesCache w =
    (Thrown message,
     mkWorld (log_call (StorageGet None) (storage w))
             (Some (mkCache (Some ∅) (clock w))) (clock w)).
Proof.
  intros Hc Hs He. unfold servedSnapshot in Hs. rewrite Hc in Hs.
  unfold getArticlesCache, Date_now, cacheVars. run. rewrite Hc. cbn.
  destruct (articlesCache cs) as [held|].
  - destruct (CONFIG.cache_ttl <? clock w - cacheTimestamp cs); [|discriminate].
    rewrite (getAllArticles_fail w message He). reflexivity.
  - rewrite (getAllArticles_fail w message He). reflexivity.
Qed.

(** At the age of exactly the TTL the snapshot is still served: the test is
    [age > ttl]. *)
Lemma getArticlesCache_at_ttl (st : chrome_storage) (held : gmap string jsobj) (stamp : Z) :
  let w := mkWorld st (Some (mkCache (Some held) stamp)) (stamp + CONFIG.cache_ttl) in
  getArticlesCache w = (Ok held, w).
Proof.
  intros w. apply getArticlesCache_served. unfold servedSnapshot, w. cbn.
  replace (stamp + CONFIG.cache_ttl - stamp) with CONFIG.cache_ttl by lia.
  reflexivity.
Qed.

(** Once the invalidation timer has fired no snapshot is held, and the next
    get lists the store. *)
Lemma getArticlesCache_after_invalidation (w : world) (cs : cache_state) :
  cache w = Some cs ->
  exists w1,
    invalidate_fired w = (Ok tt, w1)
    /\ servedSnapshot w1 = None
    /\ calls (storage (snd (getArticlesCache w1))) = StorageGet None :: calls (storage w).
Proof.
  intros Hc. unfold invalidate_fired, cacheVars. run. rewrite Hc. cbn.
  eexists. split; [reflexivity|]. split; [reflexivity|].
  destruct (getError (storage w)) as [message|] eqn:He.
  - erewrite getArticlesCache_reload_fail; [reflexivity|reflexivity|reflexivity|exact He].
  - erewrite getArticlesCache_reload; [reflexivity|reflexivity|reflexivity|exact He].
Qed.

(** C10. A patch before the first snapshot is a no-op: while no snapshot is
    held, [updateCacheArticle] returns with the browser state unchanged, and
    a point lookup of any url still answers null. *)
Theorem updateCacheArticle_without_snapshot (st : chrome_storage) (stamp now : Z)
    (url : string) (record : option jsobj) :
  let w := mkWorld st (Some (mkCache None stamp)) now in
  updateCacheArticle url record w = (Ok tt, w)
  /\ forall url', getArticleFromCache url' (snd (updateCacheArticle url record w)) = None.
Proof.
  intros w. split; [reflexivity|]. intros url'. reflexivity.
Qed.

(** C3, as the code has it. When the listing inside [getArticlesCache]
    fails, the error is thrown on and the cache is left as an empty mapping
    stamped with the time of the call. A later get takes that mapping for a
    snapshot: up to the TTL after the failure it returns the empty mapping
    without a call to the store, and only a get that comes later than the
    TTL lists the store again. *)
Theorem getArticlesCache_after_failure (w : world) (cs : cache_state) (message : string) :
  cache w = Some cs ->
  servedSnapshot w = None ->
  getError (storage w) = Some message ->
  exists w1,
    getArticlesCache w = (Thrown message, w1)
    /\ cache w1 = Some (mkCache (Some ∅) (clock w))
    /\ forall (st2 : chrome_storage) (now2 : Z),
         let w2 := mkWorld st2 (cache w1) now2 in
         (now2 - clock w <= CONFIG.cache_ttl -> getArticlesCache w2 = (Ok ∅, w2))
         /\ (CONFIG.cache_ttl < now2 - clock w ->
             calls (storage (snd (getArticlesCache w2))) = StorageGet None :: calls st2).
Proof.
  intros Hc Hs He. eexists. split; [|split].
  - apply (getArticlesCache_reload_fail w cs message Hc Hs He).
  - reflexivity.
  - intros st2 now2 w2. cbn in w2. split; intros Hage.
    + apply getArticlesCache_served. unfold servedSnapshot, w2. cbn.
      destruct (Z.ltb_spec CONFIG.cache_ttl (now2 - clock w)); [lia|reflexivity].
    + assert (Hs2 : servedSnapshot w2 = None).
      { unfold servedSnapshot, w2. cbn.
        destruct (Z.ltb_spec CONFIG.cache_ttl (now2 - clock w)); [reflexivity|lia]. }
      destruct (getError st2) as [m2|] eqn:He2.
      * rewrite (getArticlesCache_reload_fail w2 _ m2 eq_refl Hs2 He2). reflexivity.
      * rewrite (getArticlesCache_reload w2 _ eq_refl Hs2 He2). reflexivity.
Qed.

(** ** Import *)

Lemma getArticle_spec url w :
  exists o,
    getArticle url w = (o, if validateUrl (JStr url)
                           then mkWorld (log_call (StorageGet
                                  (Some [getStorageKey (normalizeUrl1 url)])) (storage w))
                                  (cache w) (clock w)
                           else w)
    /\ match o with
       | Ok found =>
           found = (if validateUrl (JStr url)
                    then items (storage w) !! getStorageKey (normalizeUrl1 url)
                    else None)
           /\ (validateUrl (JStr url) = true -> getError (storage w) = None)
       | Thrown message =>
           validateUrl (JStr url) = true /\ getError (storage w) = Some message
       end.
Proof.
  unfold getArticle. destruct (validateUrl (JStr url)) eqn:Hv; cbn [negb].
  - unfold chrome_storage_get. run.
    destruct (getError (storage w)) as [message|] eqn:He.
    + eexists. split; [reflexivity|]. cbn. split; reflexivity.
    + eexists. split; [reflexivity|]. cbn. split; [|reflexivity].
      set (key := getStorageKey (normalizeUrl1 url)).
      destruct (items (storage w) !! key) as [a|] eqn:Hk.
      * apply map_lookup_filter_Some. split; [exact Hk|]. cbn. constructor.
      * apply map_lookup_filter_None. left. exact Hk.
  - eexists. split; [reflexivity|]. cbn. split; [reflexivity|discriminate].
Qed.

(** Classifying an entry reads the store and nothing else; it throws only
    when the store reports an error; an entry is skipped exactly when it
    brings no article to save. *)
Lemma import_one_spec entry w :
  let '(o, w') := import_one entry w in
  items (storage w') = items (storage w)
  /\ getError (storage w') = getError (storage w)
  /\ setError (storage w') = setError (storage w)
  /\ cache w' = cache w /\ clock w' = clock w
  /\ match o with
     | Ok r => (r.1 = skipped_t <-> r.2 = None)
     | Thrown _ => getError (storage w) <> None
     end.
Proof.
  destruct entry as [url a]. unfold import_one.
  destruct (getArticle_spec url w) as (o & Hrun & Ho).
  unfold mbind, M_bind. rewrite Hrun.
  assert (Hframe : forall w0 : world,
    w0 = (if validateUrl (JStr url)
          then mkWorld (log_call (StorageGet (Some [getStorageKey (normalizeUrl1 url)]))
                          (storage w)) (cache w) (clock w)
          else w) ->
    items (storage w0) = items (storage w)
    /\ getError (storage w0) = getError (storage w)
    /\ setError (storage w0) = setError (storage w)
    /\ cache w0 = cache w /\ clock w0 = clock w).
  { intros w0 ->. destruct (validateUrl (JStr url)); repeat split; reflexivity. }
  destruct o as [found|message].
  - destruct found as [e|].
    + destruct (mergeArticleDataForImport e a); cbn;
        (destruct (Hframe _ eq_refl) as (?&?&?&?&?); repeat split; try assumption;
         try discriminate; intros; discriminate).
    + destruct (negb (truthy (prop a "isRead"))); cbn;
        (destruct (Hframe _ eq_refl) as (?&?&?&?&?); repeat split; try assumption;
         try discriminate; intros; discriminate).
  - destruct (Hframe _ eq_refl) as (?&?&?&?&?). repeat split; try assumption.
    destruct Ho as [_ He]. rewrite He. discriminate.
Qed.

Lemma Promise_all_map_import valid : forall w,
  let '(o, w') := Promise_all_map import_one valid w in
  items (storage w') = items (storage w)
  /\ getError (storage w') = getError (storage w)
  /\ setError (storage w') = setError (storage w)
  /\ cache w' = cache w /\ clock w' = clock w
  /\ match o with
     | Ok results =>
         length results = length valid
         /\ Forall (fun r => r.1 = skipped_t <-> r.2 = None) results
     | Thrown _ => getError (storage w) <> None
     end.
Proof.
  induction valid as [|entry valid IH]; intros w.
  - cbn. repeat split; constructor.
  - cbn [Promise_all_map].
    pose proof (import_one_spec entry w) as H1.
    destruct (import_one entry w) as [o1 w1].
    destruct H1 as (Hi & Hg & Hs & Hc & Hk & H1).
    specialize (IH w1).
    destruct (Promise_all_map import_one valid w1) as [o2 w2].
    destruct IH as (Hi2 & Hg2 & Hs2 & Hc2 & Hk2 & H2).
    destruct o1 as [r|message]; [destruct o2 as [rs|message]|]; cbn;
      repeat split; try congruence.
    + cbn. f_equal. apply H2.
    + constructor; [exact H1|apply H2].
Qed.

Lemma count_type_total results :
  count_type imported_t results + count_type updated_t results
  + count_type skipped_t results = Z.of_nat (length results).
Proof.
  unfold count_type. induction results as [|[t a] rs IH]; [reflexivity|].
  rewrite !filter_cons. cbn [fst length].
  destruct t; repeat case_decide; try congruence; cbn [length]; lia.
Qed.

Lemma articlesToSave_length results :
  Forall (fun r : import_type * option jsobj => r.1 = skipped_t <-> r.2 = None) results ->
  Z.of_nat (length (omap snd (filter (fun r => r.1 ≠ skipped_t) results)))
  = count_type imported_t results + count_type updated_t results.
Proof.
  unfold count_type. induction 1 as [|[t a] rs [H1 H2] _ IH]; [reflexivity|].
  rewrite !filter_cons. cbn [fst snd] in *.
  destruct t; repeat case_decide; try congruence;
    destruct a as [a|];
    try (specialize (H2 eq_refl); congruence);
    try (specialize (H1 eq_refl); congruence);
    cbn [omap list_omap snd length]; lia.
Qed.

(** The class that the code gives a valid entry is the class of the
    specification. *)
Lemma import_one_class url o w r w' :
  prop o "url" = JStr url -> validateUrl (JStr url) = true ->
  import_one (url, o) w = (Ok r, w') ->
  r.1 = spec_class (items (storage w)) (Obj o).
Proof.
  intros Hu Hv. unfold import_one, spec_class. rewrite Hu, Hv.
  destruct (getArticle_spec url w) as (o1 & Hrun & Ho).
  unfold mbind, M_bind. rewrite Hrun. rewrite Hv in Ho.
  destruct o1 as [found|message]; [|discriminate].
  destruct Ho as [-> _].
  destruct (items (storage w) !! getStorageKey (normalizeUrl1 url)) as [prior|].
  - destruct (mergeArticleDataForImport prior o); now intros [= <- _].
  - destruct (truthy (prop o "isRead")); now intros [= <- _].
Qed.

Lemma validArticles_cons e l :
  validArticles (e :: l)
  = match e with
    | Obj o =>
        match prop o "url" with
        | JStr url =>
            if validateArticle e && validateUrl (JStr url)
            then (url, o) :: validArticles l else validArticles l
        | _ => validArticles l
        end
    | Prim _ => validArticles l
    end.
Proof.
  unfold validArticles. cbn [omap list_omap].
  destruct e as [o|v]; [|reflexivity].
  destruct (prop o "url"); try reflexivity.
  destruct (validateArticle (Obj o) && validateUrl (JStr s)); reflexivity.
Qed.

(** The counts of the code are the counts of the specification's classes:
    an entry that is not valid is counted as skipped, a valid one in the
    class of its result. *)
Lemma Promise_all_map_classes articles : forall w results w' t,
  Promise_all_map import_one (validArticles articles) w = (Ok results, w') ->
  spec_count (items (storage w)) t articles
  = count_type t results
    + (if decide (t = skipped_t)
       then Z.of_nat (length articles) - Z.of_nat (length (validArticles articles))
       else 0).
Proof.
  unfold spec_count, count_type.
  induction articles as [|e l IH]; intros w results w' t.
  - cbn. intros [= <- _]. cbn. destruct (decide (t = skipped_t)); reflexivity.
  - rewrite validArticles_cons, filter_cons.
    assert (Hskip : forall rs,
      Promise_all_map import_one (validArticles l) w = (Ok rs, w') ->
      spec_class (items (storage w)) e = skipped_t ->
      Z.of_nat (length (if decide (spec_class (items (storage w)) e = t)
                        then e :: filter (fun e0 => spec_class (items (storage w)) e0 = t) l
                        else filter (fun e0 => spec_class (items (storage w)) e0 = t) l))
      = Z.of_nat (length (filter (fun r => r.1 = t) rs))
        + (if decide (t = skipped_t)
           then Z.of_nat (length (e :: l)) - Z.of_nat (length (validArticles l))
           else 0)).
    { intros rs Hrun Hc. specialize (IH w rs w' t Hrun). rewrite Hc.
      cbn [length]. repeat case_decide; try congruence; cbn [length]; lia. }
    destruct e as [o|v]; [|intros H; apply Hskip; [exact H|reflexivity]].
    destruct (prop o "url") as [| | | |url|] eqn:Hu;
      try (intros H; apply Hskip; [exact H|unfold spec_class; now rewrite Hu]).
    destruct (validateUrl (JStr url)) eqn:Hv.
    + assert (Ha : validateArticle (Obj o) = true)
        by (cbn [validateArticle]; rewrite Hu; apply validateUrl_truthy, Hv).
      rewrite Ha. cbn [andb Promise_all_map].
      destruct (import_one (url, o) w) as [[r|message] w1] eqn:H1.
      * pose proof (import_one_spec (url, o) w) as Hs. rewrite H1 in Hs.
        destruct Hs as (Hi & _).
        destruct (Promise_all_map import_one (validArticles l) w1) as [[rs|message] w2] eqn:H2;
          [|discriminate].
        intros [= <- _].
        specialize (IH w1 rs w2 t H2).
        rewrite Hi in IH. rewrite filter_cons.
        rewrite <- (import_one_class url o w r w1 Hu Hv H1).
        cbn [length]. repeat case_decide; try congruence; cbn [length]; lia.
      * destruct (Promise_all_map import_one (validArticles l) w1); discriminate.
    + rewrite andb_false_r. intros H. apply Hskip; [exact H|].
      unfold spec_class. now rewrite Hu, Hv.
Qed.

(** C5. Import count conservation: [processImportBatch] on an array of N
    entries returns counts with imported + updated + skipped = N; each count
    is the number of entries in that class (imported: no prior record and
    accepted; updated: prior record and merge accepted; skipped: not valid,
    or rejected), and the articles to save are as many as the entries
    imported or updated. It throws only when a read of the store fails. *)
Theorem processImportBatch_counts (articles : list jselem) (w : world) :
  match processImportBatch articles w with
  | (Ok r, _) =>
      imported r + updated r + skipped r = Z.of_nat (length articles)
      /\ imported r = spec_count (items (storage w)) imported_t articles
      /\ updated r = spec_count (items (storage w)) updated_t articles
      /\ skipped r = spec_count (items (storage w)) skipped_t articles
      /\ Z.of_nat (length (articlesToSave r)) = imported r + updated r
  | (Thrown _, _) => getError (storage w) <> None
  end.
Proof.
  unfold processImportBatch, mbind, M_bind.
  pose proof (Promise_all_map_import (validArticles articles) w) as H.
  destruct (Promise_all_map import_one (validArticles articles) w)
    as [[results|message] w'] eqn:Hrun.
  - destruct H as (_ & _ & _ & _ & _ & Hlen & Hall). cbn.
    pose proof (count_type_total results) as Htotal.
    pose proof (Promise_all_map_classes articles w results w' imported_t Hrun) as Hi.
    pose proof (Promise_all_map_classes articles w results w' updated_t Hrun) as Hu.
    pose proof (Promise_all_map_classes articles w results w' skipped_t Hrun) as Hs.
    repeat case_decide; try congruence.
    repeat split; try lia. apply articlesToSave_length, Hall.
  - apply H.
Qed.

(** ** The existing-articles map *)

Lemma buildCache_tracks articles k :
  k <> "" -> (exists a, a ∈ articles /\ prop a "url" = JStr k) ->
  is_Some (buildCache articles !! k).
Proof.
  intros Hk. unfold buildCache.
  assert (G : forall acc : gmap string jsobj,
    is_Some (acc !! k) \/ (exists a, a ∈ articles /\ prop a "url" = JStr k) ->
    is_Some (fold_left
      (fun c a => if truthy (prop a "url")
                  then <[toPropertyKey (prop a "url") := a]> c else c) articles acc !! k)).
  { induction articles as [|b l IH]; intros acc [H|(a & Ha & Hu)]; cbn [fold_left].
    - exact H.
    - inversion Ha.
    - apply IH. left. destruct (truthy (prop b "url")); [|exact H].
      destruct (decide (toPropertyKey (prop b "url") = k)) as [->|Hne].
      + rewrite lookup_insert_eq. eauto.
      + rewrite lookup_insert_ne; [exact H|exact Hne].
    - apply IH. apply elem_of_cons in Ha as [<-|Ha].
      + left. rewrite Hu. cbn [truthy toPropertyKey].
        destruct (String.eqb_spec k ""); [contradiction|]. cbn [negb].
        rewrite lookup_insert_eq. eauto.
      + right. eauto. }
  intros H. apply G. now right.
Qed.

Lemma mapOfArticles_tracks articles k :
  k <> "" -> (exists a, a ∈ articles /\ prop a "url" = JStr k) ->
  is_Some (mapOfArticles articles !! k).
Proof.
  intros Hk. unfold mapOfArticles.
  assert (G : forall acc : gmap string jsobj,
    is_Some (acc !! k) \/ (exists a, a ∈ articles /\ prop a "url" = JStr k) ->
    is_Some (fold_left
      (fun m a => match prop a "url" with
                  | JStr s => if String.eqb s "" then m else <[s := a]> m
                  | _ => m
                  end) articles acc !! k)).
  { induction articles as [|b l IH]; intros acc [H|(a & Ha & Hu)]; cbn [fold_left].
    - exact H.
    - inversion Ha.
    - apply IH. left. destruct (prop b "url") as [| | | |s|]; try exact H.
      destruct (String.eqb s ""); [exact H|].
      destruct (decide (s = k)) as [->|Hne].
      + rewrite lookup_insert_eq. eauto.
      + rewrite lookup_insert_ne; [exact H|exact Hne].
    - apply IH. apply elem_of_cons in Ha as [<-|Ha].
      + left. rewrite Hu.
        destruct (String.eqb_spec k ""); [contradiction|].
        rewrite lookup_insert_eq. eauto.
      + right. eauto. }
  intros H. apply G. now right.
Qed.

Lemma tracked_stored w k :
  servedSnapshot w = None -> tracked w k = true ->
  k <> "" /\ exists a, a ∈ storedArticles (storage w) /\ prop a "url" = JStr k.
Proof.
  unfold tracked. intros ->. intros H. apply andb_true_iff in H as [Hk Hex].
  split.
  - intros ->. discriminate Hk.
  - apply existsb_exists in Hex as (a & Ha & Hu).
    exists a. split; [now apply list_elem_of_In|].
    now apply bool_decide_eq_true in Hu.
Qed.

(** The map that a sync consults holds every tracked url; building it
    writes nothing to the store. *)
Lemma getExistingArticlesMap_tracked w :
  (servedSnapshot w = None -> getError (storage w) = None) ->
  exists m w' gets,
    getExistingArticlesMap w = (Ok m, w')
    /\ items (storage w') = items (storage w)
    /\ calls (storage w') = (gets ++ calls (storage w))%list
    /\ Forall (fun c => is_set c = false) gets
    /\ forall k, tracked w k = true -> is_Some (m !! k).
Proof.
  intros Herr. unfold getExistingArticlesMap.
  destruct (cache w) as [cs|] eqn:Hc.
  - destruct (servedSnapshot w) as [held|] eqn:Hs.
    + exists held, w, []. unfold try_catch.
      rewrite (getArticlesCache_served w held Hs).
      repeat split; [constructor|].
      intros k. unfold tracked. rewrite Hs. apply bool_decide_eq_true.
    + specialize (Herr eq_refl). unfold try_catch.
      rewrite (getArticlesCache_reload w cs Hc Hs Herr).
      eexists _, _, [StorageGet None]. repeat split.
      * repeat constructor.
      * intros k Hk. destruct (tracked_stored w k Hs Hk) as [Hne H].
        now apply buildCache_tracks.
  - assert (Hs : servedSnapshot w = None) by (unfold servedSnapshot; now rewrite Hc).
    specialize (Herr Hs).
    unfold mbind, M_bind. rewrite (getAllArticles_ok w Herr).
    eexists _, _, [StorageGet None]. repeat split.
    + repeat constructor.
    + intros k Hk. destruct (tracked_stored w k Hs Hk) as [Hne H].
      now apply mapOfArticles_tracks.
Qed.

Lemma sync_pending_tracked existingMap drafts :
  (forall d url, Obj d ∈ drafts -> prop d "url" = JStr url ->
     validateUrl (JStr url) = true -> is_Some (existingMap !! normalizeUrl1 url)) ->
  sync_pending existingMap drafts = [].
Proof.
  unfold sync_pending. induction drafts as [|e l IH]; intros H; [reflexivity|].
  cbn [omap list_omap].
  assert (Hl : omap
    (fun e => match e with
       | Obj newArticle =>
           match prop newArticle "url" with
           | JStr url =>
               if negb (validateUrl (JStr url)) then None
               else if bool_decide (is_Some (existingMap !! normalizeUrl1 url)) then None
                    else Some (<["url" := JStr (normalizeUrl1 url)]> newArticle)
           | _ => None
           end
       | Prim _ => None
       end) l = []).
  { apply IH. intros d url Hd. apply H. now right. }
  destruct e as [d|v]; [|exact Hl].
  destruct (prop d "url") as [| | | |url|] eqn:Hu; try exact Hl.
  destruct (validateUrl (JStr url)) eqn:Hv; cbn [negb]; [|exact Hl].
  rewrite bool_decide_eq_true_2; [exact Hl|].
  apply (H d url); [now left|exact Hu|exact Hv].
Qed.

(** When every draft with a valid url is already tracked in the eyes of the
    sync (by the served cache snapshot, or by the store when no snapshot is
    served), [syncArticles] returns 0, the stored items are what they were,
    and no call to the store is a write. *)
Lemma syncArticles_skips_tracked (drafts : list jselem) (w : world) :
  (servedSnapshot w = None -> getError (storage w) = None) ->
  (forall d url, Obj d ∈ drafts -> prop d "url" = JStr url ->
     validateUrl (JStr url) = true -> tracked w (normalizeUrl1 url) = true) ->
  exists w' gets,
    syncArticles drafts w = (Ok 0, w')
    /\ items (storage w') = items (storage w)
    /\ calls (storage w') = (gets ++ calls (storage w))%list
    /\ Forall (fun c => is_set c = false) gets.
Proof.
  intros Herr Htracked. unfold syncArticles.
  destruct drafts as [|e l] eqn:Hd.
  - exists w, []. repeat split. constructor.
  - rewrite <- Hd in *. clear Hd.
    destruct (getExistingArticlesMap_tracked w Herr) as (m & w' & gets & Hrun & Hi & Hc & Hg & Hm).
    unfold mbind, M_bind. rewrite Hrun.
    rewrite (sync_pending_tracked m drafts).
    + exists w', gets. cbn. repeat split; assumption.
    + intros d url H1 H2 H3. apply Hm. now apply (Htracked d url).
Qed.

(** ** Marking an article *)

Lemma article_set_read u t p d r rd x y :
  <["readDate" := x]> (<["isRead" := y]> (article u t p d r rd)) = article u t p d y x.
Proof. apply map_eq. intros k. unfold article.
  repeat (rewrite lookup_insert; case_decide; subst; try reflexivity; try congruence).
Qed.

Lemma hasOwnProperty_article u t p d r rd :
  hasOwnProperty (article u t p d r rd) "isRead" = true.
Proof. reflexivity. Qed.

(** What [saveArticle] writes and returns when the article passes the
    validators and the store answers. *)
Lemma saveArticle_spec a u w existing isRead readDate :
  prop a "url" = JStr u ->
  validateArticleStructure a = true ->
  validateUrl (JStr u) = true ->
  getError (storage w) = None ->
  setError (storage w) = None ->
  (if validateUrl (JStr (normalizeUrl1 u))
   then items (storage w) !! getStorageKey (normalizeUrl1 (normalizeUrl1 u))
   else None) = existing ->
  determineReadStatus (clock w) existing a = (isRead, readDate) ->
  let data :=
    article (JStr (normalizeUrl1 u))
      (js_or (js_or (prop a "title") (and_prop existing "title")) (JStr ""))
      (js_or (js_or (prop a "publishedDate") (and_prop existing "publishedDate")) (JStr ""))
      (js_or (js_or (js_or (prop a "dateText") (prop a "publishedDate"))
                    (and_prop existing "dateText")) (JStr ""))
      isRead readDate in
  exists w',
    saveArticle a w = (Ok (Some data), w')
    /\ items (storage w') = <[getStorageKey (normalizeUrl1 u) := data]> (items (storage w))
    /\ getError (storage w') = None
    /\ setError (storage w') = None
    /\ cache w' = cache w
    /\ clock w' = clock w.
Proof.
  intros Hu Hs Hv Hg Hse Hex Hrs data.
  unfold saveArticle. rewrite Hu, Hs, Hv, (validateUrl_truthy u Hv). cbn [negb].
  destruct (getArticle_spec (normalizeUrl1 u) w) as (o & Hrun & Ho).
  unfold mbind, M_bind at 1. rewrite Hrun.
  destruct o as [found|message]; [|destruct Ho as [_ Ho]; congruence].
  destruct Ho as [Hfound _]. rewrite Hex in Hfound. subst found.
  unfold Date_now, mbind, M_bind.
  assert (Hclock : clock (if validateUrl (JStr (normalizeUrl1 u))
           then mkWorld (log_call (StorageGet (Some [getStorageKey (normalizeUrl1
                  (normalizeUrl1 u))])) (storage w)) (cache w) (clock w)
           else w) = clock w) by (destruct (validateUrl (JStr (normalizeUrl1 u))); reflexivity).
  rewrite Hclock, Hrs.
  unfold chrome_storage_set.
  destruct (validateUrl (JStr (normalizeUrl1 u))) eqn:Hvn; cbn; rewrite Hse; cbn;
    (eexists; split; [reflexivity|]; cbn; repeat split; try assumption;
     symmetry; apply insert_union_singleton_l).
Qed.

Lemma js_or_str_default s v :
  truthy v = false -> js_or (js_or (JStr s) v) (JStr "") = JStr s.
Proof.
  intros Hv. unfold js_or. cbn [truthy].
  destruct (String.eqb s "") eqn:Es; cbn [negb].
  - rewrite Hv. apply String.eqb_eq in Es. now subst.
  - cbn [truthy]. rewrite Es. reflexivity.
Qed.

Lemma js_or_str_same s : js_or (js_or (JStr s) (JStr s)) (JStr "") = JStr s.
Proof.
  unfold js_or. cbn [truthy].
  destruct (String.eqb s "") eqn:Es; cbn [negb truthy]; rewrite Es; cbn [negb].
  - apply String.eqb_eq in Es. now subst.
  - reflexivity.
Qed.

Lemma js_or_dateText d p v :
  truthy v = false \/ v = JStr (if String.eqb d "" then p else d) ->
  js_or (js_or (js_or (JStr d) (JStr p)) v) (JStr "")
  = JStr (if String.eqb d "" then p else d).
Proof.
  intros Hv. unfold js_or. cbn [truthy].
  destruct (String.eqb d "") eqn:Ed; cbn [negb truthy].
  - destruct (String.eqb p "") eqn:Ep; cbn [negb truthy].
    + apply String.eqb_eq in Ep. subst p.
      destruct Hv as [->| ->]; reflexivity.
    + rewrite Ep. reflexivity.
  - rewrite Ed. cbn [negb truthy]. rewrite Ed. reflexivity.
Qed.

Lemma js_or_dateText_same x p :
  (x = "" -> p = "") ->
  js_or (js_or (js_or (JStr x) (JStr p)) (JStr x)) (JStr "") = JStr x.
Proof.
  intros H. unfold js_or. cbn [truthy].
  destruct (String.eqb x "") eqn:Ex; cbn [negb truthy].
  - apply String.eqb_eq in Ex. subst x. rewrite (H eq_refl). reflexivity.
  - rewrite Ex. cbn [negb truthy]. rewrite Ex. reflexivity.
Qed.

(** C8, as the code has it. From an empty store that answers, [markAsRead]
    of a valid url whose normal form is valid and is not changed by a second
    normalisation returns the record with that normal form as url, read, and
    dated with the clock's time stamp; [getArticle] of the same url then
    returns that record. *)
Theorem markAsRead_fresh (w : world) (url title publishedDate dateText : string) :
  items (storage w) = ∅ ->
  getError (storage w) = None ->
  setError (storage w) = None ->
  validateUrl (JStr url) = true ->
  validateUrl (JStr (normalizeUrl1 url)) = true ->
  normalizeUrl1 (normalizeUrl1 url) = normalizeUrl1 url ->
  let record :=
    article (JStr (normalizeUrl1 url)) (JStr title) (JStr publishedDate)
      (JStr (if String.eqb dateText "" then publishedDate else dateText))
      (JBool true) (JStr (toISOString (clock w))) in
  exists w',
    markAsRead url title publishedDate dateText w = (Ok (Some record), w')
    /\ fst (getArticle url w') = Ok (Some record).
Proof.
  intros Hempty Hg Hs Hv Hvn Hidem record.
  set (n := normalizeUrl1 url) in *.
  pose proof (validateUrl_nonempty n Hvn) as Hn.
  assert (Hkey : getStorageKey n = CONFIG.storage_prefix ++ n).
  { unfold getStorageKey. destruct (String.eqb_spec n ""); [contradiction|].
    now rewrite Hidem. }
  set (D := JStr (if String.eqb dateText "" then publishedDate else dateText)) in *.
  (* the lookup made by getOrCreateArticle finds nothing *)
  unfold markAsRead, getOrCreateArticle. rewrite Hv. cbn [negb]. fold n.
  destruct (getArticle_spec n w) as (o0 & Hrun0 & Ho0).
  rewrite Hvn in Hrun0, Ho0.
  destruct o0 as [found0|message]; [|destruct Ho0 as [_ Ho0]; congruence].
  destruct Ho0 as [-> _]. rewrite Hempty, lookup_empty in Hrun0.
  unfold mbind, M_bind at 1. unfold mbind, M_bind at 1. rewrite Hrun0.
  (* the article is created unread *)
  set (w0 := mkWorld _ _ _) in *.
  set (created := article (JStr n) (JStr title) (JStr publishedDate) (JStr dateText)
                    (JBool false) JNull).
  destruct (saveArticle_spec created n w0 None (JBool false) JNull)
    as (w1 & Hrun1 & Hi1 & Hg1 & Hs1 & Hc1 & Hk1);
    [reflexivity| |exact Hvn|exact Hg|exact Hs| |reflexivity|].
  { unfold validateArticleStructure, created.
    destruct (prop_article (JStr n) (JStr title) (JStr publishedDate) (JStr dateText)
                (JBool false) JNull) as (-> & -> & -> & -> & -> & ->).
    rewrite (validateUrl_truthy n Hvn). reflexivity. }
  { fold n. rewrite Hidem, Hvn.
    change (items (storage w0)) with (items (storage w)).
    now rewrite Hempty, lookup_empty. }
  assert (Hd1 : article (JStr (normalizeUrl1 n))
      (js_or (js_or (prop created "title") (and_prop None "title")) (JStr ""))
      (js_or (js_or (prop created "publishedDate") (and_prop None "publishedDate"))
             (JStr ""))
      (js_or (js_or (js_or (prop created "dateText") (prop created "publishedDate"))
                    (and_prop None "dateText")) (JStr ""))
      (JBool false) JNull
    = article (JStr n) (JStr title) (JStr publishedDate) D (JBool false) JNull).
  { unfold created. rewrite Hidem.
    destruct (prop_article (JStr n) (JStr title) (JStr publishedDate) (JStr dateText)
                (JBool false) JNull) as (_ & -> & -> & -> & _ & _).
    cbn [and_prop].
    rewrite !js_or_str_default by reflexivity.
    rewrite js_or_dateText by (left; reflexivity).
    reflexivity. }
  rewrite Hd1 in Hrun1, Hi1. rewrite Hidem, Hkey in Hi1. clear Hd1.
  change (items (storage w0)) with (items (storage w)) in Hi1.
  rewrite Hempty in Hi1.
  rewrite Hrun1. clear Hrun1.
  (* it is saved again, read and dated *)
  cbv beta iota. unfold mbind, M_bind, Date_now. rewrite Hk1, article_set_read.
  set (unread := article (JStr n) (JStr title) (JStr publishedDate) D (JBool false) JNull)
    in *.
  set (marked := article (JStr n) (JStr title) (JStr publishedDate) D (JBool true)
                   (JStr (toISOString (clock w)))).
  destruct (saveArticle_spec marked n w1 (Some unread) (JBool true)
              (JStr (toISOString (clock w))))
    as (w2 & Hrun2 & Hi2 & Hg2 & Hs2 & Hc2 & Hk2);
    [reflexivity| |exact Hvn|exact Hg1|exact Hs1| |reflexivity|].
  { unfold validateArticleStructure, marked.
    destruct (prop_article (JStr n) (JStr title) (JStr publishedDate) D
                (JBool true) (JStr (toISOString (clock w)))) as (-> & -> & -> & -> & -> & ->).
    rewrite (validateUrl_truthy n Hvn). reflexivity. }
  { fold n. rewrite !Hidem, Hvn, Hkey, Hi1. apply lookup_insert_eq. }
  assert (Hd2 : article (JStr (normalizeUrl1 n))
      (js_or (js_or (prop marked "title") (and_prop (Some unread) "title")) (JStr ""))
      (js_or (js_or (prop marked "publishedDate") (and_prop (Some unread) "publishedDate"))
             (JStr ""))
      (js_or (js_or (js_or (prop marked "dateText") (prop marked "publishedDate"))
                    (and_prop (Some unread) "dateText")) (JStr ""))
      (JBool true) (JStr (toISOString (clock w)))
    = record).
  { unfold record, marked, unread. rewrite Hidem. cbn [and_prop].
    destruct (prop_article (JStr n) (JStr title) (JStr publishedDate) D
                (JBool true) (JStr (toISOString (clock w)))) as (_ & -> & -> & -> & _ & _).
    destruct (prop_article (JStr n) (JStr title) (JStr publishedDate) D
                (JBool false) JNull) as (_ & -> & -> & -> & _ & _).
    rewrite !js_or_str_same. unfold D.
    rewrite js_or_dateText_same; [reflexivity|].
    destruct (String.eqb_spec dateText "") as [->|Hd]; intros H; [exact H|contradiction]. }
  rewrite Hd2 in Hrun2, Hi2. rewrite Hidem, Hkey in Hi2. clear Hd2.
  exists w2. split; [exact Hrun2|].
  (* and found again under the same key *)
  destruct (getArticle_spec url w2) as (o3 & Hrun3 & Ho3).
  rewrite Hrun3. cbn [fst]. rewrite Hv in Ho3. fold n in Ho3.
  destruct o3 as [found3|message]; [|destruct Ho3 as [_ Ho3]; congruence].
  destruct Ho3 as [-> _]. rewrite Hkey, Hi2, lookup_insert_eq. reflexivity.
Qed.

(** *** What a batch save writes *)

Lemma saveArticles_data_aux (m : gmap string jsobj) (l : list jsobj) :
  forall (acc : option (gmap string jsobj)) (data : gmap string jsobj),
  foldl
    (fun acc a =>
       data ← acc;
       if negb (truthy (prop a "url")) || negb (validateUrl (prop a "url")) then Some data
       else
         match prop a "url" with
         | JStr url =>
             merged ← mergeArticleState (m !! normalizeUrl1 url) a;
             Some (<[getStorageKey (normalizeUrl1 url) := merged]> data)
         | _ => Some data
         end) acc l = Some data ->
  exists acc0, acc = Some acc0 /\
  forall key r, data !! key = Some r ->
    acc0 !! key = Some r
    \/ exists a url,
         a ∈ l /\ prop a "url" = JStr url /\ validateUrl (JStr url) = true
         /\ key = getStorageKey (normalizeUrl1 url)
         /\ mergeArticleState (m !! normalizeUrl1 url) a = Some r.
Proof.
  induction l as [|a l IH]; intros acc data; cbn [foldl].
  - intros ->. exists data. split; [reflexivity|]. intros key r H. now left.
  - intros H. apply IH in H as (acc1 & Hstep & Hdata).
    destruct acc as [acc0|]; [|discriminate Hstep]. exists acc0. split; [reflexivity|].
    cbn in Hstep.
    intros key r Hk. destruct (Hdata key r Hk) as [Hacc|(b & url & Hb & Hrest)];
      [|right; exists b, url; split; [now right|exact Hrest]].
    destruct (negb (truthy (prop a "url")) || negb (validateUrl (prop a "url"))) eqn:Hskip.
    { injection Hstep as <-. now left. }
    apply orb_false_iff in Hskip as [_ Hv]. apply negb_false_iff in Hv.
    destruct (prop a "url") as [| | | |url|] eqn:Hu; try (injection Hstep as <-; now left).
    destruct (mergeArticleState (m !! normalizeUrl1 url) a) as [merged|] eqn:Hm;
      [|discriminate Hstep].
    cbn in Hstep. injection Hstep as <-.
    destruct (decide (getStorageKey (normalizeUrl1 url) = key)) as [<-|Hne].
    + rewrite lookup_insert_eq in Hacc. injection Hacc as ->.
      right. exists a, url. repeat split; try assumption. now left.
    + rewrite lookup_insert_ne in Hacc by exact Hne. now left.
Qed.

(** Every record in the data that [saveArticles] hands to the store is the
    sync merge of one of the articles with what the existing-articles map
    holds for its url. *)
Lemma saveArticles_data_inv (m : gmap string jsobj) (articles : list jsobj)
    (data : gmap string jsobj) (key : string) (r : jsobj) :
  saveArticles_data m articles = Some data ->
  data !! key = Some r ->
  exists a url,
    a ∈ articles /\ prop a "url" = JStr url /\ validateUrl (JStr url) = true
    /\ key = getStorageKey (normalizeUrl1 url)
    /\ mergeArticleState (m !! normalizeUrl1 url) a = Some r.
Proof.
  unfold saveArticles_data. intros H Hk.
  apply saveArticles_data_aux in H as (acc0 & [= <-] & H).
  destruct (H key r Hk) as [Hempty|Hex]; [|exact Hex].
  rewrite lookup_empty in Hempty. discriminate.
Qed.

(** So a batch save never changes the read state of an article that the
    existing-articles map knows, whatever read state the batch brings: this
    is what an import of an already stored article runs into. *)
Lemma saveArticles_data_keeps_read_state (m : gmap string jsobj) (articles : list jsobj)
    (data : gmap string jsobj) (key : string) (r : jsobj) :
  saveArticles_data m articles = Some data ->
  data !! key = Some r ->
  exists a url,
    a ∈ articles /\ prop a "url" = JStr url
    /\ key = getStorageKey (normalizeUrl1 url)
    /\ forall e, m !! normalizeUrl1 url = Some e ->
         readState r = (js_or (prop e "isRead") (JBool false),
                        js_or (prop e "readDate") JNull).
Proof.
  intros H Hk.
  destruct (saveArticles_data_inv m articles data key r H Hk)
    as (a & url & Ha & Hu & _ & Hkey & Hm).
  exists a, url. repeat split; try assumption.
  intros e He. rewrite He in Hm.
  destruct (mergeArticleState_existing e a r Hm) as [H1 H2].
  unfold readState. now rewrite H1, H2.
Qed.

(** *** Import against a stored article *)

Lemma js_or_idem a b : js_or (js_or a b) b = js_or a b.
Proof.
  unfold js_or. destruct (truthy a) eqn:Ha; [now rewrite Ha|].
  destruct (truthy b); reflexivity.
Qed.

Lemma startsWith_app p s : startsWith (p ++ s) p = true.
Proof.
  unfold startsWith. induction p as [|a p IH]; [destruct s; reflexivity|].
  rewrite append_cons. cbn [String.prefix].
  destruct (ascii_dec a a) as [_|Hne]; [exact IH|contradiction].
Qed.

Lemma getStorageKey_fixed n :
  n <> "" -> normalizeUrl1 n = n -> getStorageKey n = CONFIG.storage_prefix ++ n.
Proof.
  intros Hn Hfix. unfold getStorageKey.
  destruct (String.eqb_spec n ""); [contradiction|]. now rewrite Hfix.
Qed.

Lemma getExistingArticlesMap_popup w :
  cache w = None -> getError (storage w) = None ->
  getExistingArticlesMap w
  = (Ok (mapOfArticles (storedArticles (storage w))),
     mkWorld (log_call (StorageGet None) (storage w)) None (clock w)).
Proof.
  intros Hc Hg. unfold getExistingArticlesMap. rewrite Hc.
  unfold mbind, M_bind, mret, M_ret. rewrite (getAllArticles_ok w Hg), Hc. reflexivity.
Qed.

(** A batch save from the popup: the data is merged against a fresh listing
    of the store and written in one call. *)
Lemma saveArticles_popup a articles w data :
  cache w = None -> getError (storage w) = None -> setError (storage w) = None ->
  saveArticles_data (mapOfArticles (storedArticles (storage w))) (a :: articles) = Some data ->
  data <> ∅ ->
  exists w',
    saveArticles (a :: articles) None w = (Ok tt, w')
    /\ items (storage w') = data ∪ items (storage w)
    /\ cache w' = None
    /\ getError (storage w') = None
    /\ setError (storage w') = None.
Proof.
  intros Hc Hg Hs Hdata Hne. unfold saveArticles.
  unfold mbind, M_bind. rewrite (getExistingArticlesMap_popup w Hc Hg), Hdata.
  rewrite bool_decide_eq_false_2 by exact Hne.
  unfold chrome_storage_set. cbn. rewrite Hs.
  eexists. split; [reflexivity|]. cbn. repeat split; assumption.
Qed.

(** In the popup, with the store holding one article under the key of its
    url, the import of one entry for that url ends with the store holding
    one article under the same key, with the same url and, as every merge
    reads it, the same read state: whatever the entry says about read state
    and dates, and whether the entry is counted as updated or skipped. *)
Lemma import_single_keeps_read_state (w : world) (n u : string) (rec e : jsobj) :
  cache w = None ->
  getError (storage w) = None ->
  setError (storage w) = None ->
  items (storage w) = {[CONFIG.storage_prefix ++ n := rec]} ->
  prop rec "url" = JStr n ->
  n <> "" ->
  normalizeUrl1 n = n ->
  prop e "url" = JStr u ->
  validateUrl (JStr u) = true ->
  normalizeUrl1 u = n ->
  exists counts w' rec',
    importDataFromFile [Obj e] w = (Ok counts, w')
    /\ cache w' = None
    /\ getError (storage w') = None
    /\ setError (storage w') = None
    /\ items (storage w') = {[CONFIG.storage_prefix ++ n := rec']}
    /\ prop rec' "url" = JStr n
    /\ readStateRead rec' = readStateRead rec.
Proof.
  intros Hc Hg Hs Hitems Hrec Hn Hfix He Hv Hu.
  pose proof (getStorageKey_fixed n Hn Hfix) as Hkey.
  unfold importDataFromFile, processImportBatch.
  assert (Hvalid : validArticles [Obj e] = [(u, e)]).
  { unfold validArticles. cbn [omap list_omap validateArticle].
    rewrite He, (validateUrl_truthy u Hv), Hv. reflexivity. }
  rewrite Hvalid. unfold mbind, M_bind at 1. unfold mbind, M_bind at 1.
  cbn [Promise_all_map]. unfold import_one.
  destruct (getArticle_spec u w) as (o & Hrun & Ho).
  rewrite Hv in Hrun, Ho. rewrite Hu, Hkey in Hrun, Ho.
  unfold mbind, M_bind at 1. rewrite Hrun.
  destruct o as [found|message]; [|destruct Ho as [_ Ho]; congruence].
  destruct Ho as [-> _]. rewrite Hitems, lookup_singleton_eq.
  set (w1 := mkWorld _ _ _).
  destruct (mergeArticleDataForImport rec e) as [merged|] eqn:Hmerge.
  - (* counted as updated: the merged record goes through the batch save *)
    assert (Hmu : prop merged "url" = JStr u).
    { unfold mergeArticleDataForImport in Hmerge.
      destruct (negb (truthy (prop e "isRead"))); [discriminate|].
      assert (Hacc : forall x y z, prop (article (prop e "url") x y z (JBool true)
                                            (prop e "readDate")) "url" = JStr u).
      { intros x y z.
        destruct (prop_article (prop e "url") x y z (JBool true) (prop e "readDate"))
          as (-> & _). exact He. }
      destruct (negb (truthy (prop rec "isRead"))); [injection Hmerge as <-; apply Hacc|].
      destruct (truthy (prop e "readDate")); [|discriminate].
      destruct (truthy (prop rec "readDate")); [|injection Hmerge as <-; apply Hacc].
      destruct (Date_gt _ _); [injection Hmerge as <-; apply Hacc|discriminate]. }
    assert (Hstored : storedArticles (storage w1) = [rec]).
    { unfold storedArticles. change (items (storage w1)) with (items (storage w)).
      rewrite Hitems, map_to_list_singleton, filter_cons. cbn [fst].
      rewrite startsWith_app. case_decide as Ht; [|exfalso; apply Ht; exact I].
      reflexivity. }
    assert (Hmap : mapOfArticles [rec] = {[n := rec]}).
    { unfold mapOfArticles. cbn [fold_left]. rewrite Hrec.
      destruct (String.eqb_spec n ""); [contradiction|]. reflexivity. }
    assert (Hmerged : exists r,
      mergeArticleState (Some rec) merged = Some r
      /\ prop r "url" = JStr n /\ readStateRead r = readStateRead rec).
    { unfold mergeArticleState. rewrite Hrec. cbn [truthy].
      destruct (String.eqb_spec n ""); [contradiction|]. cbn [negb mbind option_bind].
      eexists. split; [reflexivity|]. split; [reflexivity|].
      unfold readStateRead.
      match goal with
      | |- context [prop (article ?a ?b ?c ?d ?x ?y) _] =>
          destruct (prop_article a b c d x y) as (_ & _ & _ & _ & -> & ->)
      end.
      now rewrite !js_or_idem. }
    destruct Hmerged as (r & Hr & Hrurl & Hrread).
    assert (Hdata : saveArticles_data (mapOfArticles (storedArticles (storage w1))) [merged]
                    = Some {[CONFIG.storage_prefix ++ n := r]}).
    { rewrite Hstored, Hmap. unfold saveArticles_data. cbn [foldl mbind option_bind].
      rewrite Hmu, (validateUrl_truthy u Hv), Hv. cbn [negb orb].
      rewrite Hu, Hkey, lookup_singleton_eq, Hr. reflexivity. }
    destruct (saveArticles_popup merged [] w1 _ Hc Hg Hs Hdata)
      as (w2 & Hsave & Hi2 & Hc2 & Hg2 & Hs2); [apply insert_non_empty|].
    cbn [mret M_ret fst snd].
    unfold mbind, M_bind, mret, M_ret. cbn [articlesToSave imported updated skipped].
    rewrite filter_cons. cbn [fst]. case_decide; [|congruence].
    rewrite filter_nil. cbn [omap list_omap snd].
    rewrite Hsave.
    eexists _, w2, r. split; [reflexivity|].
    repeat split; try assumption.
    rewrite Hi2. change (items (storage w1)) with (items (storage w)).
    rewrite Hitems. apply map_eq. intros k.
    destruct (decide (k = CONFIG.storage_prefix ++ n)) as [->|Hne].
    + rewrite lookup_union_l', !lookup_singleton_eq; [reflexivity|].
      rewrite lookup_singleton_eq. eauto.
    + rewrite lookup_union_r by (now apply lookup_singleton_ne).
      rewrite !lookup_singleton_ne by congruence. reflexivity.
  - (* counted as skipped: nothing is saved *)
    cbn [mret M_ret fst snd].
    unfold mbind, M_bind, mret, M_ret. cbn [articlesToSave imported updated skipped].
    rewrite filter_cons. cbn [fst]. case_decide as Ht; [exfalso; now apply Ht|].
    rewrite filter_nil. cbn [omap list_omap].
    eexists _, w1, rec. split; [reflexivity|].
    repeat split; try assumption.
Qed.

(** C1 in general. In the popup, with the store holding one article under
    the key of its url, two imports for that url, one after the other,
    leave the read state of the stored article as it was: neither entry's
    read date reaches the store, in whichever order they come and whichever
    of the two is the later. *)
Lemma import_never_updates_read_state (w : world) (n u1 u2 : string) (rec e1 e2 : jsobj) :
  cache w = None ->
  getError (storage w) = None ->
  setError (storage w) = None ->
  items (storage w) = {[CONFIG.storage_prefix ++ n := rec]} ->
  prop rec "url" = JStr n ->
  n <> "" ->
  normalizeUrl1 n = n ->
  prop e1 "url" = JStr u1 -> validateUrl (JStr u1) = true -> normalizeUrl1 u1 = n ->
  prop e2 "url" = JStr u2 -> validateUrl (JStr u2) = true -> normalizeUrl1 u2 = n ->
  exists c1 w1 c2 w2 rec',
    importDataFromFile [Obj e1] w = (Ok c1, w1)
    /\ importDataFromFile [Obj e2] w1 = (Ok c2, w2)
    /\ items (storage w2) = {[CONFIG.storage_prefix ++ n := rec']}
    /\ readStateRead rec' = readStateRead rec.
Proof.
  intros Hc Hg Hs Hitems Hrec Hn Hfix He1 Hv1 Hu1 He2 Hv2 Hu2.
  destruct (import_single_keeps_read_state w n u1 rec e1)
    as (c1 & w1 & rec1 & Hrun1 & Hc1 & Hg1 & Hs1 & Hi1 & Hr1 & Hread1); try assumption.
  destruct (import_single_keeps_read_state w1 n u2 rec1 e2)
    as (c2 & w2 & rec2 & Hrun2 & Hc2 & Hg2 & Hs2 & Hi2 & Hr2 & Hread2); try assumption.
  exists c1, w1, c2, w2, rec2. repeat split; try assumption. congruence.
Qed.

(** *** The read state that the two marking operations write *)

Lemma readState_article u t p d r rd : readState (article u t p d r rd) = (r, rd).
Proof. reflexivity. Qed.

(** Whatever [saveArticle] returns carries the read state that
    [determineReadStatus] computed; the clock is not touched. *)
Lemma saveArticle_readState a w o w' :
  saveArticle a w = (o, w') ->
  clock w' = clock w
  /\ forall r, o = Ok (Some r) ->
       exists existing, readState r = determineReadStatus (clock w) existing a.
Proof.
  unfold saveArticle.
  destruct (negb (truthy (prop a "url"))); [intros [= <- <-]; split; [reflexivity|discriminate]|].
  destruct (negb (validateArticleStructure a));
    [intros [= <- <-]; split; [reflexivity|discriminate]|].
  destruct (negb (validateUrl (prop a "url")));
    [intros [= <- <-]; split; [reflexivity|discriminate]|].
  destruct (prop a "url") as [| | | |url|];
    try (intros [= <- <-]; split; [reflexivity|discriminate]).
  destruct (getArticle_spec (normalizeUrl1 url) w) as (o1 & Hrun & _).
  unfold mbind, M_bind at 1. rewrite Hrun.
  set (w1 := if validateUrl (JStr (normalizeUrl1 url)) then _ else w).
  assert (Hclock : clock w1 = clock w)
    by (unfold w1; destruct (validateUrl (JStr (normalizeUrl1 url))); reflexivity).
  destruct o1 as [existing|message];
    [|intros [= <- <-]; split; [exact Hclock|discriminate]].
  unfold Date_now, mbind, M_bind. rewrite Hclock.
  destruct (determineReadStatus (clock w) existing a) as [isRead readDate] eqn:Hrs.
  unfold chrome_storage_set.
  destruct (setError (log_call _ (storage w1))) as [message|];
    intros [= <- <-]; (split; [exact Hclock|]).
  - discriminate.
  - intros r [= <-]. exists existing. rewrite Hrs. apply readState_article.
Qed.

Lemma getOrCreateArticle_clock url t p d w o w' :
  getOrCreateArticle url t p d w = (o, w') -> clock w' = clock w.
Proof.
  unfold getOrCreateArticle.
  destruct (negb (validateUrl (JStr url))); [now intros [= <- <-]|].
  destruct (getArticle_spec (normalizeUrl1 url) w) as (o1 & Hrun & _).
  unfold mbind, M_bind at 1. rewrite Hrun.
  set (w1 := if validateUrl (JStr (normalizeUrl1 url)) then _ else w).
  assert (Hclock : clock w1 = clock w)
    by (unfold w1; destruct (validateUrl (JStr (normalizeUrl1 url))); reflexivity).
  destruct o1 as [[a|]|message].
  - now intros [= <- <-].
  - intros H. apply saveArticle_readState in H as [H _]. congruence.
  - now intros [= <- <-].
Qed.

(** A record returned by [markAsRead] is read and dated with the clock's
    time stamp, whatever the store held. *)
Lemma markAsRead_readState url t p d w r w' :
  markAsRead url t p d w = (Ok (Some r), w') ->
  readState r = (JBool true, JStr (toISOString (clock w))).
Proof.
  unfold markAsRead.
  destruct (negb (validateUrl (JStr url))); [discriminate|].
  unfold mbind, M_bind at 1.
  destruct (getOrCreateArticle url t p d w) as [o1 w1] eqn:H1.
  apply getOrCreateArticle_clock in H1.
  destruct o1 as [[a|]|message]; try discriminate.
  unfold Date_now, mbind, M_bind. rewrite H1. intros H.
  apply saveArticle_readState in H as [_ H].
  destruct (H r eq_refl) as [existing ->].
  unfold determineReadStatus, hasOwnProperty, prop.
  rewrite lookup_insert_ne by discriminate. rewrite !lookup_insert_eq.
  rewrite bool_decide_eq_true_2 by eauto. reflexivity.
Qed.

(** A record returned by [markAsUnread] is unread with a null date. *)
Lemma markAsUnread_readState url t p d w r w' :
  markAsUnread url t p d w = (Ok (Some r), w') ->
  readState r = (JBool false, JNull).
Proof.
  unfold markAsUnread.
  destruct (negb (validateUrl (JStr url))); [discriminate|].
  unfold mbind, M_bind at 1.
  destruct (getOrCreateArticle url t p d w) as [o1 w1] eqn:H1.
  destruct o1 as [[a|]|message]; try discriminate.
  intros H. apply saveArticle_readState in H as [_ H].
  destruct (H r eq_refl) as [existing ->].
  unfold determineReadStatus, hasOwnProperty, prop.
  rewrite lookup_insert_ne by discriminate. rewrite !lookup_insert_eq.
  rewrite bool_decide_eq_true_2 by eauto. reflexivity.
Qed.

(** *** Inputs on which a second normalisation strips a second slash *)

(** Whatever else the URL constructor does, once it resolves [/a//] and
    reads [https://lethain.com/a/] back as the standard says, the two
    normalisations of [/a//] differ. *)
Lemma normalizeUrl_double_slash :
  URL_href "/a//" "https://lethain.com" = Some "https://lethain.com/a//" ->
  URL_href "https://lethain.com/a/" "https://lethain.com" = Some "https://lethain.com/a/" ->
  normalizeUrl1 "/a//" = "https://lethain.com/a/"
  /\ normalizeUrl1 (normalizeUrl1 "/a//") = "https://lethain.com/a".
Proof.
  intros H1 H2.
  assert (E1 : normalizeUrl1 "/a//" = "https://lethain.com/a/").
  { unfold normalizeUrl1.
    rewrite (normalizeUrl_href "/a//" _ "https://lethain.com/a//"); [reflexivity|discriminate|exact H1]. }
  split; [exact E1|]. rewrite E1. unfold normalizeUrl1.
  rewrite (normalizeUrl_href _ _ "https://lethain.com/a/"); [reflexivity|discriminate|exact H2].
Qed.

(** The fallback branch does the same on a malformed address: the
    constructor rejects a host with a space in it. *)
Lemma normalizeUrl_double_slash_fallback :
  URL_href "https://exa mple.com/a//" "https://lethain.com" = None ->
  URL_href "https://exa mple.com/a/" "https://lethain.com" = None ->
  normalizeUrl1 "https://exa mple.com/a//" = "https://exa mple.com/a/"
  /\ normalizeUrl1 (normalizeUrl1 "https://exa mple.com/a//") = "https://exa mple.com/a".
Proof.
  intros H1 H2.
  assert (E1 : normalizeUrl1 "https://exa mple.com/a//" = "https://exa mple.com/a/").
  { unfold normalizeUrl1, normalizeUrl.
    change (trim "https://exa mple.com/a//") with "https://exa mple.com/a//".
    rewrite H1. reflexivity. }
  split; [exact E1|]. rewrite E1. unfold normalizeUrl1, normalizeUrl.
  change (trim "https://exa mple.com/a/") with "https://exa mple.com/a/".
  rewrite H2. reflexivity.
Qed.

(** C6, as the code has it. Normalisation is idempotent on every input
    that the URL constructor accepts and whose href does not end in two
    slashes, the constructor reading the href, and the href without its
    final slash, back as themselves (the bare origin is read back with its
    slash). *)
Theorem normalizeUrl_idempotent (u h : string) :
  URL_href (trim u) "https://lethain.com" = Some h ->
  trim h = h ->
  trim (slice_0_m1 h) = slice_0_m1 h ->
  URL_href h "https://lethain.com" = Some h ->
  (URL_href (slice_0_m1 h) "https://lethain.com" = Some (slice_0_m1 h)
   \/ URL_href (slice_0_m1 h) "https://lethain.com" = Some h) ->
  endsWith h "//" = false ->
  normalizeUrl1 (normalizeUrl1 u) = normalizeUrl1 u.
Proof.
  intros H1 H2 H3 H4 H5 H6. unfold normalizeUrl1.
  exact (normalizeUrl_idempotent_core u _ h H1 H2 H3 H4 H5 H6).
Qed.

(** * Further properties of the code *)

(** ** Strings: suffixes *)

(** A suffix of one character is looked for in the last character. *)
Lemma endsWith_app_char s t c :
  t <> "" -> endsWith (s ++ t) (String c "") = endsWith t (String c "").
Proof.
  intros Ht. induction s as [|a s IH]; [reflexivity|].
  rewrite append_cons. cbn [endsWith]. rewrite IH.
  replace (String.eqb (String a (s ++ t)) (String c "")) with false; [reflexivity|].
  symmetry. apply String.eqb_neq. intros [= _ E].
  destruct s; [cbn in E; contradiction|discriminate E].
Qed.

(** ** normalizeUrl: the trailing slash *)

(** X1. With the default base, [normalizeUrl] returns the root address
    [https://lethain.com/] or an address that does not end in a slash,
    whenever the address it works on (the href of the input, or the trimmed
    input when the URL constructor rejects it) does not end in two
    slashes. *)
Theorem normalizeUrl_trailing_slash (url : string) :
  endsWith (resolved url "https://lethain.com") "//" = false ->
  normalizeUrl1 url = "https://lethain.com/"
  \/ endsWith (normalizeUrl1 url) "/" = false.
Proof.
  unfold resolved, normalizeUrl1, normalizeUrl. intros Hdd.
  destruct (String.eqb url ""); [now right|].
  destruct (URL_href (trim url) "https://lethain.com") as [h|]; cbn [default] in Hdd.
  - destruct (endsWith h "/") eqn:Hs; cbn [andb]; [|now right].
    destruct (String.eqb_spec h ("https://lethain.com" ++ "/")) as [->|Hne]; cbn [negb].
    + now left.
    + right. now apply slice_not_slash.
  - set (t := trim url) in *.
    set (n := if endsWith t "/" && negb (String.eqb t ("https://lethain.com" ++ "/"))
              then slice_0_m1 t else t).
    assert (Hn : n = "https://lethain.com/" \/ endsWith n "/" = false).
    { unfold n. destruct (endsWith t "/") eqn:Hs; cbn [andb]; [|now right].
      destruct (String.eqb_spec t ("https://lethain.com" ++ "/")) as [->|Hne]; cbn [negb].
      - now left.
      - right. now apply slice_not_slash. }
    destruct Hn as [->|Hn]; [now left|].
    destruct (startsWith n "http://" || startsWith n "https://"); [now right|].
    destruct n as [|a n'] eqn:En; [now left|]. rewrite <- En in *.
    assert (Hne : n <> "") by (rewrite En; discriminate).
    right. destruct (startsWith n "/").
    + now rewrite endsWith_app_char.
    + rewrite endsWith_app_char.
      * now rewrite (endsWith_app_char "/" n).
      * destruct n; [contradiction|discriminate].
Qed.

(** ** The page's host *)

(** ** The sync merge applied twice *)

Lemma prop_article_url u t p d r rd : prop (article u t p d r rd) "url" = u.
Proof. reflexivity. Qed.

Lemma prop_article_title u t p d r rd : prop (article u t p d r rd) "title" = t.
Proof. reflexivity. Qed.

Lemma prop_article_publishedDate u t p d r rd :
  prop (article u t p d r rd) "publishedDate" = p.
Proof. reflexivity. Qed.

Lemma prop_article_dateText u t p d r rd : prop (article u t p d r rd) "dateText" = d.
Proof. reflexivity. Qed.

Lemma prop_article_isRead u t p d r rd : prop (article u t p d r rd) "isRead" = r.
Proof. reflexivity. Qed.

Lemma prop_article_readDate u t p d r rd : prop (article u t p d r rd) "readDate" = rd.
Proof. reflexivity. Qed.

Ltac fields :=
  rewrite ?prop_article_url, ?prop_article_title, ?prop_article_publishedDate,
    ?prop_article_dateText, ?prop_article_isRead, ?prop_article_readDate.

Lemma js_or_absorb a b : js_or (js_or a (js_or a b)) b = js_or a b.
Proof.
  unfold js_or. destruct (truthy a) eqn:Ha; [now rewrite Ha|].
  destruct (truthy b); reflexivity.
Qed.

Lemma js_or_absorb_mid a c b :
  js_or (js_or a (js_or (js_or a c) b)) b = js_or (js_or a c) b.
Proof.
  unfold js_or. destruct (truthy a) eqn:Ha; [now rewrite Ha|].
  destruct (truthy c) eqn:Hc; [now rewrite Hc|].
  destruct (truthy b); reflexivity.
Qed.

(** X4. The sync merge is idempotent in the draft: merging a draft into the
    record that the merge of the same draft produced (against a stored
    record or against none) gives that record again. *)
Theorem mergeArticleState_idempotent (existing : option jsobj) (draft r : jsobj) :
  mergeArticleState existing draft = Some r ->
  mergeArticleState (Some r) draft = Some r.
Proof.
  unfold mergeArticleState at 1. destruct existing as [e|].
  - destruct (truthy (prop e "url")) eqn:Hu.
    + cbn. intros [= <-]. unfold mergeArticleState. fields. rewrite Hu. cbn.
      now rewrite !js_or_absorb_mid, !js_or_idem.
    + destruct (normalizeUrl_val (prop draft "url")) as [x|] eqn:Hx; [|discriminate].
      cbn. intros [= <-]. unfold mergeArticleState. fields. rewrite Hx.
      replace (if truthy (JStr x) then Some (JStr x) else JStr <$> Some x)
        with (Some (JStr x)) by (destruct (truthy (JStr x)); reflexivity).
      cbn. now rewrite !js_or_absorb_mid, !js_or_idem.
  - destruct (normalizeUrl_val (prop draft "url")) as [x|] eqn:Hx; [|discriminate].
    cbn. intros [= <-]. unfold mergeArticleState. fields. rewrite Hx.
    replace (if truthy (JStr x) then Some (JStr x) else JStr <$> Some x)
      with (Some (JStr x)) by (destruct (truthy (JStr x)); reflexivity).
    cbn. now rewrite !js_or_absorb, !js_or_idem.
Qed.

(** ** The import merge keeps the later date *)

Lemma mergeArticleDataForImport_accepted s a r :
  mergeArticleDataForImport s a = Some r ->
  prop r "isRead" = JBool true /\ prop r "readDate" = prop a "readDate"
  /\ prop r "url" = prop a "url".
Proof.
  unfold mergeArticleDataForImport.
  destruct (negb (truthy (prop a "isRead"))); [discriminate|].
  destruct (negb (truthy (prop s "isRead"))); [now intros [= <-]|].
  destruct (truthy (prop a "readDate")); [|discriminate].
  destruct (truthy (prop s "readDate")); [|now intros [= <-]].
  destruct (Date_gt _ _); [now intros [= <-]|discriminate].
Qed.

(** What one entry that is read and dated leaves, by the state of the
    stored record. *)
Lemma import_kept_cases s a i :
  truthy (prop a "isRead") = true ->
  truthy (prop a "readDate") = true ->
  Date_value (prop a "readDate") = Some i ->
  (truthy (prop s "isRead") && truthy (prop s "readDate") = false ->
     prop (import_kept s a) "isRead" = JBool true
     /\ prop (import_kept s a) "readDate" = prop a "readDate")
  /\ (truthy (prop s "isRead") && truthy (prop s "readDate") = true ->
      forall e, Date_value (prop s "readDate") = Some e ->
        truthy (prop (import_kept s a) "isRead") = true
        /\ truthy (prop (import_kept s a) "readDate") = true
        /\ Date_value (prop (import_kept s a) "readDate") = Some (Z.max i e)
        /\ (prop (import_kept s a) "readDate" = prop a "readDate"
            \/ import_kept s a = s))
  /\ (truthy (prop s "isRead") && truthy (prop s "readDate") = true ->
      Date_value (prop s "readDate") = None -> import_kept s a = s).
Proof.
  intros Hr Hd Hi. unfold import_kept, mergeArticleDataForImport.
  rewrite Hr, Hd, Hi. cbn [negb].
  destruct (truthy (prop s "isRead")) eqn:Hsr; cbn [negb andb from_option id].
  - destruct (truthy (prop s "readDate")) eqn:Hsd; cbn [from_option id].
    + split; [discriminate|]. split.
      * intros _ e He. rewrite He. cbn [Date_gt].
        destruct (Z.ltb_spec e i); cbn [from_option id]; fields.
        -- rewrite Hd, Hi. repeat split; try reflexivity; [f_equal; lia|now left].
        -- rewrite Hsr, Hsd, He. repeat split; try reflexivity; [f_equal; lia|now right].
      * intros _ He. rewrite He. reflexivity.
    + split; [|split; discriminate]. intros _. fields. now split.
  - split; [|split; discriminate]. intros _. fields. now split.
Qed.

(** X5. When the stored record and the import entry are both read and
    carry dates that parse, the record kept by [mergeArticleDataForImport]
    (the merged record, or the stored one when the entry is skipped) is
    read and carries the later of the two dates; on equal dates the stored
    record stays. *)
Theorem mergeArticleDataForImport_latest (existing imported : jsobj) (e i : Z) :
  truthy (prop existing "isRead") = true ->
  truthy (prop existing "readDate") = true ->
  Date_value (prop existing "readDate") = Some e ->
  truthy (prop imported "isRead") = true ->
  truthy (prop imported "readDate") = true ->
  Date_value (prop imported "readDate") = Some i ->
  truthy (prop (import_kept existing imported) "isRead") = true
  /\ Date_value (prop (import_kept existing imported) "readDate") = Some (Z.max i e)
  /\ (mergeArticleDataForImport existing imported <> None <-> e < i).
Proof.
  intros Her Hed He Hir Hid Hi.
  destruct (import_kept_cases existing imported i Hir Hid Hi) as (_ & H & _).
  rewrite Her, Hed in H. destruct (H eq_refl e He) as (H1 & _ & H3 & _).
  split; [exact H1|]. split; [exact H3|].
  unfold mergeArticleDataForImport. rewrite Her, Hed, Hir, Hid, He, Hi. cbn.
  destruct (Z.ltb_spec e i); split; try congruence; try lia.
Qed.

(** X6. The import merge does not depend on the order of two entries, as
    far as the read state goes: whatever the stored record, two entries
    that are read and carry dates that parse leave a record with the same
    read date, as a time, in either order. *)
Theorem mergeArticleDataForImport_order (stored a b : jsobj) (i j : Z) :
  truthy (prop a "isRead") = true ->
  truthy (prop a "readDate") = true ->
  Date_value (prop a "readDate") = Some i ->
  truthy (prop b "isRead") = true ->
  truthy (prop b "readDate") = true ->
  Date_value (prop b "readDate") = Some j ->
  Date_value (prop (import_kept (import_kept stored a) b) "readDate")
  = Date_value (prop (import_kept (import_kept stored b) a) "readDate")
  /\ truthy (prop (import_kept (import_kept stored a) b) "isRead") = true
  /\ truthy (prop (import_kept (import_kept stored b) a) "isRead") = true.
Proof.
  intros Har Had Hi Hbr Hbd Hj.
  destruct (import_kept_cases stored a i Har Had Hi) as (A1 & A2 & A3).
  destruct (import_kept_cases stored b j Hbr Hbd Hj) as (B1 & B2 & B3).
  destruct (truthy (prop stored "isRead") && truthy (prop stored "readDate")) eqn:Hs.
  - destruct (Date_value (prop stored "readDate")) as [e|] eqn:He.
    + destruct (A2 eq_refl e eq_refl) as (Ar & Ad & At & _).
      destruct (B2 eq_refl e eq_refl) as (Br & Bd & Bt & _).
      destruct (import_kept_cases (import_kept stored a) b j Hbr Hbd Hj) as (_ & C & _).
      destruct (import_kept_cases (import_kept stored b) a i Har Had Hi) as (_ & D & _).
      rewrite Ar, Ad in C. rewrite Br, Bd in D.
      destruct (C eq_refl _ At) as (C1 & _ & C3 & _).
      destruct (D eq_refl _ Bt) as (D1 & _ & D3 & _).
      rewrite C3, D3. repeat split; try assumption. f_equal. lia.
    + repeat (rewrite (A3 eq_refl eq_refl) || rewrite (B3 eq_refl eq_refl)).
      apply andb_true_iff in Hs as [Hs _]. now repeat split.
  - destruct (A1 eq_refl) as (Ar & Ad). destruct (B1 eq_refl) as (Br & Bd).
    destruct (import_kept_cases (import_kept stored a) b j Hbr Hbd Hj) as (_ & C & _).
    destruct (import_kept_cases (import_kept stored b) a i Har Had Hi) as (_ & D & _).
    rewrite Ar, Ad, Had in C. rewrite Br, Bd, Hbd in D.
    destruct (C eq_refl i Hi) as (C1 & _ & C3 & _).
    destruct (D eq_refl j Hj) as (D1 & _ & D3 & _).
    rewrite C3, D3. repeat split; try assumption. f_equal. lia.
Qed.

(** ** The listing of a store whose articles sit under the keys of their urls *)

Lemma append_inj_l p x y : p ++ x = p ++ y -> x = y.
Proof.
  induction p as [|a p IH]; [trivial|]. rewrite !append_cons. intros [= H]. auto.
Qed.

(** The keys and items that carry the article prefix, as a listing meets
    them. *)
Lemma stored_pairs (m : gmap string jsobj) :
  let L := filter (fun kv : string * jsobj => startsWith kv.1 CONFIG.storage_prefix)
             (map_to_list m) in
  NoDup L.*1
  /\ (forall k a, (k, a) ∈ L <-> m !! k = Some a /\ startsWith k CONFIG.storage_prefix = true)
  /\ (forall k, startsWith k CONFIG.storage_prefix = true ->
        (list_to_map L : gmap string jsobj) !! k = m !! k).
Proof.
  intros L.
  assert (Hnd : NoDup L.*1).
  { apply (sublist_NoDup _ (map_to_list m).*1); [apply NoDup_fst_map_to_list|].
    apply fmap_sublist, sublist_filter. }
  assert (Hin : forall k a,
    (k, a) ∈ L <-> m !! k = Some a /\ startsWith k CONFIG.storage_prefix = true).
  { intros k a. unfold L. rewrite list_elem_of_filter, elem_of_map_to_list. cbn [fst].
    rewrite Is_true_true. split; intros [H1 H2]; split; assumption. }
  split; [exact Hnd|]. split; [exact Hin|].
  intros k Hk. apply option_eq. intros a.
  rewrite <- (elem_of_list_to_map L k a Hnd), Hin.
  split; [intros [H _]; exact H|intros H; split; assumption].
Qed.

Lemma mapOfArticles_fold (L : list (string * jsobj)) : forall (acc : gmap string jsobj) x,
  NoDup L.*1 ->
  (forall k a, (k, a) ∈ L ->
     exists y, y <> "" /\ prop a "url" = JStr y /\ k = CONFIG.storage_prefix ++ y) ->
  fold_left
    (fun m a =>
       match prop a "url" with
       | JStr s => if String.eqb s "" then m else <[s := a]> m
       | _ => m
       end) L.*2 acc !! x
  = match (list_to_map L : gmap string jsobj) !! (CONFIG.storage_prefix ++ x) with
    | Some a => Some a
    | None => acc !! x
    end.
Proof.
  induction L as [|[k a] L IH]; intros acc x Hnd Hk.
  - cbn. now rewrite lookup_empty.
  - cbn [fmap list_fmap fst snd fold_left list_to_map foldr uncurry] in *.
    apply NoDup_cons in Hnd as [Hk1 Hnd].
    destruct (Hk k a) as (y & Hy & Hu & ->); [now left|].
    rewrite Hu. destruct (String.eqb_spec y ""); [contradiction|].
    rewrite IH; [|exact Hnd|intros k' a' H'; apply Hk; now right].
    destruct (decide (y = x)) as [->|Hne].
    + rewrite !lookup_insert_eq.
      now rewrite (not_elem_of_list_to_map_1 L _ Hk1).
    + rewrite !lookup_insert_ne
        by first [exact Hne|intros E; apply Hne; now apply append_inj_l in E].
      reflexivity.
Qed.

Lemma buildCache_fold (L : list (string * jsobj)) : forall (acc : gmap string jsobj) x,
  NoDup L.*1 ->
  (forall k a, (k, a) ∈ L ->
     exists y, y <> "" /\ prop a "url" = JStr y /\ k = CONFIG.storage_prefix ++ y) ->
  fold_left
    (fun c a => if truthy (prop a "url") then <[toPropertyKey (prop a "url") := a]> c else c)
    L.*2 acc !! x
  = match (list_to_map L : gmap string jsobj) !! (CONFIG.storage_prefix ++ x) with
    | Some a => Some a
    | None => acc !! x
    end.
Proof.
  induction L as [|[k a] L IH]; intros acc x Hnd Hk.
  - cbn. now rewrite lookup_empty.
  - cbn [fmap list_fmap fst snd fold_left list_to_map foldr uncurry] in *.
    apply NoDup_cons in Hnd as [Hk1 Hnd].
    destruct (Hk k a) as (y & Hy & Hu & ->); [now left|].
    rewrite Hu. cbn [truthy toPropertyKey].
    destruct (String.eqb_spec y ""); [contradiction|]. cbn [negb].
    rewrite IH; [|exact Hnd|intros k' a' H'; apply Hk; now right].
    destruct (decide (y = x)) as [->|Hne].
    + rewrite !lookup_insert_eq.
      now rewrite (not_elem_of_list_to_map_1 L _ Hk1).
    + rewrite !lookup_insert_ne
        by first [exact Hne|intros E; apply Hne; now apply append_inj_l in E].
      reflexivity.
Qed.

(** In such a store the existing-articles map, built either way, answers
    for a url what the store holds under the key of that url. *)
Lemma mapOfArticles_wellKeyed st x :
  wellKeyed (items st) ->
  mapOfArticles (storedArticles st) !! x = items st !! (CONFIG.storage_prefix ++ x).
Proof.
  intros Hw. destruct (stored_pairs (items st)) as (Hnd & Hin & Hl).
  unfold mapOfArticles, storedArticles.
  rewrite mapOfArticles_fold.
  - rewrite Hl by apply startsWith_app. rewrite lookup_empty.
    now destruct (items st !! _).
  - exact Hnd.
  - intros k a H. apply Hin in H as [H1 H2]. exact (Hw k a H1 H2).
Qed.

Lemma buildCache_wellKeyed st x :
  wellKeyed (items st) ->
  buildCache (storedArticles st) !! x = items st !! (CONFIG.storage_prefix ++ x).
Proof.
  intros Hw. destruct (stored_pairs (items st)) as (Hnd & Hin & Hl).
  unfold buildCache, storedArticles.
  rewrite buildCache_fold.
  - rewrite Hl by apply startsWith_app. rewrite lookup_empty.
    now destruct (items st !! _).
  - exact Hnd.
  - intros k a H. apply Hin in H as [H1 H2]. exact (Hw k a H1 H2).
Qed.

(** ** Sync against a current map *)

Lemma saveArticles_data_step m l :
  saveArticles_data m l = foldl (saveArticles_step m) (Some ∅) l.
Proof. reflexivity. Qed.

Lemma mergeArticleState_Some existing a u :
  prop a "url" = JStr u -> exists r, mergeArticleState existing a = Some r.
Proof.
  intros Hu. unfold mergeArticleState, normalizeUrl_val. rewrite Hu.
  destruct existing as [e|].
  - destruct (truthy (prop e "url")); [cbn; eauto|].
    destruct (negb (truthy (JStr u))); cbn; eauto.
  - destruct (negb (truthy (JStr u))); cbn; eauto.
Qed.

Lemma saveArticles_step_Some m acc a :
  exists acc', saveArticles_step m (Some acc) a = Some acc'
    /\ ((acc' = acc /\ (forall u, prop a "url" = JStr u -> validateUrl (JStr u) = false))
        \/ exists u r, prop a "url" = JStr u /\ validateUrl (JStr u) = true
             /\ mergeArticleState (m !! normalizeUrl1 u) a = Some r
             /\ acc' = <[getStorageKey (normalizeUrl1 u) := r]> acc).
Proof.
  unfold saveArticles_step. cbn [mbind option_bind].
  destruct (prop a "url") as [| | | |u|] eqn:Hu;
    try (exists acc; split;
         [now destruct (negb _ || negb _)|left; split; [reflexivity|discriminate]]).
  destruct (validateUrl (JStr u)) eqn:Hv.
  - rewrite (validateUrl_truthy u Hv). cbn [negb orb].
    destruct (mergeArticleState_Some (m !! normalizeUrl1 u) a u Hu) as [r Hr].
    rewrite Hr. cbn. eexists. split; [reflexivity|]. right. exists u, r. now repeat split.
  - rewrite orb_true_r. exists acc. split; [reflexivity|]. left. split; [reflexivity|].
    now intros u' [= <-].
Qed.

(** The batch always has its data: the merge cannot fail on an article
    whose url is a string. Every valid article of the batch has a record
    under its key. *)
Lemma saveArticles_data_fwd m l : forall acc,
  exists data,
    foldl (saveArticles_step m) (Some acc) l = Some data
    /\ (forall k, is_Some (acc !! k) -> is_Some (data !! k))
    /\ (forall a u, a ∈ l -> prop a "url" = JStr u -> validateUrl (JStr u) = true ->
          is_Some (data !! getStorageKey (normalizeUrl1 u))).
Proof.
  induction l as [|a l IH]; intros acc; cbn [foldl].
  - exists acc. split; [reflexivity|]. split; [auto|]. intros a u H. inversion H.
  - destruct (saveArticles_step_Some m acc a) as (acc' & -> & Hstep).
    destruct (IH acc') as (data & Hrun & Hkeep & Hnew).
    exists data. split; [exact Hrun|]. split.
    + intros k Hk. apply Hkeep.
      destruct Hstep as [[-> _]|(u & r & _ & _ & _ & ->)]; [exact Hk|].
      destruct (decide (getStorageKey (normalizeUrl1 u) = k)) as [->|Hne].
      * rewrite lookup_insert_eq. eauto.
      * now rewrite lookup_insert_ne.
    + intros b u Hb Hu Hv. apply elem_of_cons in Hb as [->|Hb]; [|now apply (Hnew b u)].
      apply Hkeep.
      destruct Hstep as [[_ Hbad]|(u' & r & Hu' & _ & _ & ->)].
      * rewrite (Hbad u Hu) in Hv. discriminate.
      * rewrite Hu in Hu'. injection Hu' as <-. rewrite lookup_insert_eq. eauto.
Qed.

Lemma saveArticles_data_Some m l : exists data, saveArticles_data m l = Some data.
Proof.
  rewrite saveArticles_data_step.
  destruct (saveArticles_data_fwd m l ∅) as (data & H & _). eauto.
Qed.

(** A batch save with the map supplied: no read, and at most one write. *)
Lemma saveArticles_with_map l m w data :
  l <> [] -> saveArticles_data m l = Some data ->
  saveArticles l (Some m) w
  = if bool_decide (data = ∅) then (Ok tt, w) else chrome_storage_set data w.
Proof.
  intros Hl Hd. unfold saveArticles. destruct l as [|a l]; [contradiction|].
  unfold mbind, M_bind, mret, M_ret. rewrite Hd. now destruct (bool_decide (data = ∅)).
Qed.

Lemma sync_pending_elem m drafts a :
  a ∈ sync_pending m drafts ->
  exists d u, validDraft drafts d u /\ m !! normalizeUrl1 u = None
              /\ a = <["url" := JStr (normalizeUrl1 u)]> d.
Proof.
  unfold sync_pending. rewrite list_elem_of_omap. intros (e & He & H).
  destruct e as [d|v]; [|discriminate].
  destruct (prop d "url") as [| | | |u|] eqn:Hu; try discriminate.
  destruct (validateUrl (JStr u)) eqn:Hv; cbn [negb] in H; [|discriminate].
  case_bool_decide as Hm; [discriminate|]. injection H as <-.
  exists d, u. split; [now repeat split|]. split; [|reflexivity].
  destruct (m !! normalizeUrl1 u) eqn:E; [exfalso; apply Hm; eauto|reflexivity].
Qed.

Lemma sync_pending_intro m drafts d u :
  validDraft drafts d u -> m !! normalizeUrl1 u = None ->
  <["url" := JStr (normalizeUrl1 u)]> d ∈ sync_pending m drafts.
Proof.
  intros (Hd & Hu & Hv) Hm. unfold sync_pending. rewrite list_elem_of_omap.
  exists (Obj d). split; [exact Hd|]. rewrite Hu, Hv. cbn [negb].
  rewrite bool_decide_eq_false_2; [reflexivity|].
  rewrite Hm. intros [x Hx]. discriminate.
Qed.

Lemma prop_insert_url d v : prop (<["url" := v]> d) "url" = v.
Proof. unfold prop. now rewrite lookup_insert_eq. Qed.

(** The map that a sync consults when no snapshot is served: it is built
    from a listing made now, and building it writes nothing. *)
Lemma getExistingArticlesMap_current w :
  servedSnapshot w = None ->
  match getExistingArticlesMap w with
  | (Ok m, w1) =>
      getError (storage w) = None
      /\ items (storage w1) = items (storage w)
      /\ getError (storage w1) = None
      /\ setError (storage w1) = setError (storage w)
      /\ (cache w = None -> cache w1 = None)
      /\ (wellKeyed (items (storage w)) ->
          forall x, m !! x = items (storage w) !! (CONFIG.storage_prefix ++ x))
  | (Thrown _, w1) =>
      getError (storage w) <> None /\ items (storage w1) = items (storage w)
  end.
Proof.
  intros Hs. unfold getExistingArticlesMap.
  destruct (cache w) as [cs|] eqn:Hc.
  - unfold try_catch. destruct (getError (storage w)) as [message|] eqn:He.
    + rewrite (getArticlesCache_reload_fail w cs message Hc Hs He).
      unfold mbind, M_bind. erewrite getAllArticles_fail by exact He.
      split; [discriminate|reflexivity].
    + rewrite (getArticlesCache_reload w cs Hc Hs He).
      split; [reflexivity|]. split; [reflexivity|]. split; [exact He|].
      split; [reflexivity|]. split; [discriminate|].
      intros Hw x. now apply buildCache_wellKeyed.
  - unfold mbind, M_bind. destruct (getError (storage w)) as [message|] eqn:He.
    + rewrite (getAllArticles_fail w message He). split; [discriminate|reflexivity].
    + rewrite (getAllArticles_ok w He). cbn. rewrite Hc.
      split; [reflexivity|]. split; [reflexivity|]. split; [exact He|].
      split; [reflexivity|]. split; [reflexivity|].
      intros Hw x. now apply mapOfArticles_wellKeyed.
Qed.

Lemma syncArticles_unfold e l w :
  syncArticles (e :: l) w
  = match getExistingArticlesMap w with
    | (Ok m, w1) =>
        match sync_pending m (e :: l) with
        | [] => (Ok 0, w1)
        | p :: ps =>
            match saveArticles (p :: ps) (Some m) w1 with
            | (Ok _, w2) => (Ok (Z.of_nat (length (p :: ps))), w2)
            | (Thrown message, w2) => (Thrown message, w2)
            end
        end
    | (Thrown message, w1) => (Thrown message, w1)
    end.
Proof.
  unfold syncArticles, mbind, M_bind, mret, M_ret.
  destruct (getExistingArticlesMap w) as [[m|message] w1]; [|reflexivity].
  destruct (sync_pending m (e :: l)) as [|p ps]; [reflexivity|].
  destruct (saveArticles (p :: ps) (Some m) w1) as [[[]|message] w2]; reflexivity.
Qed.

(** What a sync does to the stored items when no snapshot is served. *)
Lemma syncArticles_items drafts w :
  servedSnapshot w = None ->
  exists m data,
    (wellKeyed (items (storage w)) ->
     forall x, m !! x = items (storage w) !! (CONFIG.storage_prefix ++ x))
    /\ saveArticles_data m (sync_pending m drafts) = Some data
    /\ (items (storage (syncArticles drafts w).2) = items (storage w)
        \/ items (storage (syncArticles drafts w).2) = data ∪ items (storage w))
    /\ (getError (storage w) = None -> setError (storage w) = None ->
        (syncArticles drafts w).1 = Ok (Z.of_nat (length (sync_pending m drafts)))
        /\ items (storage (syncArticles drafts w).2) = data ∪ items (storage w)
        /\ getError (storage (syncArticles drafts w).2) = None
        /\ setError (storage (syncArticles drafts w).2) = None
        /\ (cache w = None -> cache (syncArticles drafts w).2 = None)).
Proof.
  intros Hs. pose proof (getExistingArticlesMap_current w Hs) as Hm.
  destruct drafts as [|e l].
  - exists (mapOfArticles (storedArticles (storage w))), ∅.
    split; [intros Hw x; now apply mapOfArticles_wellKeyed|].
    split; [reflexivity|]. change (syncArticles [] w) with (@Ok Z 0, w). cbn [fst snd].
    split; [now left|].
    intros Hg Hse. rewrite (left_id_L ∅ (∪)). repeat split; try assumption. auto.
  - rewrite syncArticles_unfold.
    destruct (getExistingArticlesMap w) as [[m|message] w1].
    + destruct Hm as (Hg & Hi & Hg1 & Hs1 & Hc1 & Hlook).
      destruct (saveArticles_data_Some m (sync_pending m (e :: l))) as [data Hdata].
      exists m, data. split; [exact Hlook|]. split; [exact Hdata|].
      destruct (sync_pending m (e :: l)) as [|p ps] eqn:Hp.
      * injection Hdata as <-. rewrite (left_id_L ∅ (∪)). cbn [fst snd].
        split; [now left|]. intros _ Hse. repeat split; try assumption. congruence.
      * rewrite (saveArticles_with_map (p :: ps) m w1 data) by (discriminate || exact Hdata).
        case_bool_decide as Hempty.
        -- subst data. rewrite (left_id_L ∅ (∪)). cbn [fst snd].
           split; [now left|]. intros _ Hse. repeat split; try assumption. congruence.
        -- unfold chrome_storage_set. cbn [log_call setError].
           destruct (setError (storage w1)) as [message|] eqn:Hse1; cbn.
           ++ split; [now left|]. intros _ Hse. congruence.
           ++ rewrite Hi. split; [now right|]. intros _ _. now repeat split.
    + destruct Hm as (Hg & Hi).
      destruct (saveArticles_data_Some (mapOfArticles (storedArticles (storage w)))
                  (sync_pending (mapOfArticles (storedArticles (storage w))) (e :: l)))
        as [data Hdata].
      exists (mapOfArticles (storedArticles (storage w))), data.
      split; [intros Hw x; now apply mapOfArticles_wellKeyed|].
      split; [exact Hdata|]. cbn [fst snd]. split; [now left|]. intros Hg'. contradiction.
Qed.

(** Every record that a sync writes sits under the key of a draft that the
    map does not hold, and carries the normal form of that draft's url. *)
Lemma sync_data_inv m drafts data k r :
  (forall d u, validDraft drafts d u -> normalizeUrl1 (normalizeUrl1 u) = normalizeUrl1 u) ->
  saveArticles_data m (sync_pending m drafts) = Some data ->
  data !! k = Some r ->
  exists d u, validDraft drafts d u /\ m !! normalizeUrl1 u = None
    /\ normalizeUrl1 u <> ""
    /\ k = CONFIG.storage_prefix ++ normalizeUrl1 u
    /\ prop r "url" = JStr (normalizeUrl1 u).
Proof.
  intros Hstable Hdata Hk.
  destruct (saveArticles_data_inv m _ data k r Hdata Hk) as (a & v & Ha & Hv & Hvalid & -> & Hm).
  destruct (sync_pending_elem m drafts a Ha) as (d & u & Hd & Hnone & ->).
  rewrite prop_insert_url in Hv. injection Hv as <-.
  pose proof (Hstable d u Hd) as Hfix.
  pose proof (validateUrl_nonempty _ Hvalid) as Hne.
  exists d, u. split; [exact Hd|]. split; [exact Hnone|]. split; [exact Hne|].
  split; [rewrite Hfix; now apply getStorageKey_fixed|].
  rewrite Hfix, Hnone in Hm. unfold mergeArticleState, normalizeUrl_val in Hm.
  rewrite prop_insert_url, (validateUrl_truthy _ Hvalid) in Hm. cbn in Hm.
  injection Hm as <-. fields. now rewrite Hfix.
Qed.

(** X7. A sync that consults a current map (no snapshot is served) never
    changes or removes what the store holds: with every article under the
    key of its url and drafts whose normal form is stable, every item of
    the store is still there, as it was, after the sync, whether the sync
    succeeds or fails. *)
Theorem syncArticles_preserves_stored (drafts : list jselem) (w : world)
    (k : string) (a : jsobj) :
  servedSnapshot w = None ->
  wellKeyed (items (storage w)) ->
  (forall d u, validDraft drafts d u ->
     normalizeUrl1 (normalizeUrl1 u) = normalizeUrl1 u) ->
  items (storage w) !! k = Some a ->
  items (storage (syncArticles drafts w).2) !! k = Some a.
Proof.
  intros Hs Hw Hstable Hk.
  destruct (syncArticles_items drafts w Hs) as (m & data & Hlook & Hdata & [Hi|Hi] & _);
    rewrite Hi; [exact Hk|].
  rewrite lookup_union_r; [exact Hk|].
  destruct (data !! k) as [r|] eqn:E; [exfalso|reflexivity].
  destruct (sync_data_inv m drafts data k r Hstable Hdata E)
    as (d & u & _ & Hnone & _ & -> & _).
  rewrite (Hlook Hw) in Hnone. congruence.
Qed.

Lemma omap_length {A B : Type} (f : A -> option B) (l : list A) :
  (length (omap f l) <= length l)%nat.
Proof.
  induction l as [|a l IH]; [reflexivity|].
  cbn [omap list_omap]. destruct (f a); cbn [length]; lia.
Qed.

(** After a sync that succeeds against a current map, every valid draft has
    a record under the key of its normal form, and every article of the
    store sits under the key of its url. *)
Lemma syncArticles_completes drafts w :
  servedSnapshot w = None ->
  getError (storage w) = None ->
  setError (storage w) = None ->
  wellKeyed (items (storage w)) ->
  (forall d u, validDraft drafts d u ->
     validateUrl (JStr (normalizeUrl1 u)) = true
     /\ normalizeUrl1 (normalizeUrl1 u) = normalizeUrl1 u) ->
  wellKeyed (items (storage (syncArticles drafts w).2))
  /\ (forall d u, validDraft drafts d u ->
        is_Some (items (storage (syncArticles drafts w).2)
                   !! (CONFIG.storage_prefix ++ normalizeUrl1 u)))
  /\ (exists n, (syncArticles drafts w).1 = Ok n /\ 0 <= n <= Z.of_nat (length drafts))
  /\ getError (storage (syncArticles drafts w).2) = None
  /\ setError (storage (syncArticles drafts w).2) = None
  /\ (cache w = None -> cache (syncArticles drafts w).2 = None).
Proof.
  intros Hs Hg Hse Hw Hdrafts.
  assert (Hstable : forall d u, validDraft drafts d u ->
            normalizeUrl1 (normalizeUrl1 u) = normalizeUrl1 u)
    by (intros d u H; apply (Hdrafts d u H)).
  destruct (syncArticles_items drafts w Hs) as (m & data & Hlook & Hdata & _ & Hok).
  destruct (Hok Hg Hse) as (Hrun & Hi & Hg1 & Hs1 & Hc1). specialize (Hlook Hw).
  rewrite Hi. split; [|split; [|split; [|now repeat split]]].
  - intros k a Hk Hp. apply lookup_union_Some_raw in Hk as [Hk|[_ Hk]].
    + destruct (sync_data_inv m drafts data k a Hstable Hdata Hk)
        as (d & u & _ & _ & Hne & -> & Hu). eauto.
    + exact (Hw k a Hk Hp).
  - intros d u Hd. destruct (Hdrafts d u Hd) as [Hvalid Hfix].
    destruct (m !! normalizeUrl1 u) as [e|] eqn:Hm.
    + rewrite Hlook in Hm.
      destruct (data !! (CONFIG.storage_prefix ++ normalizeUrl1 u)) as [r|] eqn:E.
      * rewrite (lookup_union_l' data); rewrite E; eauto.
      * rewrite lookup_union_r by exact E. rewrite Hm. eauto.
    + pose proof (sync_pending_intro m drafts d u Hd Hm) as Hin.
      rewrite saveArticles_data_step in Hdata.
      destruct (saveArticles_data_fwd m (sync_pending m drafts) ∅) as (data' & Hrun' & _ & Hnew).
      rewrite Hdata in Hrun'. injection Hrun' as <-.
      specialize (Hnew _ (normalizeUrl1 u) Hin (prop_insert_url _ _) Hvalid).
      rewrite Hfix, (getStorageKey_fixed _ (validateUrl_nonempty _ Hvalid) Hfix) in Hnew.
      rewrite lookup_union_l'; exact Hnew.
  - exists (Z.of_nat (length (sync_pending m drafts))). split; [exact Hrun|].
    split; [lia|]. apply inj_le. unfold sync_pending. apply omap_length.
Qed.

(** X8. In a context without the cache module, a sync is idempotent: with a
    store that answers and holds every article under the key of its url,
    and drafts whose normal form is valid and stable, a second sync of the
    same drafts finds nothing new: it returns 0 and leaves the stored items
    as the first sync left them. *)
Theorem syncArticles_idempotent (drafts : list jselem) (w : world) :
  cache w = None ->
  getError (storage w) = None ->
  setError (storage w) = None ->
  wellKeyed (items (storage w)) ->
  (forall d u, validDraft drafts d u ->
     validateUrl (JStr (normalizeUrl1 u)) = true
     /\ normalizeUrl1 (normalizeUrl1 u) = normalizeUrl1 u) ->
  let w1 := (syncArticles drafts w).2 in
  (exists n, (syncArticles drafts w).1 = Ok n)
  /\ (syncArticles drafts w1).1 = Ok 0
  /\ items (storage (syncArticles drafts w1).2) = items (storage w1).
Proof.
  intros Hc Hg Hse Hw Hdrafts w1.
  assert (Hs : servedSnapshot w = None) by (unfold servedSnapshot; now rewrite Hc).
  destruct (syncArticles_completes drafts w Hs Hg Hse Hw Hdrafts)
    as (Hw1 & Hall & (n & Hn & _) & Hg1 & Hs1 & Hc1).
  fold w1 in Hw1, Hall, Hg1, Hs1, Hc1. specialize (Hc1 Hc).
  split; [eauto|].
  assert (Hsn : servedSnapshot w1 = None) by (unfold servedSnapshot; now rewrite Hc1).
  destruct (syncArticles_items drafts w1 Hsn) as (m & data & Hlook & Hdata & _ & Hok).
  destruct (Hok Hg1 Hs1) as (Hrun & Hi & _). specialize (Hlook Hw1).
  assert (Hp : sync_pending m drafts = []).
  { apply sync_pending_tracked. intros d u H1 H2 H3.
    rewrite Hlook. apply (Hall d u). now repeat split. }
  rewrite Hp in Hrun, Hdata. injection Hdata as <-.
  rewrite (left_id_L ∅ (∪)) in Hi. now split.
Qed.

(** ** What a single save does *)

(** The three ways in which [saveArticle] ends. *)
Lemma saveArticle_cases a w :
  match saveArticle a w with
  | (Ok (Some r), w') =>
      exists u existing,
        prop a "url" = JStr u
        /\ validateArticleStructure a = true
        /\ validateUrl (JStr u) = true
        /\ setError (storage w) = None
        /\ existing = (if validateUrl (JStr (normalizeUrl1 u))
                       then items (storage w) !! getStorageKey (normalizeUrl1 (normalizeUrl1 u))
                       else None)
        /\ r = article (JStr (normalizeUrl1 u))
                 (js_or (js_or (prop a "title") (and_prop existing "title")) (JStr ""))
                 (js_or (js_or (prop a "publishedDate") (and_prop existing "publishedDate"))
                        (JStr ""))
                 (js_or (js_or (js_or (prop a "dateText") (prop a "publishedDate"))
                               (and_prop existing "dateText")) (JStr ""))
                 (determineReadStatus (clock w) existing a).1
                 (determineReadStatus (clock w) existing a).2
        /\ items (storage w') = <[getStorageKey (normalizeUrl1 u) := r]> (items (storage w))
        /\ getError (storage w') = getError (storage w)
        /\ setError (storage w') = None
        /\ cache w' = cache w
        /\ clock w' = clock w
  | (Ok None, w') =>
      w' = w /\ validateArticleStructure a && validateUrl (prop a "url") = false
  | (Thrown _, w') =>
      items (storage w') = items (storage w)
      /\ (getError (storage w) <> None \/ setError (storage w) <> None)
      /\ cache w' = cache w
      /\ clock w' = clock w
  end.
Proof.
  unfold saveArticle.
  destruct (truthy (prop a "url")) eqn:Ht; cbn [negb].
  2:{ split; [reflexivity|]. unfold validateArticleStructure. now rewrite Ht. }
  destruct (validateArticleStructure a) eqn:Hs; cbn [negb]; [|now split].
  destruct (validateUrl (prop a "url")) eqn:Hv; cbn [negb]; [|now split].
  destruct (prop a "url") as [| | | |u|] eqn:Hu; try discriminate Hv.
  destruct (getArticle_spec (normalizeUrl1 u) w) as (o & Hrun & Ho).
  unfold mbind, M_bind at 1. rewrite Hrun.
  set (w1 := if validateUrl (JStr (normalizeUrl1 u)) then _ else w) in *.
  assert (Hw1 : items (storage w1) = items (storage w)
                /\ getError (storage w1) = getError (storage w)
                /\ setError (storage w1) = setError (storage w)
                /\ cache w1 = cache w /\ clock w1 = clock w).
  { unfold w1. destruct (validateUrl (JStr (normalizeUrl1 u))); now repeat split. }
  destruct Hw1 as (Hi1 & Hg1 & Hs1 & Hc1 & Hk1).
  destruct o as [existing|message].
  - destruct Ho as [Hex Hg].
    unfold Date_now, mbind, M_bind. rewrite Hk1.
    destruct (determineReadStatus (clock w) existing a) as [isRead readDate] eqn:Hrs.
    unfold chrome_storage_set. cbn [log_call setError]. rewrite Hs1.
    destruct (setError (storage w)) as [message|] eqn:Hse; cbn.
    + repeat split; try assumption. right. discriminate.
    + exists u, existing. rewrite Hi1, Hg1, Hrs. cbn [fst snd].
      repeat split; try assumption; try reflexivity.
      symmetry. apply insert_union_singleton_l.
  - destruct Ho as [_ Hg]. repeat split; try assumption. left. congruence.
Qed.

Lemma saveArticle_invalid a w :
  validateArticleStructure a && validateUrl (prop a "url") = false ->
  saveArticle a w = (Ok None, w).
Proof.
  intros H. unfold saveArticle.
  destruct (truthy (prop a "url")); cbn [negb]; [|reflexivity].
  destruct (validateArticleStructure a); cbn [negb]; [|reflexivity].
  cbn [andb] in H. now rewrite H.
Qed.

(** X9. The three ways in which [saveArticle] ends. An article that fails
    [validateArticleStructure] or [validateUrl] is answered with null and
    no call to the store is made. Otherwise the call returns the record it
    wrote, which sits under the key of the article's url while every other
    item is as it was, or it throws because the store reported an error,
    and then the stored items are as they were. *)
Theorem saveArticle_outcome (a : jsobj) (w : world) :
  (validateArticleStructure a && validateUrl (prop a "url") = false ->
   saveArticle a w = (Ok None, w))
  /\ match saveArticle a w with
     | (Ok (Some r), w') =>
         exists u, prop a "url" = JStr u
           /\ prop r "url" = JStr (normalizeUrl1 u)
           /\ items (storage w')
              = <[getStorageKey (normalizeUrl1 u) := r]> (items (storage w))
     | (Ok None, w') =>
         w' = w /\ validateArticleStructure a && validateUrl (prop a "url") = false
     | (Thrown _, w') =>
         items (storage w') = items (storage w)
         /\ (getError (storage w) <> None \/ setError (storage w) <> None)
     end.
Proof.
  split; [apply saveArticle_invalid|].
  pose proof (saveArticle_cases a w) as H.
  destruct (saveArticle a w) as [[[r|]|message] w'].
  - destruct H as (u & existing & Hu & _ & _ & _ & _ & Hr & Hi & _).
    exists u. split; [exact Hu|]. split; [|exact Hi]. rewrite Hr. now fields.
  - exact H.
  - destruct H as (Hi & He & _). now split.
Qed.

Lemma getStorageKey_prefixed x : x <> "" -> startsWith (getStorageKey x) CONFIG.storage_prefix = true.
Proof.
  intros Hx. unfold getStorageKey. destruct (String.eqb_spec x ""); [contradiction|].
  apply startsWith_app.
Qed.

Lemma storedArticles_elem st r :
  r ∈ storedArticles st <->
  exists k, items st !! k = Some r /\ startsWith k CONFIG.storage_prefix = true.
Proof.
  destruct (stored_pairs (items st)) as (_ & Hin & _).
  unfold storedArticles. rewrite list_elem_of_fmap. split.
  - intros ([k a] & -> & H). apply Hin in H. exists k. exact H.
  - intros (k & H). exists (k, r). split; [reflexivity|]. now apply Hin.
Qed.

(** X10. What [saveArticle] stored is found again: after a save that
    returned a record, with a store that answers reads, [getArticle] of the
    url that was saved returns that record, and a listing of the store
    holds it (the normal form of a url being no empty string). *)
Theorem saveArticle_then_getArticle (a r : jsobj) (w w' : world) :
  getError (storage w) = None ->
  saveArticle a w = (Ok (Some r), w') ->
  exists u, prop a "url" = JStr u
    /\ (getArticle u w').1 = Ok (Some r)
    /\ (normalizeUrl1 u <> "" ->
        exists l, (getAllArticles w').1 = Ok l /\ r ∈ l).
Proof.
  intros Hg Hrun. pose proof (saveArticle_cases a w) as H. rewrite Hrun in H.
  destruct H as (u & existing & Hu & _ & Hv & _ & _ & _ & Hi & Hg' & _).
  rewrite Hg in Hg'. exists u. split; [exact Hu|]. split.
  - destruct (getArticle_spec u w') as (o & Hget & Ho). rewrite Hget. cbn [fst].
    rewrite Hv in Ho. destruct o as [found|message]; [|destruct Ho; congruence].
    destruct Ho as [-> _]. now rewrite Hi, lookup_insert_eq.
  - intros Hn. rewrite (getAllArticles_ok w' Hg'). eexists. split; [reflexivity|].
    apply storedArticles_elem. exists (getStorageKey (normalizeUrl1 u)).
    split; [now rewrite Hi, lookup_insert_eq|now apply getStorageKey_prefixed].
Qed.

(** X11. A save that says nothing about [isRead] keeps the read state of
    the stored article: with a record under the key of the article's normal
    form (which is valid and stable), the record that [saveArticle] writes
    in its place carries the read state of that record. *)
Theorem saveArticle_keeps_read_state (a e r : jsobj) (u : string) (w w' : world) :
  prop a "url" = JStr u ->
  hasOwnProperty a "isRead" = false ->
  validateUrl (JStr (normalizeUrl1 u)) = true ->
  normalizeUrl1 (normalizeUrl1 u) = normalizeUrl1 u ->
  items (storage w) !! (CONFIG.storage_prefix ++ normalizeUrl1 u) = Some e ->
  saveArticle a w = (Ok (Some r), w') ->
  readState r = readStateRead e
  /\ items (storage w')
     = <[CONFIG.storage_prefix ++ normalizeUrl1 u := r]> (items (storage w)).
Proof.
  intros Hu Hown Hvn Hfix He Hrun.
  pose proof (saveArticle_cases a w) as H. rewrite Hrun in H.
  destruct H as (u' & existing & Hu' & _ & _ & _ & Hex & Hr & Hi & _).
  rewrite Hu in Hu'. injection Hu' as <-.
  pose proof (getStorageKey_fixed _ (validateUrl_nonempty _ Hvn) Hfix) as Hkey.
  rewrite Hvn, Hfix, Hkey, He in Hex. subst existing.
  split; [|now rewrite Hi, Hkey].
  rewrite Hr. unfold readState, readStateRead, determineReadStatus. fields.
  now rewrite Hown.
Qed.

(** ** The structure of what is written *)

Lemma validateArticleStructure_fields a :
  validateArticleStructure a = true ->
  truthy (prop a "url") = true /\ is_string (prop a "url") = true
  /\ stringy (prop a "title") /\ stringy (prop a "publishedDate")
  /\ stringy (prop a "dateText") /\ booly (prop a "isRead")
  /\ stringy (prop a "readDate")
  /\ (is_undefined (prop a "readDate") = false ->
      prop a "readDate" = JNull \/ is_string (prop a "readDate") = true).
Proof.
  unfold validateArticleStructure, stringy, booly. intros H.
  repeat (apply andb_true_iff in H as [H ?]).
  repeat split; try assumption.
  - now destruct (prop a "title").
  - now destruct (prop a "publishedDate").
  - now destruct (prop a "dateText").
  - now destruct (prop a "isRead").
  - destruct (prop a "readDate"); try discriminate; trivial.
  - intros Hu. destruct (prop a "readDate"); try discriminate; auto.
Qed.

Lemma stringy_js_or x y : stringy x -> stringy y -> stringy (js_or x y).
Proof. unfold stringy, js_or. destruct (truthy x); auto. Qed.

Lemma stringy_default x s : stringy x -> is_string (js_or x (JStr s)) = true.
Proof. unfold stringy, js_or. destruct (truthy x); auto. Qed.

Lemma booly_default x : booly x -> is_boolean (js_or x (JBool false)) = true.
Proof. unfold booly, js_or. destruct (truthy x); auto. Qed.

Lemma stringy_and_prop existing name :
  (forall e, existing = Some e -> stringy (prop e name)) ->
  stringy (and_prop existing name).
Proof.
  intros H. destruct existing as [e|]; cbn [and_prop]; [now apply H|].
  intros Hn. discriminate Hn.
Qed.

(** The record that a save composes passes the structure check when the
    article does and the stored record, when there is one, does. *)
Lemma saved_record_structured now a existing n :
  n <> "" ->
  validateArticleStructure a = true ->
  (forall e, existing = Some e -> validateArticleStructure e = true) ->
  validateArticleStructure
    (article (JStr n)
       (js_or (js_or (prop a "title") (and_prop existing "title")) (JStr ""))
       (js_or (js_or (prop a "publishedDate") (and_prop existing "publishedDate")) (JStr ""))
       (js_or (js_or (js_or (prop a "dateText") (prop a "publishedDate"))
                     (and_prop existing "dateText")) (JStr ""))
       (determineReadStatus now existing a).1
       (determineReadStatus now existing a).2) = true.
Proof.
  intros Hn Ha Hex.
  destruct (validateArticleStructure_fields a Ha) as (_ & _ & At & Ap & Ad & Ar & Ard & Ard').
  assert (Hes : forall name,
    (forall e, existing = Some e -> stringy (prop e name)) -> stringy (and_prop existing name))
    by (intros; now apply stringy_and_prop).
  assert (Et : stringy (and_prop existing "title")).
  { apply Hes. intros e He. now destruct (validateArticleStructure_fields e (Hex e He)) as (_&_&?&_). }
  assert (Ep : stringy (and_prop existing "publishedDate")).
  { apply Hes. intros e He. now destruct (validateArticleStructure_fields e (Hex e He)) as (_&_&_&?&_). }
  assert (Ed : stringy (and_prop existing "dateText")).
  { apply Hes. intros e He. now destruct (validateArticleStructure_fields e (Hex e He)) as (_&_&_&_&?&_). }
  unfold validateArticleStructure. fields. cbn [truthy is_string].
  destruct (String.eqb_spec n ""); [contradiction|]. cbn [negb andb].
  rewrite (stringy_default _ "" (stringy_js_or _ _ At Et)).
  rewrite (stringy_default _ "" (stringy_js_or _ _ Ap Ep)).
  rewrite (stringy_default _ "" (stringy_js_or _ _ (stringy_js_or _ _ Ad Ap) Ed)).
  rewrite !orb_true_r. cbn [andb].
  unfold determineReadStatus.
  destruct (hasOwnProperty a "isRead").
  - cbn [fst snd]. rewrite (booly_default _ Ar), orb_true_r. cbn [andb].
    destruct (is_undefined (prop a "readDate")) eqn:Hu.
    + now destruct (truthy (js_or (prop a "isRead") (JBool false))).
    + destruct (Ard' eq_refl) as [->|Hs]; [reflexivity|]. rewrite Hs. apply orb_true_r.
  - destruct existing as [e|]; cbn [fst snd].
    + destruct (validateArticleStructure_fields e (Hex e eq_refl))
        as (_ & _ & _ & _ & _ & Er & Erd & _).
      rewrite (booly_default _ Er), orb_true_r. cbn [andb].
      unfold js_or. destruct (truthy (prop e "readDate")) eqn:Ht; [|reflexivity].
      rewrite (Erd Ht). apply orb_true_r.
    + rewrite (booly_default _ Ar), orb_true_r. cbn [andb].
      unfold js_or. destruct (truthy (prop a "readDate")) eqn:Ht; [|reflexivity].
      rewrite (Ard Ht). apply orb_true_r.
Qed.

(** X12. [saveArticle] keeps the store well structured: when every stored
    item passes [validateArticleStructure], so does every item after the
    call, whatever the article and however the call ends (the normal form
    of the article's url being no empty string). *)
Theorem saveArticle_well_structured (a : jsobj) (w : world) :
  wellStructured (items (storage w)) ->
  (forall u, prop a "url" = JStr u -> normalizeUrl1 u <> "") ->
  wellStructured (items (storage (saveArticle a w).2)).
Proof.
  intros Hw Hn. pose proof (saveArticle_cases a w) as H.
  destruct (saveArticle a w) as [[[r|]|message] w']; cbn [snd].
  - destruct H as (u & existing & Hu & Ha & _ & _ & Hex & Hr & Hi & _).
    rewrite Hi. intros k e Hk.
    destruct (decide (getStorageKey (normalizeUrl1 u) = k)) as [<-|Hne].
    + rewrite lookup_insert_eq in Hk. injection Hk as <-. rewrite Hr.
      apply saved_record_structured; [now apply Hn|exact Ha|].
      intros e He. rewrite Hex in He.
      destruct (validateUrl (JStr (normalizeUrl1 u))); [|discriminate].
      exact (Hw _ _ He).
    + rewrite lookup_insert_ne in Hk by exact Hne. exact (Hw k e Hk).
  - destruct H as [-> _]. exact Hw.
  - destruct H as (Hi & _). now rewrite Hi.
Qed.

(** ** Marking an article that the store holds *)

(** A url that the store holds a record for is answered with that record;
    nothing is created. *)
Lemma getOrCreateArticle_found u t p d w rec :
  validateUrl (JStr u) = true ->
  validateUrl (JStr (normalizeUrl1 u)) = true ->
  getError (storage w) = None ->
  items (storage w) !! getStorageKey (normalizeUrl1 (normalizeUrl1 u)) = Some rec ->
  getOrCreateArticle u t p d w
  = (Ok (Some rec),
     mkWorld (log_call (StorageGet (Some [getStorageKey (normalizeUrl1 (normalizeUrl1 u))]))
                (storage w)) (cache w) (clock w)).
Proof.
  intros Hv Hvn Hg Hrec. unfold getOrCreateArticle. rewrite Hv. cbn [negb].
  destruct (getArticle_spec (normalizeUrl1 u) w) as (o & Hrun & Ho).
  rewrite Hvn in Hrun, Ho. unfold mbind, M_bind. rewrite Hrun.
  destruct o as [found|message]; [|destruct Ho; congruence].
  destruct Ho as [-> _]. now rewrite Hrec.
Qed.

(** Saving a well-formed record of the store again, with a read state set:
    the record is written back with that read state, its url, title and
    publication date as they were, and its date text filled from the
    publication date when it was empty. *)
Lemma saveArticle_marked w n t0 p0 d0 r0 rd0 (b : bool) (X : jsval) :
  validateUrl (JStr n) = true ->
  normalizeUrl1 n = n ->
  getError (storage w) = None ->
  setError (storage w) = None ->
  items (storage w) !! (CONFIG.storage_prefix ++ n)
    = Some (article (JStr n) (JStr t0) (JStr p0) (JStr d0) r0 rd0) ->
  (X = JNull \/ exists s, X = JStr s) ->
  exists w',
    saveArticle (article (JStr n) (JStr t0) (JStr p0) (JStr d0) (JBool b) X) w
    = (Ok (Some (article (JStr n) (JStr t0) (JStr p0)
                   (JStr (if String.eqb d0 "" then p0 else d0)) (JBool b) X)), w')
    /\ items (storage w')
       = <[CONFIG.storage_prefix ++ n :=
             article (JStr n) (JStr t0) (JStr p0)
               (JStr (if String.eqb d0 "" then p0 else d0)) (JBool b) X]>
           (items (storage w))
    /\ getError (storage w') = None
    /\ setError (storage w') = None
    /\ cache w' = cache w
    /\ clock w' = clock w.
Proof.
  intros Hvn Hfix Hg Hs Hrec HX.
  pose proof (getStorageKey_fixed n (validateUrl_nonempty n Hvn) Hfix) as Hkey.
  set (rec := article (JStr n) (JStr t0) (JStr p0) (JStr d0) r0 rd0) in *.
  set (a := article (JStr n) (JStr t0) (JStr p0) (JStr d0) (JBool b) X).
  destruct (saveArticle_spec a n w (Some rec) (JBool b) X)
    as (w' & Hrun & Hi & Hg' & Hs' & Hc' & Hk'); try assumption; try reflexivity.
  - unfold validateArticleStructure, a. fields.
    rewrite (validateUrl_truthy n Hvn). cbn.
    destruct HX as [->|[s ->]]; reflexivity.
  - now rewrite !Hfix, Hvn, Hkey.
  - unfold determineReadStatus, a. rewrite hasOwnProperty_article. fields.
    destruct HX as [->|[s ->]]; now destruct b.
  - assert (Hd : article (JStr (normalizeUrl1 n))
        (js_or (js_or (prop a "title") (and_prop (Some rec) "title")) (JStr ""))
        (js_or (js_or (prop a "publishedDate") (and_prop (Some rec) "publishedDate"))
               (JStr ""))
        (js_or (js_or (js_or (prop a "dateText") (prop a "publishedDate"))
                      (and_prop (Some rec) "dateText")) (JStr ""))
        (JBool b) X
      = article (JStr n) (JStr t0) (JStr p0) (JStr (if String.eqb d0 "" then p0 else d0))
          (JBool b) X).
    { unfold a, rec. cbn [and_prop]. fields. rewrite Hfix, !js_or_str_same.
      rewrite js_or_dateText; [reflexivity|].
      destruct (String.eqb_spec d0 "") as [->|Hd]; [now left|now right]. }
    rewrite Hd in Hrun, Hi. rewrite Hfix, Hkey in Hi.
    exists w'. now repeat split.
Qed.

(** X13. [markAsRead] of an article that the store holds: with a store
    that answers and a well-formed record under the key of the url's normal
    form (valid and stable), the call writes the record back as read and
    dated with the clock's time stamp, whatever read state and date it had;
    url, title and publication date stay, the other items of the store are
    as they were, and the texts read from the page are not used. *)
Theorem markAsRead_stored (w : world) (u title publishedDate dateText : string)
    (n t0 p0 d0 : string) (r0 rd0 : jsval) :
  validateUrl (JStr u) = true ->
  normalizeUrl1 u = n ->
  validateUrl (JStr n) = true ->
  normalizeUrl1 n = n ->
  getError (storage w) = None ->
  setError (storage w) = None ->
  items (storage w) !! (CONFIG.storage_prefix ++ n)
    = Some (article (JStr n) (JStr t0) (JStr p0) (JStr d0) r0 rd0) ->
  let record :=
    article (JStr n) (JStr t0) (JStr p0) (JStr (if String.eqb d0 "" then p0 else d0))
      (JBool true) (JStr (toISOString (clock w))) in
  exists w',
    markAsRead u title publishedDate dateText w = (Ok (Some record), w')
    /\ items (storage w') = <[CONFIG.storage_prefix ++ n := record]> (items (storage w)).
Proof.
  intros Hv Hu Hvn Hfix Hg Hs Hrec record. subst n.
  pose proof (getStorageKey_fixed _ (validateUrl_nonempty _ Hvn) Hfix) as Hkey.
  unfold markAsRead. rewrite Hv. cbn [negb]. unfold mbind, M_bind at 1.
  rewrite (getOrCreateArticle_found u title publishedDate dateText w
             (article (JStr (normalizeUrl1 u)) (JStr t0) (JStr p0) (JStr d0) r0 rd0)
             Hv Hvn Hg)
    by (rewrite Hfix, Hkey; exact Hrec).
  unfold Date_now, mbind, M_bind. cbn [clock]. rewrite article_set_read.
  set (w0 := mkWorld _ _ _).
  destruct (saveArticle_marked w0 (normalizeUrl1 u) t0 p0 d0 r0 rd0 true
              (JStr (toISOString (clock w))))
    as (w' & Hrun & Hi & _); try assumption; [right; eauto|].
  exists w'. split; [exact Hrun|exact Hi].
Qed.

(** X14. [markAsUnread] of an article that the store holds: under the same
    conditions the call writes the record back as unread with a null read
    date, whatever read state and date it had; url, title and publication
    date stay, and the other items of the store are as they were. *)
Theorem markAsUnread_stored (w : world) (u title publishedDate dateText : string)
    (n t0 p0 d0 : string) (r0 rd0 : jsval) :
  validateUrl (JStr u) = true ->
  normalizeUrl1 u = n ->
  validateUrl (JStr n) = true ->
  normalizeUrl1 n = n ->
  getError (storage w) = None ->
  setError (storage w) = None ->
  items (storage w) !! (CONFIG.storage_prefix ++ n)
    = Some (article (JStr n) (JStr t0) (JStr p0) (JStr d0) r0 rd0) ->
  let record :=
    article (JStr n) (JStr t0) (JStr p0) (JStr (if String.eqb d0 "" then p0 else d0))
      (JBool false) JNull in
  exists w',
    markAsUnread u title publishedDate dateText w = (Ok (Some record), w')
    /\ items (storage w') = <[CONFIG.storage_prefix ++ n := record]> (items (storage w)).
Proof.
  intros Hv Hu Hvn Hfix Hg Hs Hrec record. subst n.
  pose proof (getStorageKey_fixed _ (validateUrl_nonempty _ Hvn) Hfix) as Hkey.
  unfold markAsUnread. rewrite Hv. cbn [negb]. unfold mbind, M_bind at 1.
  rewrite (getOrCreateArticle_found u title publishedDate dateText w
             (article (JStr (normalizeUrl1 u)) (JStr t0) (JStr p0) (JStr d0) r0 rd0)
             Hv Hvn Hg)
    by (rewrite Hfix, Hkey; exact Hrec).
  rewrite article_set_read.
  set (w0 := mkWorld _ _ _).
  destruct (saveArticle_marked w0 (normalizeUrl1 u) t0 p0 d0 r0 rd0 false JNull)
    as (w' & Hrun & Hi & _); try assumption; [now left|].
  exists w'. split; [exact Hrun|exact Hi].
Qed.

(** X15. A stored record that does not pass the structure check cannot be
    marked: when the record that [markAsRead] finds for the url still fails
    [validateArticleStructure] once it is set read and dated (its title,
    publication date or date text is neither undefined nor a string, as an
    import can leave them), the call returns null and the stored items stay
    as they were. *)
Theorem markAsRead_ill_structured (w : world) (u title publishedDate dateText : string)
    (rec : jsobj) :
  validateUrl (JStr u) = true ->
  validateUrl (JStr (normalizeUrl1 u)) = true ->
  getError (storage w) = None ->
  items (storage w) !! getStorageKey (normalizeUrl1 (normalizeUrl1 u)) = Some rec ->
  validateArticleStructure
    (<["readDate" := JStr (toISOString (clock w))]> (<["isRead" := JBool true]> rec)) = false ->
  (markAsRead u title publishedDate dateText w).1 = Ok None
  /\ items (storage (markAsRead u title publishedDate dateText w).2) = items (storage w).
Proof.
  intros Hv Hvn Hg Hrec Hbad.
  assert (E : markAsRead u title publishedDate dateText w
              = (Ok None,
                 mkWorld (log_call (StorageGet
                            (Some [getStorageKey (normalizeUrl1 (normalizeUrl1 u))]))
                            (storage w)) (cache w) (clock w))).
  { unfold markAsRead. rewrite Hv. cbn [negb]. unfold mbind, M_bind at 1.
    rewrite (getOrCreateArticle_found u title publishedDate dateText w rec Hv Hvn Hg Hrec).
    unfold Date_now, mbind, M_bind. cbn [clock].
    now rewrite saveArticle_invalid by (now rewrite Hbad). }
  rewrite E. split; reflexivity.
Qed.

(** ** The read cache: patches and fresh snapshots *)

(** X16. A patch of the held snapshot is seen by the next point lookup:
    after [updateCacheArticle(url, article)] the lookup of [url] answers
    the article, after [updateCacheArticle(url, null)] it answers null, and
    the lookup of a url with another normal form answers as before. The
    patch touches neither the store nor the time stamp of the snapshot, so
    the snapshot expires when it would have. *)
Theorem updateCacheArticle_then_lookup (st : chrome_storage) (held : gmap string jsobj)
    (stamp now : Z) (url : string) (a : jsobj) (record : option jsobj) :
  let w := mkWorld st (Some (mkCache (Some held) stamp)) now in
  (url <> "" ->
     getArticleFromCache url (updateCacheArticle url (Some a) w).2 = Some a
     /\ getArticleFromCache url (updateCacheArticle url None w).2 = None)
  /\ (forall url', normalizeUrl1 url' <> normalizeUrl1 url ->
        getArticleFromCache url' (updateCacheArticle url record w).2
        = getArticleFromCache url' w)
  /\ storage (updateCacheArticle url record w).2 = st
  /\ exists held',
       cache (updateCacheArticle url record w).2 = Some (mkCache (Some held') stamp).
Proof.
  intros w.
  assert (E1 : forall o, updateCacheArticle url (Some o) w
            = (Ok tt, mkWorld st (Some (mkCache (Some (<[normalizeUrl1 url := o]> held)) stamp))
                        now)) by reflexivity.
  assert (E2 : updateCacheArticle url None w
            = (Ok tt, mkWorld st (Some (mkCache (Some (delete (normalizeUrl1 url) held)) stamp))
                        now)) by reflexivity.
  split; [|split; [|split]].
  - intros Hu. rewrite E1, E2. unfold getArticleFromCache. cbn.
    destruct (String.eqb_spec url ""); [contradiction|].
    now rewrite lookup_insert_eq, lookup_delete_eq.
  - intros url' Hne. destruct record as [o|]; rewrite ?E1, ?E2;
      unfold getArticleFromCache; cbn; destruct (String.eqb url' ""); try reflexivity.
    + now rewrite lookup_insert_ne.
    + now rewrite lookup_delete_ne.
  - destruct record; now rewrite ?E1, ?E2.
  - destruct record; rewrite ?E1, ?E2; cbn; eauto.
Qed.

(** X17. A snapshot that was just loaded answers point lookups as the
    store does: after a get that reloads (no snapshot was served, the store
    answers), for a store that holds every article under the key of its url
    and a valid url whose normal form is stable and not empty,
    [getArticleFromCache] and [Storage.getArticle] return the same record
    or both null. *)
Theorem getArticlesCache_fresh_lookup (w : world) (cs : cache_state) (url : string) :
  cache w = Some cs ->
  servedSnapshot w = None ->
  getError (storage w) = None ->
  wellKeyed (items (storage w)) ->
  validateUrl (JStr url) = true ->
  normalizeUrl1 url <> "" ->
  normalizeUrl1 (normalizeUrl1 url) = normalizeUrl1 url ->
  let w' := (getArticlesCache w).2 in
  (getArticle url w').1 = Ok (getArticleFromCache url w')
  /\ getArticleFromCache url w'
     = items (storage w) !! (CONFIG.storage_prefix ++ normalizeUrl1 url).
Proof.
  intros Hc Hs Hg Hw Hv Hn Hfix w'.
  unfold w'. rewrite (getArticlesCache_reload w cs Hc Hs Hg). cbn [snd].
  assert (Hl : getArticleFromCache url
                 (mkWorld (log_call (StorageGet None) (storage w))
                    (Some (mkCache (Some (buildCache (storedArticles (storage w)))) (clock w)))
                    (clock w))
               = items (storage w) !! (CONFIG.storage_prefix ++ normalizeUrl1 url)).
  { unfold getArticleFromCache. cbn.
    destruct (String.eqb_spec url "") as [->|_]; [discriminate Hv|].
    now apply buildCache_wellKeyed. }
  split; [|exact Hl]. rewrite Hl.
  destruct (getArticle_spec url
              (mkWorld (log_call (StorageGet None) (storage w))
                 (Some (mkCache (Some (buildCache (storedArticles (storage w)))) (clock w)))
                 (clock w))) as (o & Hrun & Ho).
  rewrite Hrun. cbn [fst]. rewrite Hv in Ho. cbn in Ho.
  destruct o as [found|message]; [|destruct Ho; congruence].
  destruct Ho as [-> _]. now rewrite (getStorageKey_fixed _ Hn Hfix).
Qed.

(** ** Import: what it leaves of the store *)

Lemma getArticlesCache_frame w :
  items (storage (getArticlesCache w).2) = items (storage w)
  /\ getError (storage (getArticlesCache w).2) = getError (storage w)
  /\ setError (storage (getArticlesCache w).2) = setError (storage w).
Proof.
  destruct (cache w) as [cs|] eqn:Hc.
  - destruct (servedSnapshot w) as [held|] eqn:Hs.
    + rewrite (getArticlesCache_served w held Hs). now repeat split.
    + destruct (getError (storage w)) as [message|] eqn:He.
      * rewrite (getArticlesCache_reload_fail w cs message Hc Hs He). now repeat split.
      * rewrite (getArticlesCache_reload w cs Hc Hs He). now repeat split.
  - unfold getArticlesCache, Date_now, cacheVars, mbind, M_bind. rewrite Hc.
    now repeat split.
Qed.

Lemma getAllArticles_frame w :
  items (storage (getAllArticles w).2) = items (storage w)
  /\ getError (storage (getAllArticles w).2) = getError (storage w)
  /\ setError (storage (getAllArticles w).2) = setError (storage w).
Proof.
  destruct (getError (storage w)) as [message|] eqn:He.
  - rewrite (getAllArticles_fail w message He). now repeat split.
  - rewrite (getAllArticles_ok w He). now repeat split.
Qed.

Lemma getExistingArticlesMap_frame w :
  items (storage (getExistingArticlesMap w).2) = items (storage w)
  /\ getError (storage (getExistingArticlesMap w).2) = getError (storage w)
  /\ setError (storage (getExistingArticlesMap w).2) = setError (storage w).
Proof.
  assert (Hfb : forall w0,
    items (storage ((existingArticles ← getAllArticles;
                     mret (mapOfArticles existingArticles)) w0).2) = items (storage w0)
    /\ getError (storage ((existingArticles ← getAllArticles;
                     mret (mapOfArticles existingArticles)) w0).2) = getError (storage w0)
    /\ setError (storage ((existingArticles ← getAllArticles;
                     mret (mapOfArticles existingArticles)) w0).2) = setError (storage w0)).
  { intros w0. pose proof (getAllArticles_frame w0) as H.
    unfold mbind, M_bind, mret, M_ret.
    destruct (getAllArticles w0) as [[l|message] w1]; exact H. }
  unfold getExistingArticlesMap. destruct (cache w) as [cs|]; [|apply Hfb].
  unfold try_catch. pose proof (getArticlesCache_frame w) as H.
  destruct (getArticlesCache w) as [[m|message] w1]; [exact H|].
  cbn [snd] in H. destruct H as (Hi & Hg & Hs).
  destruct (Hfb w1) as (Hi' & Hg' & Hs'). repeat split; congruence.
Qed.

(** A batch save either adds its data to the store in one write, or leaves
    the stored items as they were. *)
Lemma saveArticles_frame l mo w :
  match saveArticles l mo w with
  | (Ok _, w') => exists data, items (storage w') = data ∪ items (storage w)
  | (Thrown _, w') => items (storage w') = items (storage w)
  end.
Proof.
  unfold saveArticles. destruct l as [|a l].
  { exists ∅. now rewrite (left_id_L ∅ (∪)). }
  set (getMap := match mo with Some m => mret m | None => getExistingArticlesMap end).
  assert (Hmap : items (storage (getMap w).2) = items (storage w)
                 /\ setError (storage (getMap w).2) = setError (storage w)).
  { unfold getMap. destruct mo; [now split|].
    destruct (getExistingArticlesMap_frame w) as (H1 & _ & H3). now split. }
  unfold mbind, M_bind. destruct (getMap w) as [[m|message] w1]; cbn [snd] in Hmap.
  - destruct Hmap as [Hi Hs].
    destruct (saveArticles_data m (a :: l)) as [data|]; [|exact Hi].
    case_bool_decide.
    + exists ∅. now rewrite (left_id_L ∅ (∪)).
    + unfold chrome_storage_set. cbn [log_call setError].
      destruct (setError (storage w1)); cbn; [exact Hi|]. exists data. now rewrite Hi.
  - apply Hmap.
Qed.

Lemma processImportBatch_frame articles w :
  items (storage (processImportBatch articles w).2) = items (storage w).
Proof.
  unfold processImportBatch, mbind, M_bind.
  pose proof (Promise_all_map_import (validArticles articles) w) as H.
  destruct (Promise_all_map import_one (validArticles articles) w) as [[results|message] w'];
    apply H.
Qed.

Lemma importDataFromFile_frame articles w :
  match importDataFromFile articles w with
  | (Ok _, w') => exists data, items (storage w') = data ∪ items (storage w)
  | (Thrown _, w') => items (storage w') = items (storage w)
  end.
Proof.
  unfold importDataFromFile. unfold mbind, M_bind at 1.
  pose proof (processImportBatch_frame articles w) as H1.
  destruct (processImportBatch articles w) as [[r|message] w1]; cbn [snd] in H1; [|exact H1].
  unfold mbind, M_bind, mret, M_ret.
  destruct (articlesToSave r) as [|a l].
  - exists ∅. now rewrite (left_id_L ∅ (∪)).
  - pose proof (saveArticles_frame (a :: l) None w1) as H2.
    destruct (saveArticles (a :: l) None w1) as [[[]|message] w2]; rewrite <- H1; exact H2.
Qed.

(** The import of a document that passes the validation is the import of
    its articles: the checks that [processImportBatch] makes on its
    argument pass. A document that fails the validation is rejected before
    any call to the store. *)
Lemma importDataFromFile_parsed_cases doc w :
  match articles_of doc with
  | Some articles =>
      valid (validateImportData doc) = true
      /\ importDataFromFile_parsed doc w = importDataFromFile articles w
  | None =>
      valid (validateImportData doc) = false
      /\ exists message,
           message <> "" /\ error (validateImportData doc) = Some message
           /\ importDataFromFile_parsed doc w = (Thrown message, w)
  end.
Proof.
  unfold importDataFromFile_parsed, articles_of, validateImportData, processImportBatch_checked.
  destruct doc as [fields|elems|v]; cbn.
  - destruct (fields !! "articles") as [[articles|v]|]; cbn;
      try (split; [reflexivity|]; eexists; split; [|split; reflexivity]; discriminate).
    split; reflexivity.
  - split; [reflexivity|]. eexists; split; [|split; reflexivity]; discriminate.
  - split; [reflexivity|]. eexists; split; [|split; reflexivity]; discriminate.
Qed.

(** X18. An import document is validated before the store is touched: a
    document that is not an object with an array under [articles] (a
    primitive, null, an array, an object without the property or with
    another value there) makes [importDataFromFile] throw the validation
    message with the browser state unchanged; a document that passes is
    imported as its array of articles, the argument checks of
    [processImportBatch] never failing after the validation. *)
Theorem importDataFromFile_validates (importData : import_doc) (w : world) :
  match articles_of importData with
  | Some articles =>
      valid (validateImportData importData) = true
      /\ importDataFromFile_parsed importData w
         = (r ← processImportBatch articles;
            _ ← match articlesToSave r with
                | [] => mret tt
                | _ => saveArticles (articlesToSave r) None
                end;
            mret (imported r, updated r, skipped r)) w
  | None =>
      valid (validateImportData importData) = false
      /\ exists message,
           message <> "" /\ error (validateImportData importData) = Some message
           /\ importDataFromFile_parsed importData w = (Thrown message, w)
  end.
Proof. exact (importDataFromFile_parsed_cases importData w). Qed.

(** X19. An import is all or nothing and never removes an item: when
    [importDataFromFile] throws (the document is invalid, or the store
    reports an error on a read or on the one write), the stored items are
    as they were; when it returns, every key that the store held is still
    there. *)
Theorem importDataFromFile_atomic (importData : import_doc) (w : world) :
  match importDataFromFile_parsed importData w with
  | (Ok _, w') =>
      forall k, is_Some (items (storage w) !! k) -> is_Some (items (storage w') !! k)
  | (Thrown _, w') => items (storage w') = items (storage w)
  end.
Proof.
  pose proof (importDataFromFile_parsed_cases importData w) as H.
  destruct (articles_of importData) as [articles|].
  - destruct H as [_ ->]. pose proof (importDataFromFile_frame articles w) as H.
    destruct (importDataFromFile articles w) as [[counts|message] w']; [|exact H].
    destruct H as [data ->]. intros k [x Hk].
    destruct (data !! k) as [y|] eqn:E.
    + exists y. apply lookup_union_Some_raw. now left.
    + exists x. apply lookup_union_Some_raw. now right.
  - destruct H as (_ & message & _ & _ & ->). reflexivity.
Qed.

(** ** Import: the read state of what is stored *)

Lemma import_one_url entry w r a w' :
  import_one entry w = (Ok r, w') -> r.2 = Some a ->
  prop a "url" = prop entry.2 "url".
Proof.
  destruct entry as [url o]. unfold import_one, mbind, M_bind.
  destruct (getArticle url w) as [[[e|]|message] w1]; try discriminate.
  - destruct (mergeArticleDataForImport e o) as [merged|] eqn:Hm.
    + intros [= <- _] [= <-]. now apply mergeArticleDataForImport_accepted in Hm.
    + intros [= <- _]. discriminate.
  - destruct (negb (truthy (prop o "isRead"))).
    + intros [= <- _]. discriminate.
    + intros [= <- _] [= <-]. now fields.
Qed.

Lemma Promise_all_map_urls valid : forall w results w',
  Promise_all_map import_one valid w = (Ok results, w') ->
  forall res a, res ∈ results -> res.2 = Some a ->
    exists entry, entry ∈ valid /\ prop a "url" = prop entry.2 "url".
Proof.
  induction valid as [|entry valid IH]; intros w results w'; cbn [Promise_all_map].
  - intros [= <- _] res a H. inversion H.
  - destruct (import_one entry w) as [[r|message] w1] eqn:H1.
    + destruct (Promise_all_map import_one valid w1) as [[rs|message] w2] eqn:H2;
        [|discriminate].
      intros [= <- _] res a Hin Ha. apply elem_of_cons in Hin as [->|Hin].
      * exists entry. split; [now left|]. exact (import_one_url entry w r a w1 H1 Ha).
      * destruct (IH w1 rs w2 H2 res a Hin Ha) as (en & Hen & Hu).
        exists en. split; [now right|exact Hu].
    + destruct (Promise_all_map import_one valid w1); discriminate.
Qed.

Lemma validArticles_elem articles u o :
  (u, o) ∈ validArticles articles ->
  Obj o ∈ articles /\ prop o "url" = JStr u /\ validateUrl (JStr u) = true.
Proof.
  unfold validArticles. rewrite list_elem_of_omap. intros (e & He & H).
  destruct e as [o'|v]; [|discriminate].
  destruct (prop o' "url") as [| | | |s|] eqn:Hu; try discriminate.
  destruct (validateArticle (Obj o') && validateUrl (JStr s)) eqn:Hv; [|discriminate].
  injection H as <- <-. apply andb_true_iff in Hv as [_ Hv]. now repeat split.
Qed.

(** Every article that a batch hands to the save carries the url of a valid
    entry of the batch. *)
Lemma processImportBatch_urls articles w r w' a :
  processImportBatch articles w = (Ok r, w') ->
  a ∈ articlesToSave r ->
  exists o u, Obj o ∈ articles /\ prop o "url" = JStr u
              /\ validateUrl (JStr u) = true /\ prop a "url" = JStr u.
Proof.
  unfold processImportBatch, mbind, M_bind.
  destruct (Promise_all_map import_one (validArticles articles) w)
    as [[results|message] w1] eqn:Hrun; [|discriminate].
  intros [= <- _]. cbn [articlesToSave]. rewrite list_elem_of_omap.
  intros (res & Hres & Ha). apply list_elem_of_filter in Hres as [_ Hres].
  destruct (Promise_all_map_urls _ w results w1 Hrun res a Hres Ha) as ([u o] & Hen & Hu).
  apply validArticles_elem in Hen as (Ho & Hou & Hv). cbn [snd] in Hu.
  exists o, u. repeat split; try assumption. congruence.
Qed.

(** What a batch save that builds its own map does to the stored items
    when no snapshot is served. *)
Lemma saveArticles_own_map l w :
  servedSnapshot w = None ->
  exists m data,
    (wellKeyed (items (storage w)) ->
     forall x, m !! x = items (storage w) !! (CONFIG.storage_prefix ++ x))
    /\ saveArticles_data m l = Some data
    /\ (items (storage (saveArticles l None w).2) = items (storage w)
        \/ items (storage (saveArticles l None w).2) = data ∪ items (storage w))
    /\ (getError (storage w) = None -> setError (storage w) = None ->
        (saveArticles l None w).1 = Ok tt
        /\ items (storage (saveArticles l None w).2) = data ∪ items (storage w)).
Proof.
  intros Hs. pose proof (getExistingArticlesMap_current w Hs) as Hm.
  destruct l as [|a l].
  - exists (mapOfArticles (storedArticles (storage w))), ∅.
    split; [intros Hw x; now apply mapOfArticles_wellKeyed|].
    split; [reflexivity|]. change (saveArticles [] None w) with (Ok tt, w). cbn [fst snd].
    rewrite (left_id_L ∅ (∪)). split; [now left|]. now split.
  - unfold saveArticles, mbind, M_bind.
    destruct (getExistingArticlesMap w) as [[m|message] w1].
    + destruct Hm as (Hg & Hi & Hg1 & Hs1 & _ & Hlook).
      destruct (saveArticles_data_Some m (a :: l)) as [data Hdata].
      exists m, data. split; [exact Hlook|]. split; [exact Hdata|]. rewrite Hdata.
      case_bool_decide as Hempty.
      * subst data. rewrite (left_id_L ∅ (∪)). cbn [fst snd].
        split; [now left|]. intros _ _. now split.
      * unfold chrome_storage_set. cbn [log_call setError].
        destruct (setError (storage w1)) as [message|] eqn:Hse1; cbn.
        -- split; [now left|]. intros _ Hse. congruence.
        -- rewrite Hi. split; [now right|]. intros _ _. now split.
    + destruct Hm as (Hg & Hi).
      destruct (saveArticles_data_Some (mapOfArticles (storedArticles (storage w))) (a :: l))
        as [data Hdata].
      exists (mapOfArticles (storedArticles (storage w))), data.
      split; [intros Hw x; now apply mapOfArticles_wellKeyed|].
      split; [exact Hdata|]. cbn [fst snd]. split; [now left|]. intros Hg'. contradiction.
Qed.

Lemma importDataFromFile_unfold articles w :
  importDataFromFile articles w
  = match processImportBatch articles w with
    | (Ok r, w1) =>
        match articlesToSave r with
        | [] => (Ok (imported r, updated r, skipped r), w1)
        | a :: l =>
            match saveArticles (a :: l) None w1 with
            | (Ok _, w2) => (Ok (imported r, updated r, skipped r), w2)
            | (Thrown message, w2) => (Thrown message, w2)
            end
        end
    | (Thrown message, w1) => (Thrown message, w1)
    end.
Proof.
  unfold importDataFromFile. unfold mbind, M_bind at 1.
  destruct (processImportBatch articles w) as [[r|message] w1]; [|reflexivity].
  unfold mbind, M_bind, mret, M_ret.
  destruct (articlesToSave r) as [|a l]; [reflexivity|].
  destruct (saveArticles (a :: l) None w1) as [[[]|message] w2]; reflexivity.
Qed.

Lemma processImportBatch_world articles w :
  items (storage (processImportBatch articles w).2) = items (storage w)
  /\ getError (storage (processImportBatch articles w).2) = getError (storage w)
  /\ setError (storage (processImportBatch articles w).2) = setError (storage w)
  /\ cache (processImportBatch articles w).2 = cache w
  /\ clock (processImportBatch articles w).2 = clock w.
Proof.
  unfold processImportBatch, mbind, M_bind.
  pose proof (Promise_all_map_import (validArticles articles) w) as H.
  destruct (Promise_all_map import_one (validArticles articles) w) as [[results|message] w'];
    destruct H as (H1 & H2 & H3 & H4 & H5 & _); now repeat split.
Qed.

(** X20. An import never changes the read state of an article that the
    store holds. Where no snapshot is served (as in the popup), with every
    article under the key of its url and entries whose normal form is
    stable, every stored article is still stored under its key after
    [importDataFromFile], with the read state it had, as every merge reads
    it: the entries' read dates, later or not, do not reach it. *)
Theorem importDataFromFile_keeps_read_state (articles : list jselem) (w : world)
    (k : string) (rec : jsobj) :
  servedSnapshot w = None ->
  wellKeyed (items (storage w)) ->
  (forall o u, Obj o ∈ articles -> prop o "url" = JStr u -> validateUrl (JStr u) = true ->
     normalizeUrl1 (normalizeUrl1 u) = normalizeUrl1 u) ->
  items (storage w) !! k = Some rec ->
  startsWith k CONFIG.storage_prefix = true ->
  exists rec',
    items (storage (importDataFromFile articles w).2) !! k = Some rec'
    /\ readStateRead rec' = readStateRead rec.
Proof.
  intros Hs Hw Hstable Hk Hp.
  rewrite importDataFromFile_unfold.
  destruct (processImportBatch_world articles w) as (Hi & _ & _ & Hc & Hcl).
  pose proof (processImportBatch_urls articles w) as Hurls.
  destruct (processImportBatch articles w) as [[r|message] w1]; cbn [snd] in Hi, Hc, Hcl;
    [|exists rec; cbn [snd]; now rewrite Hi].
  specialize (Hurls r w1).
  destruct (articlesToSave r) as [|a l] eqn:Hl;
    [exists rec; cbn [snd]; now rewrite Hi|].
  assert (Hs1 : servedSnapshot w1 = None)
    by (unfold servedSnapshot in *; now rewrite Hc, Hcl).
  destruct (saveArticles_own_map (a :: l) w1 Hs1) as (m & data & Hlook & Hdata & Hitems & _).
  rewrite Hi in Hlook. specialize (Hlook Hw).
  assert (Hres : items (storage (saveArticles (a :: l) None w1).2) = items (storage w)
                 \/ items (storage (saveArticles (a :: l) None w1).2)
                    = data ∪ items (storage w)) by (now rewrite <- Hi).
  assert (Hgoal : exists rec',
    items (storage (saveArticles (a :: l) None w1).2) !! k = Some rec'
    /\ readStateRead rec' = readStateRead rec).
  { destruct Hres as [->| ->]; [now exists rec|].
    destruct (data !! k) as [r'|] eqn:E.
    - exists r'. split; [apply lookup_union_Some_raw; now left|].
      destruct (saveArticles_data_inv m _ data k r' Hdata E)
        as (b & v & Hb & Hv & Hvalid & Hkey & Hm).
      destruct (Hurls b) as (o & u & Ho & Hou & Hvu & Hbu); [reflexivity|exact Hb|].
      rewrite Hv in Hbu. injection Hbu as ->.
      pose proof (Hstable o u Ho Hou Hvu) as Hfix.
      assert (Hn : normalizeUrl1 u <> "").
      { intros E0. rewrite Hkey in Hp. unfold getStorageKey in Hp. rewrite E0 in Hp.
        discriminate Hp. }
      rewrite (getStorageKey_fixed _ Hn Hfix) in Hkey. subst k.
      rewrite Hlook, Hk in Hm.
      destruct (mergeArticleState_existing rec b r' Hm) as [H1 H2].
      unfold readStateRead. now rewrite H1, H2, !js_or_idem.
    - exists rec. split; [|reflexivity]. now rewrite lookup_union_r. }
  destruct (saveArticles (a :: l) None w1) as [[[]|message] w2]; exact Hgoal.
Qed.

(** ** Export, then import into an empty store *)

Lemma js_or_str_empty s : js_or (JStr s) (JStr "") = JStr s.
Proof.
  unfold js_or. cbn [truthy]. destruct (String.eqb_spec s "") as [->|]; reflexivity.
Qed.

Lemma js_or_readDate rd :
  (rd = JNull \/ exists s, s <> "" /\ rd = JStr s) -> js_or rd JNull = rd.
Proof.
  intros [->|(s & Hs & ->)]; [reflexivity|].
  unfold js_or. cbn [truthy]. now destruct (String.eqb_spec s "").
Qed.

Lemma js_or_dateText_plain d p :
  (d = "" -> p = "") -> js_or (js_or (JStr d) (JStr p)) (JStr "") = JStr d.
Proof.
  intros H. unfold js_or. cbn [truthy].
  destruct (String.eqb_spec d "") as [->|Hd]; cbn [negb].
  - rewrite (H eq_refl). reflexivity.
  - cbn [truthy]. now destruct (String.eqb_spec d "").
Qed.

(** What the import and the save make of a record in stored form. *)
Lemma storedForm_facts k a :
  storedForm k a ->
  exists n,
    prop a "url" = JStr n /\ validateUrl (JStr n) = true
    /\ getStorageKey (normalizeUrl1 n) = k /\ k = CONFIG.storage_prefix ++ n
    /\ normalizeUrl1 n = n
    /\ (prop a "isRead" = JBool true \/ prop a "isRead" = JBool false)
    /\ (prop a "isRead" = JBool true ->
        article (prop a "url") (js_or (prop a "title") (JStr ""))
          (js_or (prop a "publishedDate") (JStr ""))
          (js_or (js_or (prop a "dateText") (prop a "publishedDate")) (JStr ""))
          (JBool true) (js_or (prop a "readDate") JNull) = a
        /\ mergeArticleState None a = Some a).
Proof.
  intros (n & t & p & d & b & rd & -> & -> & Hv & Hfix & Hd & Hrd).
  exists n. fields. split; [reflexivity|]. split; [exact Hv|].
  split; [rewrite Hfix; now apply getStorageKey_fixed, Hfix; apply validateUrl_nonempty|].
  split; [reflexivity|]. split; [exact Hfix|]. split; [destruct b; auto|].
  intros [= ->].
  assert (E : article (JStr n) (js_or (JStr t) (JStr "")) (js_or (JStr p) (JStr ""))
                (js_or (js_or (JStr d) (JStr p)) (JStr "")) (JBool true) (js_or rd JNull)
              = article (JStr n) (JStr t) (JStr p) (JStr d) (JBool true) rd).
  { now rewrite !js_or_str_empty, (js_or_dateText_plain d p Hd), (js_or_readDate rd Hrd). }
  split; [exact E|].
  unfold mergeArticleState, normalizeUrl_val. fields.
  rewrite (validateUrl_truthy n Hv). cbn [negb mbind option_bind]. rewrite Hfix.
  f_equal. exact E.
Qed.

(** With an empty store every entry in stored form is new: it is imported
    when it is read and skipped when it is not. *)
Lemma Promise_all_map_fresh (arts : list jsobj) : forall w,
  (forall a, a ∈ arts -> exists k, storedForm k a) ->
  items (storage w) = ∅ ->
  getError (storage w) = None ->
  exists w',
    Promise_all_map import_one (validArticles (Obj <$> arts)) w
      = (Ok (import_fresh <$> arts), w')
    /\ length (validArticles (Obj <$> arts)) = length arts
    /\ items (storage w') = ∅
    /\ getError (storage w') = None
    /\ setError (storage w') = setError (storage w)
    /\ cache w' = cache w
    /\ clock w' = clock w.
Proof.
  induction arts as [|a arts IH]; intros w Hform Hempty Hg.
  - exists w. now repeat split.
  - destruct (Hform a) as (k & Hk); [now left|].
    destruct (storedForm_facts k a Hk) as (n & Hu & Hv & Hkey & _ & Hfix & Hb & Hread).
    rewrite fmap_cons, validArticles_cons, Hu.
    cbn [validateArticle]. rewrite Hu, (validateUrl_truthy n Hv), Hv. cbn [andb].
    cbn [Promise_all_map length].
    assert (H1 : exists w1,
      import_one (n, a) w = (Ok (import_fresh a), w1)
      /\ items (storage w1) = ∅ /\ getError (storage w1) = None
      /\ setError (storage w1) = setError (storage w)
      /\ cache w1 = cache w /\ clock w1 = clock w).
    { unfold import_one. destruct (getArticle_spec n w) as (o & Hrun & Ho).
      unfold mbind, M_bind. rewrite Hrun. rewrite Hv in Ho |- *.
      destruct o as [found|message]; [|destruct Ho; congruence].
      destruct Ho as [-> _]. rewrite Hempty, lookup_empty.
      unfold import_fresh.
      destruct Hb as [Hb|Hb]; rewrite Hb; cbn [truthy negb].
      - destruct (Hread Hb) as [E _]. rewrite E.
        rewrite decide_True by reflexivity. eexists. split; [reflexivity|now repeat split].
      - rewrite decide_False by discriminate.
        eexists. split; [reflexivity|now repeat split]. }
    destruct H1 as (w1 & Hrun1 & Hi1 & Hg1 & Hs1 & Hc1 & Hk1). rewrite Hrun1.
    destruct (IH w1) as (w' & Hrun & Hlen & Hi & Hg' & Hs' & Hc' & Hk');
      [intros b Hb'; apply Hform; now right|exact Hi1|exact Hg1|].
    rewrite Hrun. exists w'. rewrite fmap_cons.
    repeat split; try assumption; congruence.
Qed.

Lemma import_fresh_cases a :
  (prop a "isRead" = JBool true /\ import_fresh a = (imported_t, Some a))
  \/ (prop a "isRead" <> JBool true /\ import_fresh a = (skipped_t, None)).
Proof.
  unfold import_fresh. destruct (decide (prop a "isRead" = JBool true)); [left|right];
    now split.
Qed.

Lemma import_fresh_to_save (arts : list jsobj) :
  omap snd (filter (fun r : import_type * option jsobj => r.1 ≠ skipped_t)
              (import_fresh <$> arts))
  = filter (fun a => prop a "isRead" = JBool true) arts.
Proof.
  induction arts as [|a arts IH]; [reflexivity|].
  rewrite fmap_cons, !filter_cons.
  destruct (import_fresh_cases a) as [[Hr ->]|[Hr ->]]; cbn [fst].
  - rewrite decide_True by discriminate. rewrite decide_True by exact Hr.
    cbn [omap list_omap snd]. now rewrite IH.
  - rewrite decide_False by (intros H; now apply H). rewrite decide_False by exact Hr.
    exact IH.
Qed.

Lemma import_fresh_counts (arts : list jsobj) :
  count_type imported_t (import_fresh <$> arts)
  = Z.of_nat (length (filter (fun a => prop a "isRead" = JBool true) arts))
  /\ count_type updated_t (import_fresh <$> arts) = 0
  /\ count_type skipped_t (import_fresh <$> arts)
     = Z.of_nat (length arts)
       - Z.of_nat (length (filter (fun a => prop a "isRead" = JBool true) arts)).
Proof.
  unfold count_type. induction arts as [|a arts (IH1 & IH2 & IH3)]; [now repeat split|].
  rewrite fmap_cons, !filter_cons.
  destruct (import_fresh_cases a) as [[Hr ->]|[Hr ->]]; cbn [fst];
    repeat case_decide; try congruence; cbn [length]; repeat split; lia.
Qed.

Lemma createExportData_run arts w :
  createExportData arts w
  = (Ok (mkExportData CONFIG_export.version (toISOString (clock w))
           (Z.of_nat (length arts)) arts), w).
Proof. reflexivity. Qed.

Lemma articles_of_export e :
  articles_of (export_document e) = Some (Obj <$> exported_articles e).
Proof.
  unfold articles_of, export_document.
  rewrite !lookup_insert_ne by discriminate. now rewrite lookup_insert_eq.
Qed.

(** The data that the save builds from the read articles of a listing,
    against an empty map: the read records of the store, each under its
    key. *)
Lemma saved_fresh_data (S : gmap string jsobj) arts m data :
  (forall k a, S !! k = Some a -> storedForm k a) ->
  (forall a, a ∈ arts <-> exists k, S !! k = Some a) ->
  (forall x, m !! x = None) ->
  saveArticles_data m (filter (fun a => prop a "isRead" = JBool true) arts) = Some data ->
  data = filter (fun kv : string * jsobj => prop kv.2 "isRead" = JBool true) S.
Proof.
  intros Hform Harts Hm Hdata.
  assert (Hback : forall k r, data !! k = Some r ->
            S !! k = Some r /\ prop r "isRead" = JBool true).
  { intros k r Hk.
    destruct (saveArticles_data_inv m _ data k r Hdata Hk) as (a & v & Ha & Hv & _ & Hkey & Hmerge).
    apply list_elem_of_filter in Ha as [Hread Ha].
    apply Harts in Ha as [k' Hk'].
    destruct (storedForm_facts k' a (Hform k' a Hk')) as (n & Hu & _ & Hkn & _ & _ & _ & Hr).
    rewrite Hu in Hv. injection Hv as <-. rewrite Hkn in Hkey. subst k'.
    rewrite Hm in Hmerge. destruct (Hr Hread) as [_ E]. rewrite E in Hmerge.
    injection Hmerge as <-. now split. }
  apply map_eq. intros k. apply option_eq. intros r.
  rewrite map_lookup_filter_Some. cbn [snd]. split; [apply Hback|].
  intros [Hk Hread].
  destruct (storedForm_facts k r (Hform k r Hk)) as (n & Hu & Hv & Hkn & _ & _ & _ & _).
  assert (Hin : r ∈ filter (fun a => prop a "isRead" = JBool true) arts).
  { apply list_elem_of_filter. split; [exact Hread|]. apply Harts. eauto. }
  rewrite saveArticles_data_step in Hdata.
  destruct (saveArticles_data_fwd m (filter (fun a => prop a "isRead" = JBool true) arts) ∅)
    as (data' & Hrun & _ & Hnew).
  rewrite Hdata in Hrun. injection Hrun as <-.
  destruct (Hnew r n Hin Hu Hv) as [r' Hr']. rewrite Hkn in Hr'.
  destruct (Hback k r' Hr') as [Hk' _]. congruence.
Qed.

(** X21. A backup restores what was read. Take a store whose records are
    in stored form, a listing of it in any order, the export data that
    [createExportData] makes of the listing, and the document read back
    from the exported file. Importing that document into an empty store
    that answers, from the popup, reports the read articles as imported,
    none as updated and the unread ones as skipped, and leaves the store
    holding exactly the read records of the original, each under its key
    and unchanged; the unread records are not restored. *)
Theorem export_import_round_trip (S : gmap string jsobj) (arts : list jsobj)
    (e : export_data) (wx w : world) :
  (forall k a, S !! k = Some a -> storedForm k a) ->
  arts ≡ₚ storedArticles (store_of S) ->
  (createExportData arts wx).1 = Ok e ->
  items (storage w) = ∅ ->
  cache w = None ->
  getError (storage w) = None ->
  setError (storage w) = None ->
  let nread := Z.of_nat (length (filter (fun a => prop a "isRead" = JBool true) arts)) in
  (importDataFromFile_parsed (export_document e) w).1
  = Ok (nread, 0, Z.of_nat (length arts) - nread)
  /\ items (storage (importDataFromFile_parsed (export_document e) w).2)
     = filter (fun kv : string * jsobj => prop kv.2 "isRead" = JBool true) S.
Proof.
  intros Hform Hperm He Hempty Hc Hg Hse nread.
  rewrite createExportData_run in He. injection He as <-.
  pose proof (importDataFromFile_parsed_cases
                (export_document (mkExportData CONFIG_export.version (toISOString (clock wx))
                                    (Z.of_nat (length arts)) arts)) w) as Hparsed.
  rewrite articles_of_export in Hparsed. cbn [exported_articles] in Hparsed.
  destruct Hparsed as [_ ->].
  assert (Harts : forall a, a ∈ arts <-> exists k, S !! k = Some a).
  { intros a. rewrite Hperm, storedArticles_elem. cbn [store_of items]. split.
    - intros (k & Hk & _). eauto.
    - intros (k & Hk). exists k. split; [exact Hk|].
      destruct (Hform k a Hk) as (n & _ & _ & _ & _ & _ & _ & -> & _).
      apply startsWith_app. }
  destruct (Promise_all_map_fresh arts w) as (w1 & Hrun & Hlen & Hi1 & Hg1 & Hs1 & Hc1 & Hk1);
    [intros a Ha; apply Harts in Ha as [k Hk]; eauto|exact Hempty|exact Hg|].
  destruct (import_fresh_counts arts) as (Ci & Cu & Cs).
  rewrite importDataFromFile_unfold.
  unfold processImportBatch, mbind, M_bind. rewrite Hrun. cbn [mret M_ret].
  cbn [articlesToSave imported updated skipped].
  rewrite import_fresh_to_save, Ci, Cu, Cs, Hlen, length_fmap.
  subst nread. set (F := filter (fun a => prop a "isRead" = JBool true) arts) in *.
  replace (Z.of_nat (length arts) - Z.of_nat (length arts)
           + (Z.of_nat (length arts) - Z.of_nat (length F)))
    with (Z.of_nat (length arts) - Z.of_nat (length F)) by lia.
  assert (Hs : servedSnapshot w1 = None) by (unfold servedSnapshot; now rewrite Hc1, Hc).
  assert (HF : forall r, r ∈ F <-> prop r "isRead" = JBool true /\ r ∈ arts)
    by (intros r; unfold F; now rewrite list_elem_of_filter).
  destruct (saveArticles_own_map F w1 Hs) as (m & data & Hlook & Hdata & _ & Hok).
  rewrite Hs1 in Hok. destruct (Hok Hg1 Hse) as [Hrun2 Hi2].
  assert (Hm : forall x, m !! x = None).
  { intros x. rewrite Hlook; [now rewrite Hi1, lookup_empty|].
    rewrite Hi1. intros k a0 H0. rewrite lookup_empty in H0. discriminate. }
  rewrite (saved_fresh_data S arts m data Hform Harts Hm Hdata) in Hi2.
  rewrite Hi1, (right_id_L ∅ (∪)) in Hi2.
  destruct F as [|a l] eqn:HFl.
  - cbn [fst snd]. split; [reflexivity|]. rewrite Hi1. symmetry.
    apply map_eq. intros k. rewrite lookup_empty.
    destruct (filter _ S !! k) as [r|] eqn:E; [exfalso|reflexivity].
    apply map_lookup_filter_Some in E as [Hk Hr]. cbn [snd] in Hr.
    assert (Hin : r ∈ @nil jsobj) by (apply HF; split; [exact Hr|apply Harts; eauto]).
    inversion Hin.
  - destruct (saveArticles (a :: l) None w1) as [[[]|message] w2]; cbn [fst snd] in *;
      [|discriminate Hrun2].
    split; [reflexivity|exact Hi2].
Qed.

(** ** The page filter *)

Lemma setPageFilter_read (filter : jsval) (st : filter_storage) :
  filterGetError st = None ->
  (getPageFilter (setPageFilter filter st).2).1
  = Ok (if is_string filter && bool_decide (filterSetError st = None)
        then js_or filter (JStr CONFIG_filters.all)
        else js_or (default JUndefined (filterItem st)) (JStr CONFIG_filters.all)).
Proof.
  intros Hg. unfold setPageFilter.
  destruct (is_string filter) eqn:Hs; cbn [negb andb].
  - destruct (filterSetError st) as [message|] eqn:Hse; cbn [snd].
    + rewrite bool_decide_eq_false_2 by discriminate.
      unfold getPageFilter. now rewrite Hg.
    + rewrite bool_decide_eq_true_2 by reflexivity.
      unfold getPageFilter. cbn [filterGetError filterItem]. rewrite Hg. reflexivity.
  - cbn [snd]. unfold getPageFilter. now rewrite Hg.
Qed.

(** X22. After [setPageFilter] of a string that the store took,
    [getPageFilter] reads that string, or ["all"] when the string is empty.
    After a call with a value that is no string, or a write that the store
    refused, it reads what it read before: the stored value when that is
    truthy, ["all"] otherwise. *)
Theorem setPageFilter_then_getPageFilter (filter : jsval) (st : filter_storage) :
  filterGetError st = None ->
  (getPageFilter (setPageFilter filter st).2).1
  = Ok (if is_string filter && bool_decide (filterSetError st = None)
        then js_or filter (JStr CONFIG_filters.all)
        else js_or (default JUndefined (filterItem st)) (JStr CONFIG_filters.all)).
Proof. exact (setPageFilter_read filter st). Qed.

(** X23. [setFilter] shows the new filter on the page whatever the store
    does. A page state that is created and initialized afterwards is
    initialized; it shows ["all"] if the store cannot be read; otherwise
    the new filter if that is a non-empty string that the store took,
    ["all"] if the store took the empty string, and the earlier filter if
    the value is no string or the store refused the write. A second
    [initialize] changes nothing, whatever the store holds by then. *)
Theorem PageState_filter_after_reload (filter : jsval) (this : PageState)
    (st st' : filter_storage) :
  let after := PageState_setFilter filter this st in
  let reloaded := (PageState_initialize PageState_new after.2).1 in
  PageState_getFilter after.1 = filter
  /\ isInitialized reloaded = true
  /\ PageState_getFilter reloaded
     = (if bool_decide (filterGetError st = None) then
          if is_string filter && bool_decide (filterSetError st = None)
          then js_or filter (JStr CONFIG_filters.all)
          else js_or (default JUndefined (filterItem st)) (JStr CONFIG_filters.all)
        else JStr CONFIG_filters.all)
  /\ PageState_initialize reloaded st' = (reloaded, st').
Proof.
  cbn zeta. unfold PageState_setFilter.
  destruct (setPageFilter filter st) as [o st1] eqn:Hset. cbn [fst snd].
  split; [reflexivity|].
  assert (Hst1 : st1 = (setPageFilter filter st).2) by now rewrite Hset.
  assert (Herr : filterGetError st1 = filterGetError st).
  { rewrite Hst1. unfold setPageFilter.
    destruct (negb (is_string filter)); [reflexivity|].
    now destruct (filterSetError st). }
  set (shown := if bool_decide (filterGetError st = None) then _ else _).
  assert (Hinit : (PageState_initialize PageState_new st1).1 = mkPageState shown true).
  { unfold PageState_initialize, shown. cbn [PageState_new isInitialized].
    destruct (filterGetError st) as [message|] eqn:Hg.
    - rewrite bool_decide_eq_false_2 by discriminate.
      unfold getPageFilter. rewrite Herr. reflexivity.
    - rewrite bool_decide_eq_true_2 by reflexivity.
      pose proof (setPageFilter_read filter st Hg) as Hread. rewrite <- Hst1 in Hread.
      destruct (getPageFilter st1) as [[f|e] st2] eqn:Hget; cbn [fst] in Hread;
        [|discriminate].
      injection Hread as ->. reflexivity. }
  rewrite Hinit. repeat split.
Qed.

(** ** Timers and the cache invalidation *)

Lemma timers_inv_start manager w : timers_inv (page_start manager w).
Proof. split; intros id t H; cbn in H; now rewrite lookup_empty in H. Qed.

Ltac psimpl :=
  cbn [timers rm_timeouts invalidateTimeout resourceManager page_world
       fallbackCleanupAttached cleanupListeners nextTimer set_world set_invalidateTimeout
       set_rm_timeouts set_timers window_clearTimeout window_setTimeout trackTimeout
       fst snd] in *.

Lemma invalidateCache_cleared_spec s :
  timers_inv s ->
  let s1 := invalidateCache_cleared s in
  no_invalidation s1
  /\ (forall id t, timers s1 !! id = Some t -> via_manager t = true -> id ∈ rm_timeouts s1)
  /\ invalidateTimeout s1 = None
  /\ resourceManager s1 = resourceManager s
  /\ page_world s1 = page_world s
  /\ fallbackCleanupAttached s1 = fallbackCleanupAttached s
  /\ (forall id t, timers s1 !! id = Some t -> timers s !! id = Some t).
Proof.
  intros [I2 I5]. unfold invalidateCache_cleared.
  destruct (invalidateTimeout s) as [id0|] eqn:Hit.
  - destruct (resourceManager s) eqn:Hrm.
    + unfold rm_clearTimeout. case_bool_decide as Hin.
      * cbn zeta. repeat split; try reflexivity; try (psimpl; assumption).
        -- intros id t Hl Hc. psimpl. apply lookup_delete_Some in Hl as [Hne Hl].
           destruct (I2 id t Hl Hc) as [E _]. congruence.
        -- intros id t Hl Hv. psimpl. apply lookup_delete_Some in Hl as [Hne Hl].
           apply elem_of_difference. split; [now apply (I5 id t)|].
           intros E. apply elem_of_singleton in E. congruence.
        -- intros id t Hl. psimpl. now apply lookup_delete_Some in Hl as [_ Hl].
      * cbn zeta. repeat split; try reflexivity; try (psimpl; assumption).
        -- intros id t Hl Hc. psimpl. destruct (I2 id t Hl Hc) as [E Hv].
           assert (id = id0) as -> by congruence.
           apply Hin. apply (I5 id0 t Hl). now rewrite Hv.
        -- intros id t Hl. exact Hl.
    + cbn zeta. repeat split; try reflexivity; try (psimpl; assumption).
      * intros id t Hl Hc. psimpl. apply lookup_delete_Some in Hl as [Hne Hl].
        destruct (I2 id t Hl Hc) as [E _]. congruence.
      * intros id t Hl Hv. psimpl. apply lookup_delete_Some in Hl as [Hne Hl].
        now apply (I5 id t).
      * intros id t Hl. psimpl. now apply lookup_delete_Some in Hl as [_ Hl].
  - cbn zeta. repeat split; try reflexivity; try assumption.
    + intros id t Hl Hc. destruct (I2 id t Hl Hc) as [E _]. congruence.
    + intros id t Hl. exact Hl.
Qed.

Lemma invalidateCache_cleared_frame s :
  resourceManager (invalidateCache_cleared s) = resourceManager s
  /\ page_world (invalidateCache_cleared s) = page_world s
  /\ fallbackCleanupAttached (invalidateCache_cleared s) = fallbackCleanupAttached s
  /\ cleanupListeners (invalidateCache_cleared s) = cleanupListeners s
  /\ nextTimer (invalidateCache_cleared s) = nextTimer s.
Proof.
  unfold invalidateCache_cleared, rm_clearTimeout.
  destruct (invalidateTimeout s); [|now repeat split].
  destruct (resourceManager s) eqn:Hm; [case_bool_decide|]; cbn; now rewrite ?Hm.
Qed.

(** The state that [invalidateCache] leaves: the pending invalidation is
    cleared, a new one is scheduled under the next id. *)
Lemma invalidateCache_state s :
  exists attached listeners,
    invalidateCache s =
    mkPageSt (page_world s) (Some (nextTimer s)) (resourceManager s) attached listeners
      (if resourceManager s then {[nextTimer s]} ∪ rm_timeouts (invalidateCache_cleared s)
       else rm_timeouts (invalidateCache_cleared s))
      (<[nextTimer s := mkTimer TimeoutFn (resourceManager s)
                          (clock (page_world s) + CONFIG_timeouts.cacheInvalidation)]>
         (timers (invalidateCache_cleared s)))
      (S (nextTimer s)).
Proof.
  destruct (invalidateCache_cleared_frame s) as (Hm & Hw & Hfb & Hls & Hn).
  change (invalidateCache s) with
    (let s1 := invalidateCache_cleared s in
     if resourceManager s1 then
       let '(id, s2) := trackTimeout TimeoutFn CONFIG_timeouts.cacheInvalidation s1 in
       set_invalidateTimeout (Some id) s2
     else
       let '(id, s2) :=
         window_setTimeout TimeoutFn false CONFIG_timeouts.cacheInvalidation s1 in
       let s3 := set_invalidateTimeout (Some id) s2 in
       if fallbackCleanupAttached s3 then s3
       else
         mkPageSt (page_world s3) (invalidateTimeout s3) (resourceManager s3) true
           ("beforeunload" :: "pagehide" :: cleanupListeners s3)
           (rm_timeouts s3) (timers s3) (nextTimer s3)).
  cbn zeta. set (s1 := invalidateCache_cleared s) in *. rewrite Hm.
  destruct (resourceManager s) eqn:Hrm.
  - eexists _, _. cbn. rewrite Hm, Hw, Hn. reflexivity.
  - cbn. rewrite Hfb. destruct (fallbackCleanupAttached s); eexists _, _; cbn;
      rewrite ?Hm, ?Hw, ?Hn; reflexivity.
Qed.

(** After [invalidateCache] the invalidation that it scheduled is pending,
    due a hundred milliseconds from now, and is the only one. *)
Lemma invalidateCache_spec s :
  timers_inv s ->
  let s' := invalidateCache s in
  let id := nextTimer s in
  let t := mkTimer TimeoutFn (resourceManager s)
             (clock (page_world s) + CONFIG_timeouts.cacheInvalidation) in
  timers_inv s'
  /\ invalidateTimeout s' = Some id
  /\ timers s' !! id = Some t
  /\ (forall id' t', timers s' !! id' = Some t' -> timer_callback_of t' = TimeoutFn -> id' = id)
  /\ page_world s' = page_world s
  /\ resourceManager s' = resourceManager s.
Proof.
  intros Hinv. cbn zeta.
  destruct (invalidateCache_cleared_spec s Hinv) as (Hno & I5 & _).
  destruct (invalidateCache_state s) as (attached & listeners & ->).
  set (s1 := invalidateCache_cleared s) in *.
  split; [split|]; psimpl.
  - intros id t Hl Hc. apply lookup_insert_Some in Hl as [[<- <-]|[Hne Hl]].
    + now split.
    + now destruct (Hno id t Hl).
  - intros id t Hl Hv. apply lookup_insert_Some in Hl as [[<- <-]|[Hne Hl]].
    + cbn in Hv. rewrite Hv. apply elem_of_union_l. now apply elem_of_singleton.
    + specialize (I5 id t Hl Hv). destruct (resourceManager s); [|exact I5].
      now apply elem_of_union_r.
  - split; [reflexivity|]. split; [now rewrite lookup_insert_eq|].
    split; [|now split].
    intros id t Hl Hc. apply lookup_insert_Some in Hl as [[<- <-]|[Hne Hl]];
      [reflexivity | now destruct (Hno id t Hl)].
Qed.

Lemma fire_state id t s :
  timers s !! id = Some t ->
  fire id s = match timer_callback_of t with
              | TimeoutFn => timeoutFn (fired_state id t s)
              | Foreign _ => fired_state id t s
              end.
Proof.
  intros Ht. unfold fire. rewrite Ht. cbn zeta. unfold fired_state.
  now destruct (via_manager t).
Qed.

Lemma timers_inv_fire s id : timers_inv s -> timers_inv (fire id s).
Proof.
  intros [I2 I5]. destruct (timers s !! id) as [t|] eqn:Ht.
  2:{ unfold fire. rewrite Ht. now split. }
  rewrite (fire_state id t s Ht).
  assert (H5 : forall id' t', delete id (timers s) !! id' = Some t' -> via_manager t' = true ->
                 id' ∈ (if via_manager t then rm_timeouts s ∖ {[id]} else rm_timeouts s)).
  { intros id' t' Hl Hv. apply lookup_delete_Some in Hl as [Hne Hl].
    specialize (I5 id' t' Hl Hv). destruct (via_manager t); [|exact I5].
    apply elem_of_difference. split; [exact I5|].
    intros E. apply elem_of_singleton in E. congruence. }
  destruct (timer_callback_of t) eqn:Hc; split; unfold timeoutFn, fired_state; psimpl.
  - intros id' t' Hl Hc'. apply lookup_delete_Some in Hl as [Hne Hl].
    destruct (I2 id' t' Hl Hc') as [E1 _]. destruct (I2 id t Ht Hc) as [E2 _]. congruence.
  - exact H5.
  - intros id' t' Hl Hc'. apply lookup_delete_Some in Hl as [Hne Hl]. now apply (I2 id' t').
  - exact H5.
Qed.

Lemma timers_inv_filter s (P : nat * timer -> Prop) `{!forall kv, Decision (P kv)}
    (ids : gset nat) :
  timers_inv s ->
  (forall id t, timers s !! id = Some t -> P (id, t) -> via_manager t = true -> id ∈ ids) ->
  timers_inv (set_rm_timeouts ids (set_timers (filter P (timers s)) s)).
Proof.
  intros [I2 I5] Hids. split; psimpl.
  - intros id t Hl Hc. apply map_lookup_filter_Some in Hl as [Hl _]. now apply (I2 id t).
  - intros id t Hl Hv. apply map_lookup_filter_Some in Hl as [Hl HP]. now apply (Hids id t).
Qed.

Lemma timers_inv_clearAllTimeouts s : timers_inv s -> timers_inv (clearAllTimeouts s).
Proof.
  intros Hinv. unfold clearAllTimeouts. apply timers_inv_filter; [exact Hinv|].
  intros id t Hl Hout Hv. cbn in Hout. destruct Hout. now apply (proj2 Hinv id t).
Qed.

Lemma timers_inv_step s s' : page_step s s' -> timers_inv s -> timers_inv s'.
Proof.
  intros Hstep Hinv. destruct Hstep.
  - exact (proj1 (invalidateCache_spec s Hinv)).
  - now apply timers_inv_fire.
  - destruct Hinv as [I2 I5]. split; cbn.
    + intros id t Hl Hc. apply lookup_insert_Some in Hl as [[<- <-]|[Hne Hl]];
        [discriminate | now apply (I2 id t)].
    + intros id t Hl Hv. apply lookup_insert_Some in Hl as [[<- <-]|[Hne Hl]].
      * apply elem_of_union_l. now apply elem_of_singleton.
      * apply elem_of_union_r. now apply (I5 id t).
  - destruct Hinv as [I2 I5]. split; cbn.
    + intros id t Hl Hc. apply lookup_insert_Some in Hl as [[<- <-]|[Hne Hl]];
        [discriminate | now apply (I2 id t)].
    + intros id t Hl Hv. apply lookup_insert_Some in Hl as [[<- <-]|[Hne Hl]];
        [discriminate | now apply (I5 id t)].
  - destruct Hinv as [I2 I5]. unfold rm_clearTimeout. case_bool_decide as Hin; [|now split].
    split; cbn.
    + intros id' t Hl Hc. apply lookup_delete_Some in Hl as [Hne Hl]. now apply (I2 id' t).
    + intros id' t Hl Hv. apply lookup_delete_Some in Hl as [Hne Hl].
      apply elem_of_difference. split; [now apply (I5 id' t)|].
      intros E. apply elem_of_singleton in E. congruence.
  - now apply timers_inv_clearAllTimeouts.
  - unfold page_cleanup.
    exact (proj1 (invalidateCache_spec _ (timers_inv_clearAllTimeouts s Hinv))).
  - destruct Hinv as [I2 I5]. unfold window_event. case_bool_decide as Hin; [|now split].
    unfold fallback_cleanup. destruct (invalidateTimeout s) as [id0|] eqn:Hit; split; cbn.
    + intros id t Hl Hc. apply lookup_delete_Some in Hl as [Hne Hl].
      destruct (I2 id t Hl Hc) as [E _]. congruence.
    + intros id t Hl Hv. apply lookup_delete_Some in Hl as [Hne Hl]. now apply (I5 id t).
    + intros id t Hl Hc. destruct (I2 id t Hl Hc) as [E _]. congruence.
    + exact I5.
  - exact Hinv.
Qed.

Lemma timers_inv_reachable manager w s :
  rtc page_step (page_start manager w) s -> timers_inv s.
Proof.
  intros H. apply rtc_nsteps in H as [n H].
  remember (page_start manager w) as s0 eqn:E.
  revert s H. induction n as [|n IH]; intros s H.
  - inversion H; subst. apply timers_inv_start.
  - apply nsteps_inv_r in H as (s1 & H1 & Hstep).
    exact (timers_inv_step s1 s Hstep (IH s1 H1)).
Qed.

Lemma pending_invalidations_le s id0 :
  (forall id t, timers s !! id = Some t -> timer_callback_of t = TimeoutFn -> id = id0) ->
  (length (pending_invalidations s) <= 1)%nat.
Proof.
  intros H. unfold pending_invalidations.
  assert (Hnd : NoDup (filter (fun kv : nat * timer => timer_callback_of kv.2 = TimeoutFn)
                         (map_to_list (timers s))).*1).
  { apply (sublist_NoDup _ (map_to_list (timers s)).*1); [apply NoDup_fst_map_to_list|].
    apply fmap_sublist, sublist_filter. }
  assert (Hall : forall k, k ∈ (filter (fun kv : nat * timer => timer_callback_of kv.2 = TimeoutFn)
                                  (map_to_list (timers s))).*1 -> k = id0).
  { intros k Hk. apply list_elem_of_fmap in Hk as ([k' t] & -> & Hk).
    apply list_elem_of_filter in Hk as [Hc Hk]. apply elem_of_map_to_list in Hk.
    now apply (H k' t). }
  rewrite <- (length_fmap fst).
  destruct ((filter _ (map_to_list (timers s))).*1) as [|a [|b l]]; cbn; [lia | lia |].
  exfalso. apply NoDup_cons in Hnd as [Hnotin _]. apply Hnotin.
  rewrite (Hall a) by left. rewrite (Hall b) by (right; left). left.
Qed.

(** X24. However the page got to where it is (invalidations, timeouts
    firing, other tracked or plain timeouts, clearing of tracked timeouts,
    the page's cleanup, window events, changes of the store, the cache and
    the clock), at most one timeout that clears the cache is pending, and
    it is the one that [invalidateTimeout] names. *)
Theorem invalidateCache_debounced (manager : bool) (w : world) (s : page_state) :
  rtc page_step (page_start manager w) s ->
  (length (pending_invalidations s) <= 1)%nat
  /\ forall id t, timers s !! id = Some t -> timer_callback_of t = TimeoutFn ->
       invalidateTimeout s = Some id.
Proof.
  intros H. apply timers_inv_reachable in H as [I2 I5].
  assert (Hname : forall id t, timers s !! id = Some t -> timer_callback_of t = TimeoutFn ->
                    invalidateTimeout s = Some id)
    by (intros id t Hl Hc; exact (proj1 (I2 id t Hl Hc))).
  split; [|exact Hname].
  destruct (invalidateTimeout s) as [id0|] eqn:Hit.
  - apply (pending_invalidations_le s id0). intros id t Hl Hc.
    specialize (Hname id t Hl Hc). congruence.
  - apply (pending_invalidations_le s 0%nat). intros id t Hl Hc.
    specialize (Hname id t Hl Hc). discriminate.
Qed.

(** The storage functions of a status change leave the cache variables
    and the clock alone. *)
Lemma keeps_context_ret {A : Type} (a : A) : keeps_context (mret a).
Proof. intros w. now split. Qed.

Lemma keeps_context_bind {A B : Type} (m : M A) (f : A -> M B) :
  keeps_context m -> (forall a, keeps_context (f a)) -> keeps_context (m ≫= f).
Proof.
  intros Hm Hf w. unfold mbind, M_bind. specialize (Hm w).
  destruct (m w) as [[a|e] w1]; cbn [snd] in *; [|exact Hm].
  destruct (Hf a w1) as [H1 H2]. destruct Hm as [H3 H4]. split; congruence.
Qed.

Lemma keeps_context_get keys : keeps_context (chrome_storage_get keys).
Proof.
  intros w. unfold chrome_storage_get. cbn zeta.
  destruct (getError (log_call (StorageGet keys) (storage w))); now split.
Qed.

Lemma keeps_context_set data : keeps_context (chrome_storage_set data).
Proof.
  intros w. unfold chrome_storage_set. cbn zeta.
  destruct (setError (log_call (StorageSet data) (storage w))); now split.
Qed.

Lemma keeps_context_getArticle url : keeps_context (getArticle url).
Proof.
  unfold getArticle. destruct (negb (validateUrl (JStr url))); [apply keeps_context_ret|].
  apply keeps_context_bind; [apply keeps_context_get|]. intros r. apply keeps_context_ret.
Qed.

Lemma keeps_context_saveArticle a : keeps_context (saveArticle a).
Proof.
  unfold saveArticle.
  destruct (negb (truthy (prop a "url"))); [apply keeps_context_ret|].
  destruct (negb (validateArticleStructure a)); [apply keeps_context_ret|].
  destruct (negb (validateUrl (prop a "url"))); [apply keeps_context_ret|].
  destruct (prop a "url"); try apply keeps_context_ret.
  apply keeps_context_bind; [apply keeps_context_getArticle|]. intros existing.
  apply keeps_context_bind; [intros w; now split|]. intros now.
  destruct (determineReadStatus now existing a) as [isRead readDate].
  apply keeps_context_bind; [apply keeps_context_set|]. intros _. apply keeps_context_ret.
Qed.

Lemma keeps_context_getOrCreateArticle url title publishedDate dateText :
  keeps_context (getOrCreateArticle url title publishedDate dateText).
Proof.
  unfold getOrCreateArticle.
  destruct (negb (validateUrl (JStr url))); [apply keeps_context_ret|].
  apply keeps_context_bind; [apply keeps_context_getArticle|].
  intros [a|]; [apply keeps_context_ret | apply keeps_context_saveArticle].
Qed.

Lemma keeps_context_markAsRead url title publishedDate dateText :
  keeps_context (markAsRead url title publishedDate dateText).
Proof.
  unfold markAsRead.
  destruct (negb (validateUrl (JStr url))); [apply keeps_context_ret|].
  apply keeps_context_bind; [apply keeps_context_getOrCreateArticle|].
  intros [a|]; [|apply keeps_context_ret].
  apply keeps_context_bind; [intros w; now split|]. intros now.
  apply keeps_context_saveArticle.
Qed.

Lemma keeps_context_markAsUnread url title publishedDate dateText :
  keeps_context (markAsUnread url title publishedDate dateText).
Proof.
  unfold markAsUnread.
  destruct (negb (validateUrl (JStr url))); [apply keeps_context_ret|].
  apply keeps_context_bind; [apply keeps_context_getOrCreateArticle|].
  intros [a|]; [|apply keeps_context_ret]. apply keeps_context_saveArticle.
Qed.

(** A status change that returns a record was asked with a url that does
    not trim to nothing. *)
Lemma mark_returns_valid url (isChecked : bool) title publishedDate dateText w a w' :
  (if isChecked then markAsRead url title publishedDate dateText
   else markAsUnread url title publishedDate dateText) w = (Ok (Some a), w') ->
  validateUrl (JStr url) = true.
Proof.
  destruct (validateUrl (JStr url)) eqn:Hv; [reflexivity|].
  unfold markAsRead, markAsUnread. rewrite Hv. cbn [negb].
  destruct isChecked; discriminate.
Qed.

(** X25. An invalidation takes effect when its timeout fires, and not
    before: [invalidateCache] leaves the store, the cache variables and the
    clock as they are and has its timeout pending, due a hundred
    milliseconds later; whatever becomes of the store, the snapshot and the
    clock until it fires, after it the cache holds no snapshot, no
    invalidation is pending, and the next [getArticlesCache] lists the
    store. *)
Theorem invalidateCache_takes_effect (manager : bool) (w0 : world) (s : page_state)
    (w : world) (cs : cache_state) :
  rtc page_step (page_start manager w0) s ->
  cache w = Some cs ->
  getError (storage w) = None ->
  let s1 := invalidateCache s in
  let id := nextTimer s in
  let s2 := fire id (set_world w s1) in
  page_world s1 = page_world s
  /\ invalidateTimeout s1 = Some id
  /\ timers s1 !! id
     = Some (mkTimer TimeoutFn (resourceManager s)
               (clock (page_world s) + CONFIG_timeouts.cacheInvalidation))
  /\ cache (page_world s2) = Some (mkCache None 0)
  /\ invalidateTimeout s2 = None
  /\ no_invalidation s2
  /\ (getArticlesCache (page_world s2)).1 = Ok (buildCache (storedArticles (storage w))).
Proof.
  intros Hreach Hc He. cbn zeta.
  pose proof (timers_inv_reachable manager w0 s Hreach) as Hinv.
  destruct (invalidateCache_spec s Hinv) as (Hinv1 & Hit & Hl & Huniq & Hw & Hm).
  split; [exact Hw|]. split; [exact Hit|]. split; [exact Hl|].
  assert (Hl' : timers (set_world w (invalidateCache s)) !! nextTimer s
                = Some (mkTimer TimeoutFn (resourceManager s)
                          (clock (page_world s) + CONFIG_timeouts.cacheInvalidation)))
    by exact Hl.
  rewrite (fire_state _ _ _ Hl'). cbn [timer_callback_of].
  unfold timeoutFn, fired_state. psimpl.
  assert (Hfired : (invalidate_fired w).2 = mkWorld (storage w) (Some (mkCache None 0)) (clock w)).
  { unfold invalidate_fired, cacheVars, setCacheVars, mbind, M_bind. now rewrite Hc. }
  rewrite Hfired. cbn [cache].
  split; [reflexivity|]. split; [reflexivity|]. split.
  - intros id' t' Hl2 Hc2. psimpl. apply lookup_delete_Some in Hl2 as [Hne Hl2].
    apply Hne. symmetry. now apply (Huniq id' t').
  - rewrite (getArticlesCache_reload _ (mkCache None 0)); [reflexivity|reflexivity| |exact He].
    reflexivity.
Qed.

(** X26. A status change keeps the cache in step with the store or marks it
    for clearing: when it returns a record, no timeout is touched and a
    snapshot that is held answers the url with that record; when it returns
    null, because the url trims to nothing, the stored record is
    ill-formed or the store failed, an invalidation is pending, due a
    hundred milliseconds later, and the snapshot is as it was. *)
Theorem handleArticleStatusChange_cache (url : string) (isChecked : bool)
    (title publishedDate dateText : string) (s : page_state) (cs : cache_state) :
  cache (page_world s) = Some cs ->
  match handleArticleStatusChange url isChecked title publishedDate dateText s with
  | (Some a, s') =>
      timers s' = timers s
      /\ invalidateTimeout s' = invalidateTimeout s
      /\ match articlesCache cs with
         | Some _ => getArticleFromCache url (page_world s') = Some a
         | None => cache (page_world s') = Some cs
         end
  | (None, s') =>
      invalidateTimeout s' = Some (nextTimer s)
      /\ timers s' !! nextTimer s
         = Some (mkTimer TimeoutFn (resourceManager s)
                   (clock (page_world s) + CONFIG_timeouts.cacheInvalidation))
      /\ cache (page_world s') = Some cs
  end.
Proof.
  intros Hc. unfold handleArticleStatusChange. cbn zeta.
  set (run := if isChecked then _ else _).
  assert (Hk : keeps_context run)
    by (unfold run; destruct isChecked;
        [apply keeps_context_markAsRead | apply keeps_context_markAsUnread]).
  destruct (Hk (page_world s)) as [Hcache Hclock].
  assert (Hnone : forall w1, cache w1 = Some cs -> clock w1 = clock (page_world s) ->
    invalidateTimeout (invalidateCache (set_world w1 s)) = Some (nextTimer s)
    /\ timers (invalidateCache (set_world w1 s)) !! nextTimer s
       = Some (mkTimer TimeoutFn (resourceManager s)
                 (clock (page_world s) + CONFIG_timeouts.cacheInvalidation))
    /\ cache (page_world (invalidateCache (set_world w1 s))) = Some cs).
  { intros w1 H1 H2. destruct (invalidateCache_state (set_world w1 s)) as (at' & ls & ->).
    psimpl. rewrite H2. split; [reflexivity|]. split; [now rewrite lookup_insert_eq|exact H1]. }
  destruct (run (page_world s)) as [[[a|]|e] w1] eqn:Hrun; cbn [snd] in Hcache, Hclock.
  - rewrite Hcache, Hc. split; [reflexivity|]. split; [reflexivity|].
    pose proof (mark_returns_valid _ _ _ _ _ _ _ _ Hrun) as Hv.
    unfold updateCacheArticle, cacheVars, setCacheVars, mbind, M_bind. rewrite Hcache, Hc.
    destruct (articlesCache cs) as [held|] eqn:Hh; psimpl.
    + unfold getArticleFromCache. cbn [cache articlesCache].
      destruct (String.eqb url "") eqn:Hu.
      * apply String.eqb_eq in Hu. subst url. discriminate Hv.
      * now rewrite lookup_insert_eq.
    + cbn. now rewrite Hcache.
  - apply Hnone; [now rewrite Hcache | exact Hclock].
  - apply Hnone; [now rewrite Hcache | exact Hclock].
Qed.

(** ** The date expression *)

Lemma append_assoc (s t u : string) : (s ++ t) ++ u = s ++ t ++ u.
Proof. induction s as [|a s IH]; [reflexivity|]. now rewrite !append_cons, IH. Qed.

Lemma span_spec f s :
  s = (span f s).1 ++ (span f s).2
  /\ all_chars f (span f s).1 = true
  /\ run_ends f (span f s).2.
Proof.
  induction s as [|a s IH]; [now repeat split|].
  cbn [span]. destruct (f a) eqn:Hf.
  - destruct (span f s) as [p r]. cbn [fst snd] in *. destruct IH as (E & Hall & Hend).
    rewrite append_cons, <- E. cbn [all_chars]. rewrite Hf, Hall. now repeat split.
  - cbn [fst snd]. now repeat split.
Qed.

Lemma span_unique f p r :
  all_chars f p = true -> run_ends f r -> span f (p ++ r) = (p, r).
Proof.
  intros Hall Hend. induction p as [|a p IH].
  - change ("" ++ r) with r. destruct r as [|b r]; [reflexivity|].
    cbn in Hend. cbn [span]. now rewrite Hend.
  - cbn [all_chars] in Hall. apply andb_true_iff in Hall as [Ha Hall].
    rewrite append_cons. cbn [span]. rewrite Ha, (IH Hall). reflexivity.
Qed.

(** The classes of neighbouring parts of the expression are disjoint. *)
Lemma ws_not_word a : is_ws a = true -> is_word a = false.
Proof. destruct a as [[] [] [] [] [] [] [] []]; vm_compute; congruence. Qed.

Lemma digit_not_ws a : is_digit a = true -> is_ws a = false.
Proof. destruct a as [[] [] [] [] [] [] [] []]; vm_compute; congruence. Qed.

Lemma run_ends_app f g p r :
  p <> "" -> all_chars g p = true -> (forall a, g a = true -> f a = false) ->
  run_ends f (p ++ r).
Proof.
  intros Hp Hall Hd. destruct p as [|a p]; [congruence|].
  rewrite append_cons. cbn. cbn [all_chars] in Hall.
  apply andb_true_iff in Hall as [Ha _]. now apply Hd.
Qed.

Lemma eqb_empty_false (s : string) : s <> "" -> String.eqb s "" = false.
Proof. intros H. now apply String.eqb_neq. Qed.

(** A date-shaped string at the start of [s] is what [match_date_here]
    finds there. *)
Lemma match_date_here_complete m post :
  date_shaped m -> match_date_here (m ++ post) = Some m.
Proof.
  intros (word & gap1 & day & gap2 & year & -> & Hw & Hwa & Hg1 & Hg1a & Hd & Hda
          & Hg2 & Hg2a & Hy & Hya).
  destruct year as [|y1 [|y2 [|y3 [|y4 [|y5 year]]]]]; try discriminate Hy.
  cbn [all_chars] in Hya. rewrite andb_true_r in Hya.
  apply andb_true_iff in Hya as [H1 Hya]. apply andb_true_iff in Hya as [H2 Hya].
  apply andb_true_iff in Hya as [H3 H4].
  assert (Hdne : day <> "") by (intros ->; cbn in Hd; lia).
  unfold match_date_here.
  rewrite !append_assoc.
  rewrite (span_unique is_word word).
  2: exact Hwa.
  2:{ apply (run_ends_app _ is_ws); [exact Hg1 | exact Hg1a | exact ws_not_word]. }
  rewrite (span_unique is_ws gap1).
  2: exact Hg1a.
  2:{ apply (run_ends_app _ is_digit); [exact Hdne | exact Hda | exact digit_not_ws]. }
  rewrite (span_unique is_digit day).
  2: exact Hda.
  2:{ rewrite append_cons. reflexivity. }
  rewrite (append_cons "," ""). change ("" ++ ?x) with x.
  rewrite (span_unique is_ws gap2).
  2: exact Hg2a.
  2:{ rewrite !append_cons. cbn. now apply digit_not_ws. }
  rewrite !append_cons. change ("" ++ post) with post.
  rewrite (eqb_empty_false word Hw), (eqb_empty_false gap1 Hg1), (eqb_empty_false gap2 Hg2).
  rewrite H1, H2, H3, H4.
  replace (1 <=? String.length day)%nat with true by (symmetry; apply Nat.leb_le; lia).
  replace (String.length day <=? 2)%nat with true by (symmetry; apply Nat.leb_le; lia).
  reflexivity.
Qed.

(** What [match_date_here] finds is date-shaped and starts [s]. *)
Lemma match_date_here_sound s m :
  match_date_here s = Some m -> date_shaped m /\ exists post, s = m ++ post.
Proof.
  unfold match_date_here.
  destruct (span_spec is_word s) as (E1 & A1 & _).
  destruct (span is_word s) as [word r1]. cbn [fst snd] in *.
  destruct (span_spec is_ws r1) as (E2 & A2 & _).
  destruct (span is_ws r1) as [gap1 r2]. cbn [fst snd] in *.
  destruct (span_spec is_digit r2) as (E3 & A3 & _).
  destruct (span is_digit r2) as [day r3]. cbn [fst snd] in *.
  destruct r3 as [|c r4]; [discriminate|].
  destruct (Ascii.eqb_spec c ",") as [->|Hc].
  2:{ intros H. exfalso. revert H.
      destruct c as [[] [] [] [] [] [] [] []]; try discriminate. now destruct Hc. }
  destruct (span_spec is_ws r4) as (E4 & A4 & _).
  destruct (span is_ws r4) as [gap2 r5]. cbn [fst snd] in *.
  destruct r5 as [|y1 [|y2 [|y3 [|y4 post]]]]; try discriminate.
  destruct (negb (String.eqb word "")) eqn:Hw; [|discriminate].
  destruct (negb (String.eqb gap1 "")) eqn:Hg1; [|discriminate].
  destruct (1 <=? String.length day)%nat eqn:Hd1; [|discriminate].
  destruct (String.length day <=? 2)%nat eqn:Hd2; [|discriminate].
  destruct (negb (String.eqb gap2 "")) eqn:Hg2; [|discriminate].
  destruct (is_digit y1) eqn:H1; [|discriminate].
  destruct (is_digit y2) eqn:H2; [|discriminate].
  destruct (is_digit y3) eqn:H3; [|discriminate].
  destruct (is_digit y4) eqn:H4; [|discriminate].
  cbn [andb]. intros [= <-].
  apply negb_true_iff, String.eqb_neq in Hw, Hg1, Hg2.
  apply Nat.leb_le in Hd1, Hd2.
  split.
  - exists word, gap1, day, gap2, (String y1 (String y2 (String y3 (String y4 "")))).
    cbn [all_chars String.length]. rewrite H1, H2, H3, H4. repeat split; try assumption; lia.
  - exists post. rewrite E1, E2, E3, E4. rewrite !append_assoc, !append_cons.
    reflexivity.
Qed.

Lemma date_shaped_not_empty m : date_shaped m -> m <> "".
Proof.
  intros (word & gap1 & day & gap2 & year & -> & Hw & _) E.
  destruct word; [congruence|]. rewrite append_cons in E. discriminate.
Qed.

(** X27. [extractDateFromText] returns the leftmost date-shaped piece of the
    text (word characters, white space, one or two digits, a comma, white
    space, four digits): no such piece starts earlier, none other starts at
    the same place; and it returns null exactly when the text has no such
    piece. *)
Theorem extractDateFromText_leftmost (text : string) :
  match extractDateFromText text with
  | Some m =>
      exists pre post,
        text = pre ++ m ++ post /\ date_shaped m
        /\ forall pre' m' post',
             text = pre' ++ m' ++ post' -> date_shaped m' ->
             (String.length pre <= String.length pre')%nat
             /\ (String.length pre' = String.length pre -> m' = m)
  | None => forall pre m post, text = pre ++ m ++ post -> ~ date_shaped m
  end.
Proof.
  induction text as [|a text IH].
  - cbn. intros pre m post E Hm. apply date_shaped_not_empty in Hm.
    destruct pre; [|rewrite append_cons in E; discriminate].
    destruct m; [congruence|]. change ("" ++ ?x) with x in E.
    rewrite append_cons in E. discriminate.
  - cbn [extractDateFromText]. destruct (match_date_here (String a text)) as [m|] eqn:Hm.
    + apply match_date_here_sound in Hm as [Hshape [post E]].
      exists "", post. split; [exact E|]. split; [exact Hshape|].
      intros pre' m' post' E' Hm'. split; [cbn; lia|].
      intros Hlen. destruct pre'; [|discriminate]. change ("" ++ ?x) with x in E'.
      pose proof (match_date_here_complete m' post' Hm') as H1.
      pose proof (match_date_here_complete m post Hshape) as H2.
      rewrite <- E' in H1. change ("" ++ ?x) with x in E. rewrite <- E in H2. congruence.
    + assert (Hnot_here : forall m' post', String a text = m' ++ post' -> ~ date_shaped m').
      { intros m' post' E' Hm'. pose proof (match_date_here_complete m' post' Hm') as H1.
        rewrite <- E' in H1. congruence. }
      destruct (extractDateFromText text) as [m|].
      * destruct IH as (pre & post & E & Hshape & Hleft).
        exists (String a pre), post. split; [now rewrite append_cons, <- E|].
        split; [exact Hshape|].
        intros pre' m' post' E' Hm'. destruct pre' as [|b pre'].
        -- exfalso. exact (Hnot_here m' post' E' Hm').
        -- rewrite append_cons in E'. injection E' as -> E'.
           destruct (Hleft pre' m' post' E' Hm') as [H1 H2].
           split; [cbn; lia|]. intros Hlen. apply H2. cbn in Hlen. lia.
      * intros pre' m' post' E' Hm'. destruct pre' as [|b pre'].
        -- exact (Hnot_here m' post' E' Hm').
        -- rewrite append_cons in E'. injection E' as -> E'. exact (IH pre' m' post' E' Hm').
Qed.

(** ** The scraper *)

Lemma js_string_or_null_stringy o : is_string (js_or (js_string_or_null o) (JStr "")) = true.
Proof. destruct o as [s|]; [|reflexivity]. unfold js_or. cbn. now destruct (String.eqb s ""). Qed.

Lemma js_or_strings_string x y :
  (x = JNull \/ is_string x = true) -> (y = JNull \/ is_string y = true) ->
  is_string (js_or (js_or x y) (JStr "")) = true.
Proof.
  intros Hx Hy.
  assert (Hx' : x = JNull \/ exists s, x = JStr s).
  { destruct Hx as [->|Hx]; [now left|]. destruct x; try discriminate. right. now eexists. }
  assert (Hy' : y = JNull \/ exists s, y = JStr s).
  { destruct Hy as [->|Hy]; [now left|]. destruct y; try discriminate. right. now eexists. }
  destruct Hx' as [->|[s ->]]; destruct Hy' as [->|[s' ->]]; unfold js_or; cbn;
    repeat match goal with |- context [String.eqb ?z ""] => destruct (String.eqb z ""); cbn end;
    reflexivity.
Qed.

Lemma js_string_or_null_cases o :
  js_string_or_null o = JNull \/ is_string (js_string_or_null o) = true.
Proof. destruct o; [now right | now left]. Qed.

(** What [extractArticleFromElement] returns, by cases. *)
Lemma extractArticleFromElement_cases el :
  match extractArticleFromElement el with
  | Some d =>
      exists link u dtime dtext,
        extractLink el = Some link /\ link_url link = Some u
        /\ validateUrl (JStr u) = true /\ trim (link_text link) <> ""
        /\ (dtime, dtext)
           = match extractTime el with
             | Some time => (datetime time, Some (trim (time_text time)))
             | None => (None, extractDateFromText (textContent el))
             end
        /\ d = scraped (JStr u) (JStr (trim (link_text link)))
                 (js_or (js_or (js_string_or_null dtime) (js_string_or_null dtext))
                        (JStr ""))
                 (js_or (js_string_or_null dtext) (JStr ""))
  | None =>
      forall link u, extractLink el = Some link -> link_url link = Some u ->
        validateUrl (JStr u) = true -> trim (link_text link) = ""
  end.
Proof.
  unfold extractArticleFromElement.
  destruct (extractLink el) as [link|]; [|intros link u H; discriminate H].
  destruct (link_url link) as [u|] eqn:Hlu; [|intros link' u' [= <-] H; congruence].
  destruct (String.eqb u "") eqn:Hu; cbn [orb].
  - apply String.eqb_eq in Hu. subst u. intros link' u' [= <-] H Hv.
    rewrite Hlu in H. injection H as <-. discriminate Hv.
  - destruct (String.eqb (trim (link_text link)) "") eqn:Ht.
    + apply String.eqb_eq in Ht. now intros link' u' [= <-] _ _.
    + apply String.eqb_neq in Ht.
      destruct (validateUrl (JStr u)) eqn:Hv; cbn [negb].
      * destruct (match extractTime el with
                  | Some time => (_, _)
                  | None => _
                  end) as [dt dtext] eqn:E.
        exists link, u, dt, dtext. repeat split; assumption || reflexivity.
      * intros link' u' [= <-] H Hv'. rewrite Hlu in H. injection H as <-. congruence.
Qed.

Lemma prop_scraped u t p d :
  prop (scraped u t p d) "url" = u
  /\ prop (scraped u t p d) "title" = t
  /\ prop (scraped u t p d) "publishedDate" = p
  /\ prop (scraped u t p d) "dateText" = d
  /\ prop (scraped u t p d) "isRead" = JUndefined
  /\ prop (scraped u t p d) "readDate" = JUndefined.
Proof. repeat split; reflexivity. Qed.

Lemma scraped_structured u t p d :
  u <> "" -> is_string p = true -> is_string d = true ->
  validateArticleStructure (scraped (JStr u) (JStr t) p d) = true.
Proof.
  intros Hu Hp Hd. unfold validateArticleStructure.
  destruct (prop_scraped (JStr u) (JStr t) p d) as (-> & -> & -> & -> & -> & ->).
  cbn. rewrite (eqb_empty_false u Hu), Hp, Hd. cbn. now rewrite !orb_true_r.
Qed.

(** X28. The scraper takes an element exactly when its link has a url that
    does not trim to nothing and a text that does not either. What it
    returns passes the validators of the store, so that a save never
    answers null for it; it has a title, carries no read state, and has a
    publication date whenever it has a date text. *)
Theorem extractArticleFromElement_valid (el : article_element) :
  (is_Some (extractArticleFromElement el) <->
   exists link u,
     extractLink el = Some link /\ link_url link = Some u
     /\ validateUrl (JStr u) = true /\ trim (link_text link) <> "")
  /\ forall d, extractArticleFromElement el = Some d ->
       validateArticleStructure d = true
       /\ validateUrl (prop d "url") = true
       /\ truthy (prop d "title") = true
       /\ hasOwnProperty d "isRead" = false
       /\ hasOwnProperty d "readDate" = false
       /\ (truthy (prop d "dateText") = true -> truthy (prop d "publishedDate") = true)
       /\ forall w, (saveArticle d w).1 <> Ok None.
Proof.
  pose proof (extractArticleFromElement_cases el) as H.
  destruct (extractArticleFromElement el) as [d|].
  - destruct H as (link & u & dt & dtext & Hl & Hu & Hv & Ht & E & Hd).
    split.
    + split; [intros _; now exists link, u | intros _; now eexists].
    + intros d' [= <-].
      destruct (prop_scraped (JStr u) (JStr (trim (link_text link)))
                  (js_or (js_or (js_string_or_null dt) (js_string_or_null dtext)) (JStr ""))
                  (js_or (js_string_or_null dtext) (JStr "")))
        as (P1 & P2 & P3 & P4 & _).
      rewrite <- Hd in P1, P2, P3, P4.
      assert (Hs : validateArticleStructure d = true).
      { rewrite Hd. apply scraped_structured.
        - now apply validateUrl_nonempty.
        - apply js_or_strings_string; apply js_string_or_null_cases.
        - apply js_string_or_null_stringy. }
      split; [exact Hs|]. split; [now rewrite P1|].
      split.
      { rewrite P2. change (negb (String.eqb (trim (link_text link)) "") = true).
        now rewrite (eqb_empty_false _ Ht). }
      split; [now rewrite Hd|]. split; [now rewrite Hd|]. split.
      * rewrite P3, P4.
        unfold js_or. destruct (truthy (js_string_or_null dtext)) eqn:Hdx.
        -- intros _. destruct (truthy (js_string_or_null dt)) eqn:Hdt; cbn.
           ++ now rewrite Hdt.
           ++ now rewrite Hdx.
        -- discriminate.
      * intros w Hnull. pose proof (saveArticle_cases d w) as Hc.
        destruct (saveArticle d w) as [o w'] eqn:Hsave. cbn [fst] in Hnull. subst o.
        destruct Hc as [_ Hc]. rewrite Hs, P1, Hv in Hc. discriminate Hc.
  - split.
    + split; [intros [d Hd]; discriminate Hd|].
      intros (link & u & Hl & Hu & Hv & Ht). now specialize (H link u Hl Hu Hv).
    + intros d Hd. discriminate Hd.
Qed.

(** ** A status change, then the filter *)

(** The record that a status change returns was saved from an article with
    its own [isRead], set to the state of the checkbox. *)
Lemma mark_saves url (isChecked : bool) title publishedDate dateText w a w' :
  (if isChecked then markAsRead url title publishedDate dateText
   else markAsUnread url title publishedDate dateText) w = (Ok (Some a), w') ->
  exists found readDate w1,
    saveArticle (<["readDate" := readDate]> (<["isRead" := JBool isChecked]> found)) w1
    = (Ok (Some a), w').
Proof.
  destruct isChecked; unfold markAsRead, markAsUnread;
    (destruct (negb (validateUrl (JStr url))); [discriminate|]);
    unfold mbind, M_bind;
    destruct (getOrCreateArticle url title publishedDate dateText w) as [[[found|]|e] w1];
    try discriminate.
  - unfold Date_now. intros H. now exists found, (JStr (toISOString (clock w1))), w1.
  - intros H. now exists found, JNull, w1.
Qed.

Lemma mark_result_isRead url (isChecked : bool) title publishedDate dateText w a w' :
  (if isChecked then markAsRead url title publishedDate dateText
   else markAsUnread url title publishedDate dateText) w = (Ok (Some a), w') ->
  prop a "isRead" = JBool isChecked.
Proof.
  intros H. apply mark_saves in H as (found & readDate & w1 & H).
  pose proof (saveArticle_cases
                (<["readDate" := readDate]> (<["isRead" := JBool isChecked]> found)) w1) as Hc.
  rewrite H in Hc. destruct Hc as (u & existing & _ & _ & _ & _ & _ & -> & _).
  rewrite prop_article_isRead. unfold determineReadStatus.
  assert (Hown : hasOwnProperty
                   (<["readDate" := readDate]> (<["isRead" := JBool isChecked]> found))
                   "isRead" = true).
  { unfold hasOwnProperty. apply bool_decide_eq_true_2.
    rewrite lookup_insert_ne by discriminate. rewrite lookup_insert_eq. now eexists. }
  assert (Hp : prop (<["readDate" := readDate]> (<["isRead" := JBool isChecked]> found))
                 "isRead" = JBool isChecked).
  { unfold prop. rewrite lookup_insert_ne by discriminate. now rewrite lookup_insert_eq. }
  rewrite Hown, Hp. cbn [fst]. now destruct isChecked.
Qed.

(** X29. After a status change that returned a record, with a snapshot
    held and within its time to live, the filter works on the new state at
    once: under ["unread"] the element of the article is hidden exactly when
    the box was checked, under ["read"] exactly when it was unchecked, and
    ["all"] shows every element; the cache is not reloaded for it. *)
Theorem status_change_then_filter (url : string) (isChecked : bool)
    (title publishedDate dateText : string) (s s' : page_state)
    (held : gmap string jsobj) (a : jsobj) (el : article_element) (link : anchor)
    (els : list article_element) :
  servedSnapshot (page_world s) = Some held ->
  handleArticleStatusChange url isChecked title publishedDate dateText s = (Some a, s') ->
  extractLink el = Some link ->
  link_url link = Some url ->
  el ∈ els ->
  let w' := page_world s' in
  applyFilter (JStr CONFIG_filters.unread) els w'
    = (Ok (filter_element (JStr CONFIG_filters.unread) w' <$> els), w')
  /\ hidden (filter_element (JStr CONFIG_filters.unread) w' el) = isChecked
  /\ applyFilter (JStr CONFIG_filters.read) els w'
     = (Ok (filter_element (JStr CONFIG_filters.read) w' <$> els), w')
  /\ hidden (filter_element (JStr CONFIG_filters.read) w' el) = negb isChecked
  /\ applyFilter (JStr CONFIG_filters.all) els w' = (Ok (set_hidden false <$> els), w').
Proof.
  intros Hserved Hchange Hlink Hurl Hin. cbn zeta.
  apply servedSnapshot_Some in Hserved as (cs & Hc & Hheld & Hage).
  unfold handleArticleStatusChange in Hchange. cbn zeta in Hchange.
  set (run := if isChecked then _ else _) in Hchange.
  assert (Hk : keeps_context run)
    by (unfold run; destruct isChecked;
        [apply keeps_context_markAsRead | apply keeps_context_markAsUnread]).
  destruct (Hk (page_world s)) as [Hcache Hclock].
  destruct (run (page_world s)) as [[[a'|]|e] w1] eqn:Hrun; cbn [snd] in Hcache, Hclock;
    try discriminate Hchange.
  rewrite Hcache, Hc in Hchange. injection Hchange as -> <-.
  pose proof (mark_returns_valid _ _ _ _ _ _ _ _ Hrun) as Hv.
  pose proof (mark_result_isRead _ _ _ _ _ _ _ _ Hrun) as Hread.
  assert (Hw' : page_world
                  (set_world (updateCacheArticle url (Some a) w1).2 (set_world w1 s))
                = mkWorld (storage w1)
                    (Some (mkCache (Some (<[normalizeUrl1 url := a]> held)) (cacheTimestamp cs)))
                    (clock w1)).
  { unfold updateCacheArticle, cacheVars, setCacheVars, mbind, M_bind.
    rewrite Hcache, Hc, Hheld. reflexivity. }
  rewrite Hw'. set (w' := mkWorld _ _ _).
  assert (Hs' : servedSnapshot w' = Some (<[normalizeUrl1 url := a]> held)).
  { unfold servedSnapshot, w'. cbn [cache articlesCache clock cacheTimestamp].
    rewrite Hclock, Hage. reflexivity. }
  assert (Hels : els <> []) by (intros ->; now apply elem_of_nil in Hin).
  assert (Hget : getArticleFromCache url w' = Some a).
  { unfold getArticleFromCache, w'. cbn [cache articlesCache].
    rewrite (eqb_empty_false url (validateUrl_nonempty url Hv)). now rewrite lookup_insert_eq. }
  assert (Hfilter : forall f, f <> JStr CONFIG_filters.all ->
            applyFilter f els w' = (Ok (filter_element f w' <$> els), w')).
  { intros f Hf. unfold applyFilter. destruct els as [|e0 els']; [congruence|].
    rewrite bool_decide_eq_false_2 by exact Hf.
    unfold mbind, M_bind. rewrite (getArticlesCache_served w' _ Hs').
    unfold read_world, filterByReadStatus.
    rewrite bool_decide_eq_false_2; [reflexivity|]. apply insert_non_empty. }
  assert (Hel : forall f,
            hidden (filter_element f w' el)
            = negb (if bool_decide (f = JStr CONFIG_filters.read) then isChecked
                    else if bool_decide (f = JStr CONFIG_filters.unread) then negb isChecked
                    else true)).
  { intros f. unfold filter_element. rewrite Hlink, Hurl.
    rewrite (eqb_empty_false url (validateUrl_nonempty url Hv)), Hv. cbn [orb negb].
    rewrite Hget, Hread. cbn zeta. unfold js_or. cbn [hidden set_hidden].
    now destruct isChecked. }
  split; [apply Hfilter; discriminate|].
  split; [rewrite Hel; cbn; now destruct isChecked|].
  split; [apply Hfilter; discriminate|].
  split; [rewrite Hel; cbn; now destruct isChecked|].
  unfold applyFilter. destruct els as [|e0 els']; [congruence|]. reflexivity.
Qed.

(** ** A record created by a status change, and the scraper's *)

(** [getArticle] on a url in normal form, when the store answers. *)
Lemma getArticle_fixed n w :
  validateUrl (JStr n) = true -> normalizeUrl1 n = n -> getError (storage w) = None ->
  getArticle n w
  = (Ok (items (storage w) !! (CONFIG.storage_prefix ++ n)),
     mkWorld (log_call (StorageGet (Some [CONFIG.storage_prefix ++ n])) (storage w))
       (cache w) (clock w)).
Proof.
  intros Hv Hfix He.
  destruct (getArticle_spec n w) as (o & -> & Ho). rewrite Hv in *. rewrite Hfix in *.
  rewrite (getStorageKey_fixed n (validateUrl_nonempty n Hv) Hfix) in *.
  destruct o as [found|message].
  - destruct Ho as [-> _]. reflexivity.
  - destruct Ho as [_ Ho]. congruence.
Qed.

Lemma created_publishedDate_scraped time :
  js_or (js_or (js_string_or_null (datetime time)) (js_string_or_null (Some (trim (time_text time)))))
        (JStr "")
  = JStr (match datetime time with
          | Some d => if String.eqb d "" then trim (time_text time) else d
          | None => trim (time_text time)
          end).
Proof.
  unfold js_or. destruct (datetime time) as [d|]; cbn;
    repeat match goal with
           | |- context [String.eqb ?z ""] => destruct (String.eqb_spec z ""); cbn
           end; congruence.
Qed.

Lemma js_or_str_default_id s : js_or (JStr s) (JStr "") = JStr s.
Proof.
  unfold js_or. cbn. destruct (String.eqb s "") eqn:E; [|reflexivity].
  apply String.eqb_eq in E. now subst.
Qed.

(** X30. For an element with a [time] child, the record that a status
    change creates for an article that the store does not hold is the
    record that a save of the scraper's draft creates: the same fields,
    unread and undated, under the same key. *)
Theorem getOrCreateArticle_like_scraper (el : article_element) (link : anchor)
    (time : time_element) (u : string) (d : jsobj) (w : world) :
  extractLink el = Some link ->
  select_time el = Some time ->
  link_url link = Some u ->
  extractArticleFromElement el = Some d ->
  validateUrl (JStr (normalizeUrl1 u)) = true ->
  normalizeUrl1 (normalizeUrl1 u) = normalizeUrl1 u ->
  getError (storage w) = None ->
  setError (storage w) = None ->
  items (storage w) !! (CONFIG.storage_prefix ++ normalizeUrl1 u) = None ->
  let created :=
    getOrCreateArticle u (created_title link) (created_publishedDate el)
      (created_dateText el) w in
  let saved := saveArticle d w in
  exists r,
    created.1 = Ok (Some r) /\ saved.1 = Ok (Some r)
    /\ items (storage created.2) = items (storage saved.2)
    /\ items (storage saved.2) !! (CONFIG.storage_prefix ++ normalizeUrl1 u) = Some r
    /\ readState r = (JBool false, JNull).
Proof.
  intros Hlink Htime Hurl Hd Hvn Hfix He Hse Hnone. cbn zeta.
  pose proof (extractArticleFromElement_cases el) as Hc. rewrite Hd in Hc.
  destruct Hc as (link' & u' & dt & dtext & Hl' & Hu' & Hv & Ht & E & ->).
  rewrite Hlink in Hl'. injection Hl' as <-. rewrite Hurl in Hu'. injection Hu' as <-.
  unfold extractTime, querySelectorWithFallback in E. rewrite Htime in E.
  injection E as -> ->.
  rewrite created_publishedDate_scraped. cbn [js_string_or_null].
  rewrite js_or_str_default_id.
  unfold created_title, created_publishedDate, created_dateText. rewrite Htime.
  set (T := trim (link_text link)).
  set (P := match datetime time with
            | Some d => if String.eqb d "" then trim (time_text time) else d
            | None => trim (time_text time)
            end).
  set (D := trim (time_text time)).
  set (n := normalizeUrl1 u) in *.
  assert (Hn : n <> "") by now apply validateUrl_nonempty.
  (* the save of the draft *)
  destruct (saveArticle_spec (scraped (JStr u) (JStr T) (JStr P) (JStr D)) u w None
              (JBool false) JNull) as (w2 & Hsave & Hitems & _).
  { reflexivity. }
  { apply scraped_structured; [now apply validateUrl_nonempty | reflexivity | reflexivity]. }
  { exact Hv. } { exact He. } { exact Hse. }
  { fold n. rewrite Hvn, Hfix. rewrite (getStorageKey_fixed n Hn Hfix). exact Hnone. }
  { reflexivity. }
  cbn zeta in Hsave, Hitems. fold n in Hsave, Hitems.
  destruct (prop_scraped (JStr u) (JStr T) (JStr P) (JStr D)) as (_ & P2 & P3 & P4 & _).
  rewrite P2, P3, P4 in Hsave, Hitems. cbn [and_prop] in Hsave, Hitems.
  (* the record that the status change creates *)
  unfold getOrCreateArticle. rewrite Hv. cbn [negb]. fold n.
  unfold mbind, M_bind. rewrite (getArticle_fixed n w Hvn Hfix He), Hnone.
  set (w1 := mkWorld _ _ _).
  destruct (saveArticle_spec
              (article (JStr n) (JStr T) (JStr P) (JStr D) (JBool false) JNull) n w1 None
              (JBool false) JNull) as (w3 & Hsave' & Hitems' & _).
  { reflexivity. }
  { unfold validateArticleStructure. fields. cbn. now rewrite (eqb_empty_false n Hn). }
  { exact Hvn. } { exact He. } { exact Hse. }
  { rewrite Hfix, Hvn, Hfix. rewrite (getStorageKey_fixed n Hn Hfix). exact Hnone. }
  { reflexivity. }
  cbn zeta in Hsave', Hitems'. rewrite Hfix in Hsave', Hitems'.
  rewrite !prop_article_title, !prop_article_publishedDate, !prop_article_dateText
    in Hsave', Hitems'.
  cbn [and_prop] in Hsave', Hitems'.
  rewrite Hsave, Hsave'. cbn [fst snd].
  eexists. split; [reflexivity|]. split; [reflexivity|].
  rewrite Hitems, Hitems'. split; [reflexivity|].
  rewrite (getStorageKey_fixed n Hn Hfix). split; [now rewrite lookup_insert_eq|reflexivity].
Qed.

(** ** What a snapshot and an existing-articles map hold *)

(** Every entry of a snapshot is an article of the listing it was built
    from, under its url. *)
Lemma buildCache_sound articles k a :
  buildCache articles !! k = Some a ->
  a ∈ articles /\ truthy (prop a "url") = true /\ toPropertyKey (prop a "url") = k.
Proof.
  unfold buildCache.
  assert (G : forall acc : gmap string jsobj,
    fold_left
      (fun c a => if truthy (prop a "url")
                  then <[toPropertyKey (prop a "url") := a]> c else c) articles acc !! k
    = Some a ->
    acc !! k = Some a
    \/ (a ∈ articles /\ truthy (prop a "url") = true /\ toPropertyKey (prop a "url") = k)).
  { induction articles as [|b l IH]; intros acc H; cbn [fold_left] in H.
    - now left.
    - destruct (IH _ H) as [Hacc|(Hin & Ht & Hk)].
      + destruct (truthy (prop b "url")) eqn:Hb; [|now left].
        apply lookup_insert_Some in Hacc as [[Hk <-]|[_ Hacc]]; [|now left].
        right. repeat split; [left | exact Hb | exact Hk].
      + right. repeat split; [now right | exact Ht | exact Hk]. }
  intros H. destruct (G ∅ H) as [H0|H1]; [now rewrite lookup_empty in H0|exact H1].
Qed.


(** C7. Cache TTL boundary: with a snapshot held since [stamp], a get at
    age ttl - 1 returns the held snapshot and leaves the browser state,
    the log of store calls included, as it was; a get at age ttl + 1 lists
    the store and, when the listing succeeds, replaces the snapshot by a new
    one, stamped with the time of the call. The new snapshot holds every
    stored article that has a non-empty string for a url, under that url;
    each of its entries is a stored article, under its url; and for a store
    that holds every article under the key of its url, it answers a url
    with what the store holds under the key of that url. *)
Theorem cache_ttl_boundary (st : chrome_storage) (held : gmap string jsobj) (stamp : Z) :
  let at_age age := mkWorld st (Some (mkCache (Some held) stamp)) (stamp + age) in
  getArticlesCache (at_age (CONFIG.cache_ttl - 1)) = (Ok held, at_age (CONFIG.cache_ttl - 1))
  /\ exists r w',
       getArticlesCache (at_age (CONFIG.cache_ttl + 1)) = (r, w')
       /\ calls (storage w') = StorageGet None :: calls st
       /\ items (storage w') = items st
       /\ match getError st with
          | None =>
              exists snapshot,
                r = Ok snapshot
                /\ snapshot = buildCache (storedArticles st)
                /\ cache w' = Some (mkCache (Some snapshot) (stamp + (CONFIG.cache_ttl + 1)))
                /\ (forall key a url,
                      items st !! key = Some a ->
                      startsWith key CONFIG.storage_prefix = true ->
                      prop a "url" = JStr url -> url <> "" ->
                      is_Some (snapshot !! url))
                /\ (forall url a,
                      snapshot !! url = Some a ->
                      toPropertyKey (prop a "url") = url
                      /\ exists key, items st !! key = Some a
                                     /\ startsWith key CONFIG.storage_prefix = true)
                /\ (wellKeyed (items st) ->
                    forall url, snapshot !! url = items st !! (CONFIG.storage_prefix ++ url))
          | Some message => r = Thrown message
          end.
Proof.
  intros at_age. split.
  - apply getArticlesCache_served. unfold servedSnapshot, at_age. cbn.
    replace (stamp + (CONFIG.cache_ttl - 1) - stamp) with (CONFIG.cache_ttl - 1) by lia.
    reflexivity.
  - assert (Hs : servedSnapshot (at_age (CONFIG.cache_ttl + 1)) = None).
    { unfold servedSnapshot, at_age. cbn.
      replace (stamp + (CONFIG.cache_ttl + 1) - stamp) with (CONFIG.cache_ttl + 1) by lia.
      reflexivity. }
    destruct (getError st) as [message|] eqn:He.
    + eexists _, _. split; [|split; [|split]].
      * eapply getArticlesCache_reload_fail; [reflexivity|exact Hs|exact He].
      * reflexivity.
      * reflexivity.
      * reflexivity.
    + eexists _, _. split; [|split; [|split]].
      * eapply getArticlesCache_reload; [reflexivity|exact Hs|exact He].
      * reflexivity.
      * reflexivity.
      * exists (buildCache (storedArticles st)).
        split; [reflexivity|]. split; [reflexivity|]. split; [reflexivity|].
        split; [|split].
        -- intros key a url Hk Hp Hu Hne. apply buildCache_tracks; [exact Hne|].
           exists a. split; [|exact Hu]. apply storedArticles_elem. now exists key.
        -- intros url a Hl. apply buildCache_sound in Hl as (Hin & _ & Hk).
           split; [exact Hk|]. now apply storedArticles_elem.
        -- intros Hw url. now apply buildCache_wellKeyed.
Qed.

(** ** The read-state invariant of the store *)




















End Platform.

(** * The properties on concrete inputs

    The browser functions are taken at their reference instances. *)

Example toISOString_ref_june : toISOString_ref 1717200000000 = "2024-06-01T00:00:00.000Z".
Proof. vm_compute. reflexivity. Qed.

Example Date_parse_iso_june : Date_parse_iso "2024-06-01T00:00:00.000Z" = Some 1717200000000.
Proof. vm_compute. reflexivity. Qed.

(** ** Import *)

(** C1. The store holds the article unread; the two entries say it was read
    in January and in June. Each import reports one update, and in either
    order the stored record is left as it was: unread, without a read date.
    The record merged by [mergeArticleDataForImport] is handed to
    [saveArticles], whose [mergeArticleState] keeps the read state of the
    record it finds in the store. *)
Theorem import_read_date_not_persisted :
  import_twice URL_href_site Date_parse_iso [Obj entry_jan] [Obj entry_jun] {[key_a := unread_a]}
    = {[key_a := unread_a]}
  /\ import_twice URL_href_site Date_parse_iso [Obj entry_jun] [Obj entry_jan] {[key_a := unread_a]}
    = {[key_a := unread_a]}
  /\ fst (importDataFromFile URL_href_site Date_parse_iso [Obj entry_jun]
            (popup {[key_a := unread_a]} 0)) = Ok (0, 1, 0)
  /\ readState unread_a = (JBool false, JNull).
Proof. repeat split; vm_compute; reflexivity. Qed.

(** From an empty store the record that is imported first stays: January
    then June ends with the January date, June then January with the June
    date. *)
Lemma import_order_decides_read_date :
  readState <$> (import_twice URL_href_site Date_parse_iso [Obj entry_jan] [Obj entry_jun] ∅
                   !! key_a)
    = Some (JBool true, JStr "2024-01-01T00:00:00.000Z")
  /\ readState <$> (import_twice URL_href_site Date_parse_iso [Obj entry_jun] [Obj entry_jan] ∅
                      !! key_a)
    = Some (JBool true, JStr "2024-06-01T00:00:00.000Z").
Proof. split; vm_compute; reflexivity. Qed.

(** A stored record that is read keeps its date against a later one. *)
Lemma import_keeps_older_stored_date :
  readState <$> (import_twice URL_href_site Date_parse_iso [Obj entry_jan] [Obj entry_jun]
                   {[key_a := read_a]} !! key_a)
    = Some (JBool true, JStr "2023-05-05T00:00:00.000Z").
Proof. vm_compute. reflexivity. Qed.

(** ** The read-state invariant *)


(** An import entry that is read and carries no date is stored read with a
    null date. *)
Lemma import_read_undated :
  readState <$> (items_after (importDataFromFile URL_href_site Date_parse_iso
                                [Obj read_undated] (popup ∅ 0)) !! key_a)
  = Some (JBool true, JNull).
Proof. vm_compute. reflexivity. Qed.


(** ** Sync merge *)

Lemma mergeArticleState_keeps_read_witness :
  prop read_a "isRead" = JBool true
  /\ exists r,
       mergeArticleState URL_href_site (Some read_a) draft_a = Some r
       /\ prop r "isRead" = JBool true
       /\ prop r "readDate" = prop read_a "readDate".
Proof.
  split; [vm_compute; reflexivity|].
  apply (mergeArticleState_keeps_read URL_href_site read_a draft_a).
  - vm_compute. reflexivity.
  - vm_compute. reflexivity.
  - right. vm_compute. reflexivity.
Defined.

(** ** The cache after a failed fetch *)

(** C3, counterexample. The store holds an article and fails to answer; the
    get throws. One second later the store answers again, and the get returns
    the empty mapping without a call to the store. *)
Lemma getArticlesCache_serves_error_state :
  let failed := getArticlesCache (page_failing {[key_a := read_a]} (mkCache None 0) 1000) in
  let later := mkWorld (store_of {[key_a := read_a]}) (cache failed.2) 2000 in
  failed.1 = Thrown "storage unavailable"
  /\ getArticlesCache later = (Ok ∅, later)
  /\ calls (storage later) = [].
Proof. repeat split. Qed.

Lemma getArticlesCache_after_failure_witness :
  exists w1,
    getArticlesCache (page_failing {[key_a := read_a]} (mkCache None 0) 1000)
      = (Thrown "storage unavailable", w1)
    /\ cache w1 = Some (mkCache (Some ∅) 1000)
    /\ forall (st2 : chrome_storage) (now2 : Z),
         let w2 := mkWorld st2 (cache w1) now2 in
         (now2 - 1000 <= CONFIG.cache_ttl -> getArticlesCache w2 = (Ok ∅, w2))
         /\ (CONFIG.cache_ttl < now2 - 1000 ->
             calls (storage (snd (getArticlesCache w2))) = StorageGet None :: calls st2).
Proof.
  apply (getArticlesCache_after_failure
           (page_failing {[key_a := read_a]} (mkCache None 0) 1000)
           (mkCache None 0) "storage unavailable"); reflexivity.
Defined.

(** ** Normalisation *)

(** C6, counterexample. A path that ends in two slashes loses one of them
    at each normalisation. *)
Lemma normalizeUrl_not_idempotent :
  on_site "/a//" = true
  /\ normalizeUrl1 URL_href_site "/a//" = "https://lethain.com/a/"
  /\ on_site "https://lethain.com/a/" = true
  /\ normalizeUrl1 URL_href_site (normalizeUrl1 URL_href_site "/a//") = "https://lethain.com/a"
  /\ normalizeUrl1 URL_href_site (normalizeUrl1 URL_href_site "/a//")
     <> normalizeUrl1 URL_href_site "/a//".
Proof. repeat split; try (vm_compute; reflexivity). vm_compute. discriminate. Qed.

Lemma normalizeUrl_idempotent_witness :
  URL_href_site (trim "/a/") "https://lethain.com" = Some "https://lethain.com/a/"
  /\ normalizeUrl1 URL_href_site (normalizeUrl1 URL_href_site "/a/")
     = normalizeUrl1 URL_href_site "/a/".
Proof.
  split; [vm_compute; reflexivity|].
  apply (normalizeUrl_idempotent URL_href_site "/a/" "https://lethain.com/a/").
  - vm_compute. reflexivity.
  - vm_compute. reflexivity.
  - vm_compute. reflexivity.
  - vm_compute. reflexivity.
  - left. vm_compute. reflexivity.
  - vm_compute. reflexivity.
Defined.

(** *** Idempotence on the site's own addresses *)

Lemma all_chars_app f s t : all_chars f (s ++ t) = all_chars f s && all_chars f t.
Proof.
  induction s as [|a s IH]; [reflexivity|].
  rewrite append_cons. cbn [all_chars]. rewrite IH. apply andb_assoc.
Qed.

Lemma all_chars_slice f s : all_chars f s = true -> all_chars f (slice_0_m1 s) = true.
Proof.
  induction s as [|a s IH]; [reflexivity|].
  cbn [all_chars]. intros H. apply andb_true_iff in H as [Ha Hs].
  destruct s as [|b s']; [reflexivity|].
  change (slice_0_m1 (String a (String b s'))) with (String a (slice_0_m1 (String b s'))).
  cbn [all_chars]. rewrite Ha. exact (IH Hs).
Qed.

Lemma all_chars_impl (f g : ascii -> bool) s :
  (forall a, f a = true -> g a = true) -> all_chars f s = true -> all_chars g s = true.
Proof.
  intros Hfg. induction s as [|a s IH]; [reflexivity|].
  cbn [all_chars]. intros H. apply andb_true_iff in H as [Ha Hs].
  now rewrite (Hfg a Ha), (IH Hs).
Qed.

Lemma plainPathChar_not_ws a : plainPathChar a = true -> negb (is_ws a) = true.
Proof.
  destruct a as [[] [] [] [] [] [] [] []]; intros H; try reflexivity; discriminate H.
Qed.

Lemma trimEnd_no_ws s : all_chars (fun a => negb (is_ws a)) s = true -> trimEnd s = s.
Proof.
  induction s as [|a s IH]; [reflexivity|].
  cbn [all_chars trimEnd]. intros H. apply andb_true_iff in H as [Ha Hs].
  rewrite (IH Hs). destruct s; [|reflexivity].
  apply negb_true_iff in Ha. now rewrite Ha.
Qed.

Lemma trim_no_ws s : all_chars (fun a => negb (is_ws a)) s = true -> trim s = s.
Proof.
  intros H. unfold trim.
  assert (E : trimStart s = s).
  { destruct s as [|a s]; [reflexivity|].
    cbn [all_chars] in H. apply andb_true_iff in H as [Ha _].
    apply negb_true_iff in Ha. cbn [trimStart]. now rewrite Ha. }
  rewrite E. now apply trimEnd_no_ws.
Qed.

Lemma strip_prefix_app pre p : strip_prefix pre (pre ++ p) = Some p.
Proof.
  induction pre as [|a pre IH]; [reflexivity|].
  rewrite append_cons. cbn [strip_prefix]. now rewrite Ascii.eqb_refl.
Qed.

Lemma strip_prefix_inv pre : forall s p, strip_prefix pre s = Some p -> s = pre ++ p.
Proof.
  induction pre as [|a pre IH]; intros s p; cbn [strip_prefix].
  - now intros [= ->].
  - destruct s as [|b s]; [discriminate|].
    destruct (Ascii.eqb_spec a b) as [->|]; [|discriminate].
    intros H. rewrite append_cons. f_equal. now apply IH.
Qed.

Lemma slice_app s t : t <> "" -> slice_0_m1 (s ++ t) = s ++ slice_0_m1 t.
Proof.
  intros Ht. induction s as [|a s IH]; [reflexivity|].
  rewrite !append_cons. cbn [slice_0_m1].
  destruct (s ++ t) eqn:E.
  - destruct s; [cbn in E; contradiction|discriminate].
  - f_equal. exact IH.
Qed.

Lemma length_append s t :
  String.length (s ++ t) = (String.length s + String.length t)%nat.
Proof.
  induction s as [|a s IH]; [reflexivity|].
  rewrite append_cons. cbn [String.length]. now rewrite IH.
Qed.

(** A suffix of two characters is looked for in the last two characters. *)
Lemma endsWith_app_two s a b t x y :
  endsWith (s ++ String a (String b t)) (String x (String y ""))
  = endsWith (String a (String b t)) (String x (String y "")).
Proof.
  induction s as [|c s IH]; [reflexivity|].
  rewrite append_cons. cbn [endsWith]. rewrite IH.
  replace (String.eqb (String c (s ++ String a (String b t))) (String x (String y "")))
    with false; [reflexivity|].
  symmetry. apply String.eqb_neq. intros E.
  apply (f_equal String.length) in E. cbn [String.length] in E.
  rewrite length_append in E. cbn [String.length] in E. lia.
Qed.

Lemma plainPath_cons p :
  plainPath p = true -> exists p', p = String "/" p' /\ all_chars plainPathChar p' = true.
Proof.
  unfold plainPath, startsWith. intros H. apply andb_true_iff in H as [H1 H2].
  destruct p as [|a p']; [discriminate|].
  cbn [String.prefix] in H1. destruct (ascii_dec "/" a) as [<-|]; [|discriminate].
  exists p'. split; [reflexivity|].
  cbn [all_chars] in H2. now apply andb_true_iff in H2 as [_ H2].
Qed.

Lemma plainPath_intro p' :
  all_chars plainPathChar p' = true -> plainPath (String "/" p') = true.
Proof.
  intros H. unfold plainPath, startsWith. cbn [all_chars]. rewrite H.
  destruct p'; reflexivity.
Qed.

(** The href of an absolute address of the site is the address. *)
Lemma URL_href_site_absolute p :
  plainPath p = true ->
  URL_href_site ("https://lethain.com" ++ p) "https://lethain.com"
  = Some ("https://lethain.com" ++ p).
Proof.
  intros Hp. destruct (plainPath_cons p Hp) as (p' & -> & _).
  unfold URL_href_site. rewrite strip_prefix_app, Hp. reflexivity.
Qed.

(** Every address of the site has an href of the form origin plus plain
    path, which ends in two slashes only if the address does. *)
Lemma URL_href_site_form t :
  on_site t = true ->
  exists p,
    plainPath p = true
    /\ URL_href_site t "https://lethain.com" = Some ("https://lethain.com" ++ p)
    /\ (endsWith t "//" = false -> endsWith ("https://lethain.com" ++ p) "//" = false).
Proof.
  unfold on_site. intros H.
  destruct (String.eqb t "") eqn:Et.
  { apply String.eqb_eq in Et. subst t. exists "/". repeat split. }
  apply String.eqb_neq in Et. cbn [orb] in H.
  destruct (plainPath t && negb (startsWith t "//")) eqn:Hrel.
  - apply andb_true_iff in Hrel as [Hp Hs].
    exists t. split; [exact Hp|]. split.
    + unfold URL_href_site. destruct (String.eqb_spec t ""); [contradiction|].
      rewrite Hp, Hs. reflexivity.
    + destruct (plainPath_cons t Hp) as (t' & -> & _).
      destruct t' as [|b t'']; [reflexivity|].
      intros Hd. rewrite endsWith_app_two. exact Hd.
  - cbn [orb] in H.
    destruct (strip_prefix "https://lethain.com" t) as [p|] eqn:Hp; [|discriminate].
    apply strip_prefix_inv in Hp as ->.
    destruct p as [|a p'].
    + exists "/". repeat split.
    + exists (String a p'). split; [exact H|]. split.
      * apply URL_href_site_absolute, H.
      * tauto.
Qed.

(** On the addresses of the site (the empty input, a path, an absolute
    address, with or without a trailing slash, the root) that do not end in
    two slashes, a second normalisation changes nothing. *)
Lemma normalizeUrl_site_idempotent u :
  on_site (trim u) = true ->
  endsWith (trim u) "//" = false ->
  normalizeUrl1 URL_href_site (normalizeUrl1 URL_href_site u)
  = normalizeUrl1 URL_href_site u.
Proof.
  intros Hsite Hdd.
  destruct (URL_href_site_form (trim u) Hsite) as (p & Hp & Hh & Hd).
  specialize (Hd Hdd).
  destruct (plainPath_cons p Hp) as (p' & -> & Hp').
  assert (Hws : all_chars (fun a => negb (is_ws a)) ("https://lethain.com" ++ String "/" p') = true).
  { rewrite all_chars_app. apply andb_true_iff. split; [reflexivity|].
    cbn [all_chars]. apply andb_true_iff. split; [reflexivity|].
    exact (all_chars_impl _ _ p' plainPathChar_not_ws Hp'). }
  unfold normalizeUrl1.
  apply (normalizeUrl_idempotent_core URL_href_site u _ _ Hh).
  - apply trim_no_ws, Hws.
  - apply trim_no_ws, all_chars_slice, Hws.
  - apply URL_href_site_absolute, Hp.
  - destruct p' as [|b p''].
    + right. reflexivity.
    + left. rewrite slice_app by discriminate.
      change (slice_0_m1 (String "/" (String b p''))) with (String "/" (slice_0_m1 (String b p''))).
      apply URL_href_site_absolute, plainPath_intro, all_chars_slice, Hp'.
  - exact Hd.
Qed.

(** ** Marking as read *)

(** C8, counterexample. The url [/a///] is valid and normalises to
    [https://lethain.com/a//]. From an empty store [markAsRead] saves and
    returns a record with the url [https://lethain.com/a], under the key of
    that url; [getArticle] of the same input asks for the key of
    [https://lethain.com/a/] and finds nothing. Every address on the way is
    one of the site's own. *)
Lemma markAsRead_triple_slash_lost :
  let run := markAsRead URL_href_site toISOString_ref "/a///" "A" "" "" (popup ∅ 1717200000000) in
  validateUrl (JStr "/a///") = true
  /\ on_site "/a///" = true
  /\ normalizeUrl1 URL_href_site "/a///" = "https://lethain.com/a//"
  /\ run.1 = Ok (Some (article (JStr "https://lethain.com/a") (JStr "A") (JStr "") (JStr "")
                         (JBool true) (JStr "2024-06-01T00:00:00.000Z")))
  /\ dom (items_after run) = {["article_https://lethain.com/a"]}
  /\ (getArticle URL_href_site "/a///" run.2).1 = Ok None.
Proof. repeat split; vm_compute; reflexivity. Qed.

(** With two slashes the record is found again, but its url is not the
    normal form of the input. *)
Lemma markAsRead_double_slash :
  let run := markAsRead URL_href_site toISOString_ref "/a//" "A" "" "" (popup ∅ 1717200000000) in
  validateUrl (JStr "/a//") = true
  /\ on_site "/a//" = true
  /\ normalizeUrl1 URL_href_site "/a//" = "https://lethain.com/a/"
  /\ run.1 = Ok (Some (article (JStr "https://lethain.com/a") (JStr "A") (JStr "") (JStr "")
                         (JBool true) (JStr "2024-06-01T00:00:00.000Z"))).
Proof. repeat split; vm_compute; reflexivity. Qed.

Lemma markAsRead_fresh_witness :
  validateUrl (JStr "/a") = true
  /\ exists w',
       markAsRead URL_href_site toISOString_ref "/a" "A" "2024-01-01" "January 1, 2024"
         (popup ∅ 1717200000000)
       = (Ok (Some (article (JStr (normalizeUrl1 URL_href_site "/a")) (JStr "A")
                      (JStr "2024-01-01") (JStr "January 1, 2024") (JBool true)
                      (JStr (toISOString_ref 1717200000000)))), w')
       /\ fst (getArticle URL_href_site "/a" w')
          = Ok (Some (article (JStr (normalizeUrl1 URL_href_site "/a")) (JStr "A")
                        (JStr "2024-01-01") (JStr "January 1, 2024") (JBool true)
                        (JStr (toISOString_ref 1717200000000)))).
Proof.
  split; [vm_compute; reflexivity|].
  apply (markAsRead_fresh URL_href_site toISOString_ref (popup ∅ 1717200000000)
           "/a" "A" "2024-01-01" "January 1, 2024").
  - reflexivity.
  - reflexivity.
  - reflexivity.
  - vm_compute. reflexivity.
  - vm_compute. reflexivity.
  - vm_compute. reflexivity.
Defined.

(** ** Sync *)

(** C9. A sync overwrites a stored record that the page's snapshot does not
    list. The store holds the article, read, under the key of its url; the
    page holds a snapshot one second old, well within its time to live, that
    does not list it (taken before another context stored the article, or
    left empty by a failed fetch). The sync of a draft for the article does
    not skip it: it returns 1 and writes an unread record with the draft's
    title over the stored one. *)
Theorem syncArticles_stale_snapshot :
  let w := page {[key_a := read_a]} (mkCache (Some ∅) 1000) 2000 in
  let run := syncArticles URL_href_site [Obj draft_a] w in
  items (storage w) !! key_a = Some read_a
  /\ prop read_a "url" = JStr (normalizeUrl1 URL_href_site url_a)
  /\ readState read_a = (JBool true, JStr "2023-05-05T00:00:00.000Z")
  /\ run.1 = Ok 1
  /\ readState <$> (items_after run !! key_a) = Some (JBool false, JNull)
  /\ (fun a => prop a "title") <$> (items_after run !! key_a) = Some (JStr "New Title").
Proof. repeat split; vm_compute; reflexivity. Qed.

(** The same from the code's own doing: the fetch that the page makes when
    it builds its interface fails and leaves the empty mapping; the store
    answers again, and the sync that follows within the TTL takes the article
    on the page for a new one. *)
Lemma syncArticles_after_failed_fetch :
  let failed := getArticlesCache (page_failing {[key_a := read_a]} (mkCache None 0) 400) in
  let recovered := mkWorld (store_of {[key_a := read_a]}) (cache failed.2) 500 in
  let run := syncArticles URL_href_site [Obj draft_a] recovered in
  failed.1 = Thrown "storage unavailable"
  /\ run.1 = Ok 1
  /\ readState <$> (items_after run !! key_a) = Some (JBool false, JNull).
Proof. repeat split; vm_compute; reflexivity. Qed.

(** With no snapshot held, the same sync skips the article. *)
Lemma syncArticles_skips_tracked_without_snapshot :
  let w := page {[key_a := read_a]} (mkCache None 0) 2000 in
  tracked w (normalizeUrl1 URL_href_site url_a) = true
  /\ exists w' gets,
       syncArticles URL_href_site [Obj draft_a] w = (Ok 0, w')
       /\ items (storage w') = items (storage w)
       /\ calls (storage w') = (gets ++ calls (storage w))%list
       /\ Forall (fun c => is_set c = false) gets.
Proof.
  split; [vm_compute; reflexivity|].
  apply (syncArticles_skips_tracked URL_href_site [Obj draft_a]
           (page {[key_a := read_a]} (mkCache None 0) 2000)).
  - intros _. reflexivity.
  - intros d url Hin Hu _.
    apply list_elem_of_singleton in Hin. injection Hin as ->.
    vm_compute in Hu. injection Hu as <-. vm_compute. reflexivity.
Qed.


(** * The further properties on concrete inputs *)

Lemma wellKeyed_read_a : wellKeyed {[key_a := read_a]}.
Proof.
  intros k a Hk _. apply lookup_singleton_Some in Hk as [<- <-].
  exists url_a. split; [discriminate|]. split; vm_compute; reflexivity.
Qed.

Lemma wellKeyed_unread_a : wellKeyed {[key_a := unread_a]}.
Proof.
  intros k a Hk _. apply lookup_singleton_Some in Hk as [<- <-].
  exists url_a. split; [discriminate|]. split; vm_compute; reflexivity.
Qed.

Lemma storedForm_store_ab k a :
  store_ab !! k = Some a -> storedForm URL_href_site k a.
Proof.
  unfold store_ab. intros Hk.
  apply lookup_insert_Some in Hk as [[<- <-]|[_ Hk]].
  - exists url_a, "A", "2024-01-01", "January 1, 2024", true, (JStr "2023-05-05T00:00:00.000Z").
    repeat split; try (vm_compute; reflexivity); [discriminate|].
    right. eexists. split; [|reflexivity]. discriminate.
  - apply lookup_singleton_Some in Hk as [<- <-].
    exists url_b, "B", "2024-02-02", "February 2, 2024", false, JNull.
    repeat split; try (vm_compute; reflexivity); [discriminate|]. now left.
Qed.

Lemma stable_draft_b (d : jsobj) (u : string) :
  validDraft [Obj draft_b] d u ->
  validateUrl (JStr (normalizeUrl1 URL_href_site u)) = true
  /\ normalizeUrl1 URL_href_site (normalizeUrl1 URL_href_site u) = normalizeUrl1 URL_href_site u.
Proof.
  intros (Hin & Hu & _). apply list_elem_of_singleton in Hin. injection Hin as ->.
  vm_compute in Hu. injection Hu as <-. split; vm_compute; reflexivity.
Qed.

Lemma normalizeUrl_trailing_slash_witness :
  endsWith (resolved URL_href_site "/a/" "https://lethain.com") "//" = false
  /\ (normalizeUrl1 URL_href_site "/a/" = "https://lethain.com/"
      \/ endsWith (normalizeUrl1 URL_href_site "/a/") "/" = false).
Proof.
  split; [vm_compute; reflexivity|].
  apply (normalizeUrl_trailing_slash URL_href_site "/a/"). vm_compute. reflexivity.
Defined.

Lemma mergeArticleState_idempotent_witness :
  exists r, mergeArticleState URL_href_site (Some read_a) draft_a = Some r
    /\ mergeArticleState URL_href_site (Some r) draft_a = Some r.
Proof.
  eexists. split; [vm_compute; reflexivity|].
  apply (mergeArticleState_idempotent URL_href_site (Some read_a) draft_a).
  vm_compute. reflexivity.
Defined.

Lemma mergeArticleDataForImport_latest_witness :
  Date_value Date_parse_iso (prop read_a "readDate") = Some 1683244800000
  /\ Date_value Date_parse_iso (prop entry_jun "readDate") = Some 1717200000000
  /\ truthy (prop (import_kept Date_parse_iso read_a entry_jun) "isRead") = true
  /\ Date_value Date_parse_iso (prop (import_kept Date_parse_iso read_a entry_jun) "readDate")
     = Some (Z.max 1717200000000 1683244800000)
  /\ (mergeArticleDataForImport Date_parse_iso read_a entry_jun <> None
      <-> 1683244800000 < 1717200000000).
Proof.
  split; [vm_compute; reflexivity|]. split; [vm_compute; reflexivity|].
  apply (mergeArticleDataForImport_latest Date_parse_iso read_a entry_jun);
    vm_compute; reflexivity.
Defined.

Lemma mergeArticleDataForImport_order_witness :
  Date_value Date_parse_iso
    (prop (import_kept Date_parse_iso (import_kept Date_parse_iso unread_a entry_jan) entry_jun)
       "readDate")
  = Date_value Date_parse_iso
      (prop (import_kept Date_parse_iso (import_kept Date_parse_iso unread_a entry_jun) entry_jan)
         "readDate")
  /\ truthy
       (prop (import_kept Date_parse_iso (import_kept Date_parse_iso unread_a entry_jan) entry_jun)
          "isRead") = true
  /\ truthy
       (prop (import_kept Date_parse_iso (import_kept Date_parse_iso unread_a entry_jun) entry_jan)
          "isRead") = true.
Proof.
  apply (mergeArticleDataForImport_order Date_parse_iso unread_a entry_jan entry_jun
           1704067200000 1717200000000); vm_compute; reflexivity.
Defined.

Lemma syncArticles_preserves_stored_witness :
  items (storage (syncArticles URL_href_site [Obj draft_b] (popup {[key_a := read_a]} 0)).2)
    !! key_a = Some read_a.
Proof.
  apply (syncArticles_preserves_stored URL_href_site [Obj draft_b]
           (popup {[key_a := read_a]} 0) key_a read_a).
  - reflexivity.
  - exact wellKeyed_read_a.
  - intros d u H. exact (proj2 (stable_draft_b d u H)).
  - vm_compute. reflexivity.
Defined.

Lemma syncArticles_idempotent_witness :
  let w1 := (syncArticles URL_href_site [Obj draft_b] (popup {[key_a := read_a]} 0)).2 in
  (exists n, (syncArticles URL_href_site [Obj draft_b] (popup {[key_a := read_a]} 0)).1 = Ok n)
  /\ (syncArticles URL_href_site [Obj draft_b] w1).1 = Ok 0
  /\ items (storage (syncArticles URL_href_site [Obj draft_b] w1).2) = items (storage w1).
Proof.
  apply (syncArticles_idempotent URL_href_site [Obj draft_b] (popup {[key_a := read_a]} 0)).
  - reflexivity.
  - reflexivity.
  - reflexivity.
  - exact wellKeyed_read_a.
  - exact stable_draft_b.
Defined.

Lemma saveArticle_then_getArticle_witness :
  exists r w',
    saveArticle URL_href_site toISOString_ref draft_a (popup ∅ 0) = (Ok (Some r), w')
    /\ exists u, prop draft_a "url" = JStr u
         /\ (getArticle URL_href_site u w').1 = Ok (Some r)
         /\ (normalizeUrl1 URL_href_site u <> "" ->
             exists l, (getAllArticles w').1 = Ok l /\ r ∈ l).
Proof.
  eexists. eexists. split; [vm_compute; reflexivity|].
  apply (saveArticle_then_getArticle URL_href_site toISOString_ref draft_a _ (popup ∅ 0));
    vm_compute; reflexivity.
Defined.

Lemma saveArticle_keeps_read_state_witness :
  exists r w',
    saveArticle URL_href_site toISOString_ref draft_a (popup {[key_a := read_a]} 0)
      = (Ok (Some r), w')
    /\ readState r = readStateRead read_a
    /\ items (storage w') = <[CONFIG.storage_prefix ++ normalizeUrl1 URL_href_site url_a := r]>
                              (items (storage (popup {[key_a := read_a]} 0))).
Proof.
  eexists. eexists. split; [vm_compute; reflexivity|].
  apply (saveArticle_keeps_read_state URL_href_site toISOString_ref draft_a read_a _ url_a
           (popup {[key_a := read_a]} 0)); vm_compute; reflexivity.
Defined.

Lemma saveArticle_well_structured_witness :
  wellStructured
    (items (storage (saveArticle URL_href_site toISOString_ref draft_a
                       (popup {[key_a := read_a]} 0)).2)).
Proof.
  apply (saveArticle_well_structured URL_href_site toISOString_ref draft_a
           (popup {[key_a := read_a]} 0)).
  - intros k e Hk. change (({[key_a := read_a]} : gmap string jsobj) !! k = Some e) in Hk.
    apply lookup_singleton_Some in Hk as [_ <-]. vm_compute. reflexivity.
  - intros u Hu. vm_compute in Hu. injection Hu as <-. vm_compute. discriminate.
Defined.

Lemma markAsRead_stored_witness :
  let record :=
    article (JStr url_a) (JStr "A") (JStr "2024-01-01") (JStr "January 1, 2024")
      (JBool true) (JStr (toISOString_ref 1717200000000)) in
  exists w',
    markAsRead URL_href_site toISOString_ref "/a/" "Other title" "" ""
      (popup {[key_a := unread_a]} 1717200000000) = (Ok (Some record), w')
    /\ items (storage w')
       = <[CONFIG.storage_prefix ++ url_a := record]>
           (items (storage (popup {[key_a := unread_a]} 1717200000000))).
Proof.
  apply (markAsRead_stored URL_href_site toISOString_ref
           (popup {[key_a := unread_a]} 1717200000000) "/a/" "Other title" "" ""
           url_a "A" "2024-01-01" "January 1, 2024" (JBool false) JNull);
    vm_compute; reflexivity.
Defined.

Lemma markAsUnread_stored_witness :
  let record :=
    article (JStr url_a) (JStr "A") (JStr "2024-01-01") (JStr "January 1, 2024")
      (JBool false) JNull in
  exists w',
    markAsUnread URL_href_site toISOString_ref "/a/" "Other title" "" ""
      (popup {[key_a := read_a]} 1717200000000) = (Ok (Some record), w')
    /\ items (storage w')
       = <[CONFIG.storage_prefix ++ url_a := record]>
           (items (storage (popup {[key_a := read_a]} 1717200000000))).
Proof.
  apply (markAsUnread_stored URL_href_site toISOString_ref
           (popup {[key_a := read_a]} 1717200000000) "/a/" "Other title" "" ""
           url_a "A" "2024-01-01" "January 1, 2024" (JBool true)
           (JStr "2023-05-05T00:00:00.000Z"));
    vm_compute; reflexivity.
Defined.

Lemma markAsRead_ill_structured_witness :
  let stored :=
    items_after (importDataFromFile URL_href_site Date_parse_iso [Obj entry_numbered]
                   (popup ∅ 0)) in
  (fun rec => prop rec "title") <$> stored !! key_a = Some (JNum 5)
  /\ (markAsRead URL_href_site toISOString_ref url_a "A" "" "" (popup stored 1717200000000)).1
     = Ok None
  /\ items (storage (markAsRead URL_href_site toISOString_ref url_a "A" "" ""
                       (popup stored 1717200000000)).2)
     = items (storage (popup stored 1717200000000)).
Proof.
  split; [vm_compute; reflexivity|].
  eapply (markAsRead_ill_structured URL_href_site toISOString_ref _ url_a "A" "" "");
    vm_compute; reflexivity.
Defined.

Lemma getArticlesCache_fresh_lookup_witness :
  let w := page {[key_a := read_a]} (mkCache None 0) 1717200000000 in
  let w' := (getArticlesCache w).2 in
  (getArticle URL_href_site "/a/" w').1 = Ok (getArticleFromCache URL_href_site "/a/" w')
  /\ getArticleFromCache URL_href_site "/a/" w'
     = items (storage w) !! (CONFIG.storage_prefix ++ normalizeUrl1 URL_href_site "/a/").
Proof.
  apply (getArticlesCache_fresh_lookup URL_href_site
           (page {[key_a := read_a]} (mkCache None 0) 1717200000000) (mkCache None 0) "/a/");
    try (vm_compute; reflexivity).
  - exact wellKeyed_read_a.
  - vm_compute. discriminate.
Defined.

Lemma importDataFromFile_keeps_read_state_witness :
  exists rec',
    items (storage (importDataFromFile URL_href_site Date_parse_iso [Obj entry_jun]
                      (popup {[key_a := unread_a]} 0)).2) !! key_a = Some rec'
    /\ readStateRead rec' = readStateRead unread_a.
Proof.
  apply (importDataFromFile_keeps_read_state URL_href_site Date_parse_iso [Obj entry_jun]
           (popup {[key_a := unread_a]} 0) key_a unread_a).
  - reflexivity.
  - exact wellKeyed_unread_a.
  - intros o u Hin Hu _. apply list_elem_of_singleton in Hin. injection Hin as ->.
    vm_compute in Hu. injection Hu as <-. vm_compute. reflexivity.
  - vm_compute. reflexivity.
  - vm_compute. reflexivity.
Defined.

Lemma export_import_round_trip_witness :
  let arts := storedArticles (store_of store_ab) in
  let e := mkExportData CONFIG_export.version (toISOString_ref 1717200000000) 2 arts in
  (importDataFromFile_parsed URL_href_site Date_parse_iso (export_document e) (popup ∅ 0)).1
    = Ok (1, 0, 1)
  /\ items (storage (importDataFromFile_parsed URL_href_site Date_parse_iso
                       (export_document e) (popup ∅ 0)).2)
     = filter (fun kv : string * jsobj => prop kv.2 "isRead" = JBool true) store_ab.
Proof.
  apply (export_import_round_trip URL_href_site Date_parse_iso toISOString_ref store_ab
           (storedArticles (store_of store_ab))
           (mkExportData CONFIG_export.version (toISOString_ref 1717200000000) 2
              (storedArticles (store_of store_ab)))
           (popup store_ab 1717200000000) (popup ∅ 0)).
  - exact storedForm_store_ab.
  - reflexivity.
  - vm_compute. reflexivity.
  - reflexivity.
  - reflexivity.
  - reflexivity.
  - reflexivity.
Defined.

Lemma setPageFilter_then_getPageFilter_witness :
  (getPageFilter (setPageFilter (JStr "read") (mkFilterStorage None None None)).2).1
  = Ok (JStr "read").
Proof.
  apply (setPageFilter_then_getPageFilter (JStr "read") (mkFilterStorage None None None)).
  reflexivity.
Defined.

Lemma invalidateCache_debounced_witness :
  (length (pending_invalidations (invalidateCache (invalidateCache page_a))) <= 1)%nat
  /\ forall id t,
       timers (invalidateCache (invalidateCache page_a)) !! id = Some t ->
       timer_callback_of t = TimeoutFn ->
       invalidateTimeout (invalidateCache (invalidateCache page_a)) = Some id.
Proof.
  apply (invalidateCache_debounced true
           (page {[key_a := unread_a]} (mkCache (Some {[url_a := unread_a]}) 1717200000000)
              1717200000000)).
  eapply rtc_l; [apply step_invalidateCache|].
  eapply rtc_l; [apply step_invalidateCache|]. apply rtc_refl.
Defined.

Lemma invalidateCache_takes_effect_witness :
  let w := page {[key_a := read_a]} (mkCache (Some {[url_a := unread_a]}) 1717200000000)
             1717200000100 in
  let s1 := invalidateCache page_a in
  let id := nextTimer page_a in
  let s2 := fire id (set_world w s1) in
  page_world s1 = page_world page_a
  /\ invalidateTimeout s1 = Some id
  /\ timers s1 !! id
     = Some (mkTimer TimeoutFn (resourceManager page_a)
               (clock (page_world page_a) + CONFIG_timeouts.cacheInvalidation))
  /\ cache (page_world s2) = Some (mkCache None 0)
  /\ invalidateTimeout s2 = None
  /\ no_invalidation s2
  /\ (getArticlesCache (page_world s2)).1 = Ok (buildCache (storedArticles (storage w))).
Proof.
  apply (invalidateCache_takes_effect true
           (page {[key_a := unread_a]} (mkCache (Some {[url_a := unread_a]}) 1717200000000)
              1717200000000)
           page_a _ (mkCache (Some {[url_a := unread_a]}) 1717200000000)).
  - apply rtc_refl.
  - reflexivity.
  - reflexivity.
Defined.

Lemma handleArticleStatusChange_cache_witness :
  match handleArticleStatusChange URL_href_site toISOString_ref url_a true "A" "" "" page_a with
  | (Some a, s') =>
      timers s' = timers page_a
      /\ invalidateTimeout s' = invalidateTimeout page_a
      /\ match articlesCache (mkCache (Some {[url_a := unread_a]}) 1717200000000) with
         | Some _ => getArticleFromCache URL_href_site url_a (page_world s') = Some a
         | None =>
             cache (page_world s') = Some (mkCache (Some {[url_a := unread_a]}) 1717200000000)
         end
  | (None, s') =>
      invalidateTimeout s' = Some (nextTimer page_a)
      /\ timers s' !! nextTimer page_a
         = Some (mkTimer TimeoutFn (resourceManager page_a)
                   (clock (page_world page_a) + CONFIG_timeouts.cacheInvalidation))
      /\ cache (page_world s') = Some (mkCache (Some {[url_a := unread_a]}) 1717200000000)
  end.
Proof.
  apply (handleArticleStatusChange_cache URL_href_site toISOString_ref url_a true "A" "" ""
           page_a (mkCache (Some {[url_a := unread_a]}) 1717200000000)).
  reflexivity.
Defined.

Lemma status_change_then_filter_witness :
  exists a s',
    handleArticleStatusChange URL_href_site toISOString_ref url_a true "A" "" "" page_a
    = (Some a, s')
    /\ let w' := page_world s' in
       applyFilter URL_href_site (JStr CONFIG_filters.unread) [element_a] w'
       = (Ok (filter_element URL_href_site (JStr CONFIG_filters.unread) w' <$> [element_a]), w')
       /\ hidden (filter_element URL_href_site (JStr CONFIG_filters.unread) w' element_a) = true
       /\ applyFilter URL_href_site (JStr CONFIG_filters.read) [element_a] w'
          = (Ok (filter_element URL_href_site (JStr CONFIG_filters.read) w' <$> [element_a]), w')
       /\ hidden (filter_element URL_href_site (JStr CONFIG_filters.read) w' element_a)
          = negb true
       /\ applyFilter URL_href_site (JStr CONFIG_filters.all) [element_a] w'
          = (Ok (set_hidden false <$> [element_a]), w').
Proof.
  eexists. eexists. split; [vm_compute; reflexivity|].
  eapply (status_change_then_filter URL_href_site toISOString_ref url_a true "A" "" ""
            page_a _ {[url_a := unread_a]} _ element_a (mkAnchor url_a (Some "/a") " A ")
            [element_a]).
  - vm_compute. reflexivity.
  - vm_compute. reflexivity.
  - reflexivity.
  - reflexivity.
  - apply list_elem_of_here.
Defined.

Lemma getOrCreateArticle_like_scraper_witness :
  exists d,
    extractArticleFromElement element_a = Some d
    /\ let created :=
         getOrCreateArticle URL_href_site toISOString_ref url_a
           (created_title (mkAnchor url_a (Some "/a") " A "))
           (created_publishedDate element_a) (created_dateText element_a) (popup ∅ 0) in
       let saved := saveArticle URL_href_site toISOString_ref d (popup ∅ 0) in
       exists r,
         created.1 = Ok (Some r) /\ saved.1 = Ok (Some r)
         /\ items (storage created.2) = items (storage saved.2)
         /\ items (storage saved.2) !! (CONFIG.storage_prefix ++ normalizeUrl1 URL_href_site url_a)
            = Some r
         /\ readState r = (JBool false, JNull).
Proof.
  eexists. split; [vm_compute; reflexivity|].
  apply (getOrCreateArticle_like_scraper URL_href_site toISOString_ref element_a
           (mkAnchor url_a (Some "/a") " A ")
           (mkTimeElement (Some "2024-01-01") "January 1, 2024") url_a _ (popup ∅ 0));
    vm_compute; reflexivity.
Defined.
